(** * Homework grader: the report contract, the API client and the display logic

    The development follows the TypeScript sources of the front end
    (types/index.ts, lib/api.ts, components/FileUpload.tsx,
    components/BulkResultsDisplay.tsx) and, for the grading pipeline that
    lives in the Python back end, the written contract of the pipeline.

    Conventions of the embedding.
    - A TypeScript [number] that carries a score is a rational ([Q]): the
      values come from JSON, hence are finite, and the statements below
      depend only on sums, signs of differences and comparisons.  Rounding
      of binary floating point is not modelled, and a quotient is the exact
      one (with a zero divisor JavaScript yields NaN or an infinity; the
      colour functions are only stated for a positive divisor, and the
      average checks its divisor).
    - A [number] that carries a count, a slide index or an HTTP status is
      an integer ([Z]).
    - An optional field [f?: T] is [option T].
    - A function that can throw returns an explicit outcome type.
    - A built-in of the host whose result the language leaves open
      ([Array.prototype.sort], the text of a number, [JSON.stringify]) is
      a parameter; what is asked of it is a stated hypothesis. *)

From Stdlib Require Import List String Ascii Bool Arith ZArith QArith Lia Lqa.
From Stdlib Require Import Permutation Sorted DecimalString.
Import ListNotations.

Set Implicit Arguments.
Set Warnings "-register-all".

(* ===================================================================== *)
(** ** Data model (types/index.ts)                                        *)
(* ===================================================================== *)

Module Types.

Record EvidenceItem := {
  slide_no : Z;
  quote : string;
  context : option string;
  comment : option string
}.

Record DeterministicCheckResult := {
  check_name : string;
  passed : bool;
  check_score : Q;
  check_max_score : Q;
  check_evidence : list EvidenceItem;
  check_missing_items : list string;
  details : option string
}.

Record DetectedEthicsPrinciple := {
  principle : string;
  correct_definition : bool;
  scene_match : bool;
  note : option string
}.

Record RubricScore := {
  category : string;
  score : Q;
  max_score : Q;
  reason : string;
  evidence : list EvidenceItem;
  sub_scores : option (list (string * Q));
  detected_principles : option (list DetectedEthicsPrinciple);
  consistency_analysis : option string;
  found_fields : option (list string);
  missing_fields : option (list string);
  language_errors : option (list string)
}.

Inductive Priority := high | medium | low.

Record ImprovementSuggestion := {
  imp_category : string;
  suggestion : string;
  priority : Priority
}.

Record GradingResult := {
  total_score : Q;
  rubric_scores : list RubricScore;
  missing_items : list string;
  improvements : list ImprovementSuggestion;
  deterministic_checks : list DeterministicCheckResult;
  on_time_submitted : bool;
  grading_notes : option string;
  overall_evaluation : option string
}.

Record StudentResult := {
  student_name : string;
  filename : string;
  success : bool;
  result : option GradingResult;
  error : option string
}.

Record BulkAnalyzeResponse := {
  total_files : Z;
  successful : Z;
  failed : Z;
  results : list StudentResult
}.

End Types.
Import Types.

(* ===================================================================== *)
(** ** JavaScript values and completions                                  *)
(* ===================================================================== *)

Module Js.

(** A parsed JSON document, as [response.json()] resolves to.  The
    fields of an object are its own properties, in insertion order. *)
Inductive json :=
| JNull
| JBool (b : bool)
| JNum (q : Q)
| JStr (s : string)
| JArr (items : list json)
| JObj (fields : list (string * json)).

(** A JavaScript value read from such a document: [None] is
    [undefined]. *)
Definition value := option json.

(** The completion of an expression that may throw. *)
Inductive completion (A : Type) :=
| Normal (a : A)
| TypeError.
Arguments Normal {A} a.
Arguments TypeError {A}.

Definition bind {A B} (c : completion A) (k : A -> completion B)
  : completion B :=
  match c with
  | Normal a => k a
  | TypeError => TypeError
  end.

Fixpoint lookup (key : string) (fields : list (string * json)) : value :=
  match fields with
  | [] => None
  | (k, v) :: rest => if String.eqb k key then Some v else lookup key rest
  end.

(** [o.key]: reading a property of [null] throws, a missing property and
    any property of a primitive or an array other than its own reads as
    [undefined]. *)
Definition get (o : json) (key : string) : completion value :=
  match o with
  | JNull => TypeError
  | JObj fields => Normal (lookup key fields)
  | _ => Normal None
  end.

(** ToBoolean. *)
Definition truthy (v : value) : bool :=
  match v with
  | None => false
  | Some JNull => false
  | Some (JBool b) => b
  | Some (JNum q) => negb (Qeq_bool q 0)
  | Some (JStr s) => negb (String.eqb s EmptyString)
  | Some (JArr _) => true
  | Some (JObj _) => true
  end.

(** [a || b] with a string literal on the right. *)
Definition or_else (a : value) (b : string) : json :=
  if truthy a then match a with Some v => v | None => JStr b end
  else JStr b.

Section ToString.

(** Number::toString is left to the host. *)
Variable NumberToString : Q -> string.

(** ToString, as the [Error] constructor applies it to its message.  An
    object goes through its [toString] method: a parsed object that has a
    key [toString] of its own has there a value that cannot be called, and
    [valueOf] gives no primitive either, so the conversion throws; without
    such a key the inherited method answers.  An array joins the
    conversions of its items, [null] counting as the empty string. *)
Fixpoint ToString (v : json) : completion string :=
  match v with
  | JNull => Normal "null"
  | JBool true => Normal "true"
  | JBool false => Normal "false"
  | JNum q => Normal (NumberToString q)
  | JStr s => Normal s
  | JArr items =>
      (fix join (l : list json) : completion string :=
         match l with
         | [] => Normal EmptyString
         | x :: rest =>
             bind (match x with
                   | JNull => Normal EmptyString
                   | _ => ToString x
                   end)
               (fun el =>
                  match rest with
                  | [] => Normal el
                  | _ :: _ =>
                      bind (join rest) (fun tail =>
                        Normal (String.append el (String.append "," tail)))
                  end)
         end) items
  | JObj fields =>
      match lookup "toString" fields with
      | Some _ => TypeError
      | None => Normal "[object Object]"
      end
  end%string.

End ToString.

End Js.
Import Js.

(* ===================================================================== *)
(** ** API client (lib/api.ts)                                            *)
(* ===================================================================== *)

Module Api.

Local Open Scope string_scope.

(** What [fetch] resolved with.  [body] is the payload read as JSON,
    [None] when it is not JSON and [response.json()] rejects; [blob] is
    the raw payload. *)
Record Response := {
  ok : bool;
  status : Z;
  body : option json;
  blob : string
}.

Record APIError := {
  message : string;
  api_status : Z;
  api_details : option string
}.

(** How an async call of the client settles. *)
Inductive settled (A : Type) :=
| Resolved (a : A)
| RejectedAPIError (e : APIError)
| RejectedTypeError
| RejectedSyntaxError.
Arguments Resolved {A} a.
Arguments RejectedAPIError {A} e.
Arguments RejectedTypeError {A}.
Arguments RejectedSyntaxError {A}.

Section Client.

Variable NumberToString : Q -> string.
Variable JSON_stringify : json -> string.

(** [response.json()] on the success path. *)
Definition response_json (response : Response) : settled json :=
  match body response with
  | Some v => Resolved v
  | None => RejectedSyntaxError
  end.

(** [await response.json().catch(() => ({}))]. *)
Definition json_or_empty (response : Response) : json :=
  match body response with
  | Some v => v
  | None => JObj []
  end.

Definition analyzePresentation (response : Response) : settled json :=
  if negb (ok response) then
    let errorData := json_or_empty response in
    match get errorData "detail" with
    | TypeError => RejectedTypeError
    | Normal detail =>
        match ToString NumberToString (or_else detail "Analysis failed") with
        | TypeError => RejectedTypeError
        | Normal message =>
            RejectedAPIError
              {| message := message;
                 api_status := status response;
                 api_details := Some (JSON_stringify errorData) |}
        end
    end
  else response_json response.

Definition analyzeBulk (response : Response) : settled json :=
  if negb (ok response) then
    let errorData := json_or_empty response in
    match get errorData "detail" with
    | TypeError => RejectedTypeError
    | Normal detail =>
        match ToString NumberToString (or_else detail "Bulk analysis failed") with
        | TypeError => RejectedTypeError
        | Normal message =>
            RejectedAPIError
              {| message := message;
                 api_status := status response;
                 api_details := Some (JSON_stringify errorData) |}
        end
    end
  else response_json response.

Definition exportExcel (response : Response) : settled string :=
  if negb (ok response) then
    let errorData := json_or_empty response in
    match get errorData "detail" with
    | TypeError => RejectedTypeError
    | Normal detail =>
        match ToString NumberToString (or_else detail "Excel export failed") with
        | TypeError => RejectedTypeError
        | Normal message =>
            RejectedAPIError
              {| message := message;
                 api_status := status response;
                 api_details := Some (JSON_stringify errorData) |}
        end
    end
  else Resolved (blob response).

(** A [detail] that is a text or counts as none: absent, or falsy, or a
    string. *)
Definition text_or_falsy (detail : value) : Prop :=
  truthy detail = false \/ exists s, detail = Some (JStr s).

(** The message an [APIError] is meant to carry for such a [detail]: the
    server's text when it is not empty, the call's fixed default
    otherwise. *)
Definition message_for (default : string) (detail : value) : string :=
  match detail with
  | Some (JStr s) => if String.eqb s EmptyString then default else s
  | _ => default
  end.

End Client.

Local Open Scope Q_scope.

(** [a >= b] on numbers. *)
Definition ge (a b : Q) : bool := Qle_bool b a.

Definition getScoreColor (score maxScore : Q) : string :=
  let percentage := (score / maxScore) * 100 in
  if ge percentage 80 then "text-green-600"
  else if ge percentage 60 then "text-yellow-600"
  else if ge percentage 40 then "text-orange-500"
  else "text-red-600".

Definition getScoreBgColor (score maxScore : Q) : string :=
  let percentage := (score / maxScore) * 100 in
  if ge percentage 80 then "bg-green-100"
  else if ge percentage 60 then "bg-yellow-100"
  else if ge percentage 40 then "bg-orange-100"
  else "bg-red-100".

End Api.

(* ===================================================================== *)
(** ** Upload component (components/FileUpload.tsx)                       *)
(* ===================================================================== *)

Module FileUpload.

Local Open Scope string_scope.

(** A browser [File]: its name and its size in bytes. *)
Record File := {
  name : string;
  size : Z
}.

(** [toLowerCase] on one code unit.  Names are modelled as byte strings
    and only the letters A-Z change case; no other character lower-cases
    to one of the characters of the suffix that is tested. *)
Definition lower_ascii (c : ascii) : ascii :=
  let n := nat_of_ascii c in
  if (65 <=? n)%nat && (n <=? 90)%nat then ascii_of_nat (n + 32) else c.

Fixpoint toLowerCase (s : string) : string :=
  match s with
  | EmptyString => EmptyString
  | String c rest => String (lower_ascii c) (toLowerCase rest)
  end.

(** [s.endsWith(searchString)]. *)
Definition endsWith (s searchString : string) : bool :=
  let n := String.length s in
  let m := String.length searchString in
  if (n <? m)%nat then false
  else String.eqb (substring (n - m) m s) searchString.

Definition is_pptx (file : File) : bool :=
  endsWith (toLowerCase (name file)) ".pptx".

(** The [for] loop of [validateFiles], pushing onto [validFiles]. *)
Fixpoint validateFiles_loop (files validFiles : list File) : list File :=
  match files with
  | [] => validFiles
  | file :: rest =>
      if endsWith (toLowerCase (name file)) ".pptx"
      then validateFiles_loop rest (validFiles ++ [file])
      else validateFiles_loop rest validFiles
  end.

Definition validateFiles (files : list File) : list File :=
  validateFiles_loop files [].

(** What a drop or a selection does to the rest of the page. *)
Inductive effect :=
| Nothing
| onFileSelect (file : File)
| onFilesSelect (files : list File)
| alert (msg : string).

Definition only_pptx_msg : string := "Sadece .pptx dosyaları kabul edilir".

(** [has_onFilesSelect]: the optional callback prop is supplied. *)
Definition handleDrop (disabled multiple has_onFilesSelect : bool)
    (files : list File) : effect :=
  if disabled then Nothing
  else
    match files with
    | [] => Nothing
    | file :: _ =>
        if multiple && has_onFilesSelect then
          let validFiles := validateFiles files in
          if (0 <? List.length validFiles)%nat then onFilesSelect validFiles
          else alert only_pptx_msg
        else
          if endsWith (toLowerCase (name file)) ".pptx" then onFileSelect file
          else alert only_pptx_msg
    end.

(** [files] is [None] when the input element reports no file list. *)
Definition handleFileChange (multiple has_onFilesSelect : bool)
    (files : option (list File)) : effect :=
  match files with
  | None => Nothing
  | Some [] => Nothing
  | Some ((file :: _) as files) =>
      if multiple && has_onFilesSelect then
        let validFiles := validateFiles files in
        if (0 <? List.length validFiles)%nat then onFilesSelect validFiles
        else alert only_pptx_msg
      else
        if endsWith (toLowerCase (name file)) ".pptx" then onFileSelect file
        else alert only_pptx_msg
  end.

(** The upload limit announced to the user, in bytes. *)
Definition max_upload_bytes : Z := 15 * 1024 * 1024.

(** A name ends with ".pptx" up to the case of its letters. *)
Definition is_letter (low up c : ascii) : Prop := c = low \/ c = up.

Definition ends_with_pptx_ci (s : string) : Prop :=
  exists stem c1 c2 c3 c4,
    s = String.append stem (String "." (String c1 (String c2 (String c3 (String c4 EmptyString)))))
    /\ is_letter "p" "P" c1 /\ is_letter "p" "P" c2
    /\ is_letter "t" "T" c3 /\ is_letter "x" "X" c4.

End FileUpload.

(* ===================================================================== *)
(** ** Bulk results display (components/BulkResultsDisplay.tsx)           *)
(* ===================================================================== *)

Module BulkResultsDisplay.

Local Open Scope Q_scope.

(** [r.result!.total_score]: the non-null assertion is erased at run
    time, so the read throws when [result] is absent. *)
Definition result_total_score (r : StudentResult) : completion Q :=
  match result r with
  | Some g => Normal (total_score g)
  | None => TypeError
  end.

(** What a collapsed [StudentResultCard] shows. *)
Inductive card :=
| ErrorCard (student_name filename : string) (error : option string)
| ScoreCard (student_name filename : string) (total : Q) (colour : string).

Definition StudentResultCard (student : StudentResult) : completion card :=
  if negb (success student) then
    Normal (ErrorCard (student_name student) (filename student) (error student))
  else
    bind (result_total_score student) (fun total =>
      Normal (ScoreCard (student_name student) (filename student) total
                (Api.getScoreColor total 100))).

(** [r.success && r.result]. *)
Definition success_and_result (r : StudentResult) : bool :=
  success r && match result r with Some _ => true | None => false end.

Definition successfulResults (result : BulkAnalyzeResponse)
  : list StudentResult :=
  filter success_and_result (results result).

(** [Array.prototype.reduce] with an initial value. *)
Fixpoint reduce {A B : Type} (f : B -> A -> completion B) (l : list A)
    (acc : B) : completion B :=
  match l with
  | [] => Normal acc
  | x :: rest => bind (f acc x) (reduce f rest)
  end.

(** A sum divided by a length.  With a zero divisor the quotient is NaN
    or an infinity, which is no score: [None]. *)
Definition divide (a : Q) (n : nat) : option Q :=
  match n with
  | O => None
  | S _ => Some (a / inject_Z (Z.of_nat n))
  end.

Definition avgScore (result : BulkAnalyzeResponse) : completion (option Q) :=
  let successfulResults := successfulResults result in
  if (0 <? List.length successfulResults)%nat then
    bind (reduce (fun acc r => bind (result_total_score r)
                                 (fun t => Normal (acc + t)))
            successfulResults 0)
         (fun sum => Normal (divide sum (List.length successfulResults)))
  else Normal (Some 0).

(** The comparator handed to [sort]. *)
Definition compareFn (a b : StudentResult) : completion Q :=
  if negb (success a) then Normal 1
  else if negb (success b) then Normal (-1)
  else
    bind (result_total_score b) (fun tb =>
    bind (result_total_score a) (fun ta =>
      Normal (tb - ta))).

(** [Array.prototype.sort(comparefn)] is a built-in of the host, not code
    of the repository: the display receives it as a parameter.  The copy
    [[...result.results]] leaves the report as it is, so the procedure maps
    a list to a list; it fails when the comparator throws. *)
Definition Array_prototype_sort : Type :=
  forall A : Type, (A -> A -> completion Q) -> list A -> completion (list A).

Definition sortedResults (sort : Array_prototype_sort)
    (result : BulkAnalyzeResponse) : completion (list StudentResult) :=
  sort StudentResult compareFn (results result).

(** What the language promises of the built-in, and what a comparator
    must be for it. *)
Section SortOrder.

Variable A : Type.
Variable comparefn : A -> A -> completion Q.

(** [comparefn(a, b) < 0]: the comparator wants [a] before [b]. *)
Definition precedes (a b : A) : Prop :=
  exists v, comparefn a b = Normal v /\ v < 0.

(** [a] may stand before [b]: the comparator does not want [b] first. *)
Definition may_precede (a b : A) : Prop := ~ precedes b a.

(** Sort order: [out] holds the elements of [l], and no element stands
    after one that the comparator wants it before. *)
Definition sort_order (l out : list A) : Prop :=
  Permutation l out /\
  forall i j a b, (i < j)%nat ->
    nth_error out i = Some a -> nth_error out j = Some b ->
    may_precede a b.

(** A consistent comparator on the values [U], in the words of the
    language definition: it always answers; [a =CF a]; [=CF] is symmetric
    and transitive; [<CF] and [>CF] are transitive; and [a <CF b] gives
    [b >CF a]. *)
Definition consistent (U : A -> Prop) : Prop :=
  (forall a b, U a -> U b -> exists v, comparefn a b = Normal v) /\
  (forall a, U a -> exists v, comparefn a a = Normal v /\ v == 0) /\
  (forall a b v, U a -> U b -> comparefn a b = Normal v -> v == 0 ->
     exists w, comparefn b a = Normal w /\ w == 0) /\
  (forall a b c v w, U a -> U b -> U c ->
     comparefn a b = Normal v -> v == 0 ->
     comparefn b c = Normal w -> w == 0 ->
     exists x, comparefn a c = Normal x /\ x == 0) /\
  (forall a b c v w, U a -> U b -> U c ->
     comparefn a b = Normal v -> v < 0 ->
     comparefn b c = Normal w -> w < 0 ->
     exists x, comparefn a c = Normal x /\ x < 0) /\
  (forall a b c v w, U a -> U b -> U c ->
     comparefn a b = Normal v -> 0 < v ->
     comparefn b c = Normal w -> 0 < w ->
     exists x, comparefn a c = Normal x /\ 0 < x) /\
  (forall a b v, U a -> U b -> comparefn a b = Normal v -> v < 0 ->
     exists w, comparefn b a = Normal w /\ 0 < w).

(** What is left of consistency when only the sign of an answer and the
    question "is it negative" are looked at: the comparator always
    answers on the values [U]; an answer [comparefn(a, b) < 0] has the
    answer [comparefn(b, a) > 0] the other way round; and "may stand
    before" is transitive.  Two values may then be unrelated without the
    comparator answering 0 for them. *)
Definition orders (U : A -> Prop) : Prop :=
  (forall a b, U a -> U b -> exists v, comparefn a b = Normal v) /\
  (forall a b v, U a -> U b -> comparefn a b = Normal v -> v < 0 ->
     exists w, comparefn b a = Normal w /\ 0 < w) /\
  (forall a b c, U a -> U b -> U c ->
     may_precede a b -> may_precede b c -> may_precede a c).

End SortOrder.

(** The contract of the host: on a list whose elements the comparator
    orders, the call returns, and returns the list in sort order.  For a
    consistent comparator this is what the language requires of every
    host. *)
Definition sorts_in_order (sort : Array_prototype_sort) : Prop :=
  forall (A : Type) (comparefn : A -> A -> completion Q) (l : list A),
    orders comparefn (fun x => In x l) ->
    exists out, sort A comparefn l = Normal out /\
      sort_order comparefn l out.

(** Procedures that meet the contract, to show that it can be met and
    how far it leaves the result open. *)

(** Sorting by insertion: the elements are taken from left to right, and
    each one moves leftwards past every [tmp] of the sorted prefix with
    [comparefn(tmp, element) > 0].  The prefix is held reversed, so that
    its last element is at the head. *)
Section InsertionSort.

Variable A : Type.
Variable comparefn : A -> A -> completion Q.

Fixpoint insert (element : A) (rev_prefix : list A)
  : completion (list A) :=
  match rev_prefix with
  | [] => Normal [element]
  | tmp :: rest =>
      bind (comparefn tmp element) (fun order =>
        if negb (Qle_bool order 0)
        then bind (insert element rest) (fun l => Normal (tmp :: l))
        else Normal (element :: tmp :: rest))
  end.

Fixpoint insertion_loop (todo rev_prefix : list A) : completion (list A) :=
  match todo with
  | [] => Normal (rev rev_prefix)
  | element :: rest =>
      bind (insert element rev_prefix) (insertion_loop rest)
  end.

Definition insertion_sort (l : list A) : completion (list A) :=
  insertion_loop l [].

End InsertionSort.

(** Sorting by merging, bottom-up from runs of one element;
    [take_left a b] is the one comparison that decides whether the head
    [a] of the left run goes before the head [b] of the right run. *)
Section MergeSort.

Variable A : Type.
Variable take_left : A -> A -> completion bool.

Fixpoint merge (l1 : list A) : list A -> completion (list A) :=
  match l1 with
  | [] => fun l2 => Normal l2
  | a :: l1' =>
      fix merge_right (l2 : list A) : completion (list A) :=
        match l2 with
        | [] => Normal (a :: l1')
        | b :: l2' =>
            bind (take_left a b) (fun left =>
              if left
              then bind (merge l1' (b :: l2')) (fun m => Normal (a :: m))
              else bind (merge_right l2') (fun m => Normal (b :: m)))
        end
  end.

Fixpoint merge_pairs (runs : list (list A)) : completion (list (list A)) :=
  match runs with
  | r1 :: r2 :: rest =>
      bind (merge r1 r2) (fun m =>
      bind (merge_pairs rest) (fun ms => Normal (m :: ms)))
  | _ => Normal runs
  end.

Fixpoint merge_passes (fuel : nat) (runs : list (list A))
  : completion (list A) :=
  match runs with
  | [] => Normal []
  | [r] => Normal r
  | _ =>
      match fuel with
      | O => Normal (List.concat runs)
      | S k => bind (merge_pairs runs) (merge_passes k)
      end
  end.

Definition merge_sort (l : list A) : completion (list A) :=
  merge_passes (List.length l) (map (fun x => [x]) l).

End MergeSort.

Section MergeDecisions.

Variable A : Type.
Variable comparefn : A -> A -> completion Q.

(** The left head goes first when [comparefn(left, right) <= 0]. *)
Definition left_if_le (a b : A) : completion bool :=
  bind (comparefn a b) (fun order => Normal (Qle_bool order 0)).

(** The right head goes first when [comparefn(right, left) < 0]. *)
Definition left_unless_lt (a b : A) : completion bool :=
  bind (comparefn b a) (fun order => Normal (Qle_bool 0 order)).

(** A merge decision is justified on the values [U] when it completes
    and puts first a head that may stand before the other. *)
Definition justified (U : A -> Prop)
    (take_left : A -> A -> completion bool) : Prop :=
  forall a b, U a -> U b ->
    exists d, take_left a b = Normal d /\
      (d = true -> may_precede comparefn a b) /\
      (d = false -> may_precede comparefn b a).

(** A run: every element may stand before the ones after it. *)
Definition run (U : A -> Prop) (l : list A) : Prop :=
  StronglySorted (may_precede comparefn) l /\ Forall U l.

(** The same order read from the right, for the reversed prefix of the
    insertion. *)
Definition before_rev (x y : A) : Prop := may_precede comparefn y x.

End MergeDecisions.

(** Sorting as the V8 engine does an array of fewer than 64 elements:
    the run the array begins with is found, and reversed if it is
    strictly descending; every further element is then inserted into the
    run at the place a binary search gives.  The only question asked is
    [comparefn(x, y) < 0].  (A longer array is cut into such runs, which
    are then merged; that part is not described here.) *)
Section BinaryInsertionSort.

Variable A : Type.
Variable comparefn : A -> A -> completion Q.

(** [comparefn(a, b) < 0] *)
Definition negative (a b : A) : completion bool :=
  bind (comparefn a b) (fun order => Normal (negb (Qle_bool 0 order))).

(** The loop of CountAndMakeRun: the run goes on while the current
    element is below the previous one, in a descending run, and while it
    is not, in an ascending one.  The run is held reversed. *)
Fixpoint extend_run (isDescending : bool) (previousElement : A)
    (rest rev_run : list A) : completion (list A * list A) :=
  match rest with
  | [] => Normal (rev_run, [])
  | currentElement :: rest' =>
      bind (negative currentElement previousElement) (fun below =>
        if Bool.eqb below isDescending
        then extend_run isDescending currentElement rest'
               (currentElement :: rev_run)
        else Normal (rev_run, rest))
  end.

(** CountAndMakeRun: the leading run, ascending, and what follows it. *)
Definition count_and_make_run (l : list A) : completion (list A * list A) :=
  match l with
  | [] => Normal ([], [])
  | [x] => Normal ([x], [])
  | elementHigh :: elementLow :: rest =>
      bind (negative elementLow elementHigh) (fun isDescending =>
      bind (extend_run isDescending elementLow rest [elementLow; elementHigh])
        (fun found =>
           Normal (if isDescending then fst found else rev (fst found),
                   snd found)))
  end.

(** The binary search of BinaryInsertionSort: [left] moves up past an
    element the pivot is not below, [right] down to an element it is
    below, until they meet. *)
Fixpoint search (fuel : nat) (sorted : list A) (pivot : A)
    (left right : nat) : completion nat :=
  match fuel with
  | O => Normal left
  | S k =>
      if (left <? right)%nat then
        let mid := (left + Nat.div2 (right - left))%nat in
        match nth_error sorted mid with
        | None => Normal left
        | Some element =>
            bind (negative pivot element) (fun below =>
              if below then search k sorted pivot left mid
              else search k sorted pivot (S mid) right)
        end
      else Normal left
  end.

Definition insert_pivot (sorted : list A) (pivot : A)
  : completion (list A) :=
  bind (search (List.length sorted) sorted pivot 0 (List.length sorted))
    (fun left => Normal (firstn left sorted ++ pivot :: skipn left sorted)).

Fixpoint binary_insertion (sorted rest : list A) : completion (list A) :=
  match rest with
  | [] => Normal sorted
  | pivot :: rest' =>
      bind (insert_pivot sorted pivot) (fun sorted' =>
        binary_insertion sorted' rest')
  end.

Definition binary_insertion_sort (l : list A) : completion (list A) :=
  bind (count_and_make_run l) (fun found =>
    binary_insertion (fst found) (snd found)).

End BinaryInsertionSort.

Definition merge_sort_le : Array_prototype_sort :=
  fun A comparefn => merge_sort (left_if_le comparefn).

Definition merge_sort_lt : Array_prototype_sort :=
  fun A comparefn => merge_sort (left_unless_lt comparefn).

(** The total score a successful entry carries (0 stands in for an
    absent result, which a well-formed report never has on a successful
    entry). *)
Definition score_of (r : StudentResult) : Q :=
  match result r with
  | Some g => total_score g
  | None => 0
  end.

Definition sum_scores (l : list StudentResult) : Q :=
  fold_right (fun r acc => score_of r + acc) 0 l.

(** The order the display is meant to show: [a] may stand before [b]. *)
Definition display_order (a b : StudentResult) : Prop :=
  (success a = false -> success b = false) /\
  (success a = true -> success b = true -> score_of b <= score_of a).

(** The invariant of a bulk unit: a successful entry carries its
    result. *)
Definition has_result (r : StudentResult) : Prop :=
  success r = true -> exists g, result r = Some g.

End BulkResultsDisplay.

(* ===================================================================== *)
(** ** Grading pipeline (back end, modelled from its contract)            *)
(* ===================================================================== *)

Module Pipeline.

Local Open Scope Q_scope.
Local Open Scope string_scope.

(** The closed set of rubric categories and the weighting table
    (README.md, "Rubric (100 points)"; app/page.tsx, the criteria box). *)
Inductive Category :=
| EthicsPrinciples
| SceneExplanation
| TemplateCompliance
| VisualDesign.

Definition categories : list Category :=
  [EthicsPrinciples; SceneExplanation; TemplateCompliance; VisualDesign].

Definition category_name (c : Category) : string :=
  match c with
  | EthicsPrinciples => "Ethics Principles"
  | SceneExplanation => "Scene Explanation"
  | TemplateCompliance => "Template Compliance"
  | VisualDesign => "Visual Design"
  end.

Definition category_max (c : Category) : Q :=
  match c with
  | EthicsPrinciples => 15
  | SceneExplanation => 50
  | TemplateCompliance => 15
  | VisualDesign => 10
  end.

Definition on_time_points : Q := 10.

Definition Qltb (a b : Q) : bool := negb (Qle_bool b a).

(** Modelled from the spec: the clamping of a number into [[lo, hi]]
    that the orchestrator and the aggregator apply; the back end that
    holds it (services/llm_grader.py and the aggregation) is not among the
    sources.  A value below [lo] becomes [lo], one above [hi] becomes
    [hi], any other is kept. *)
Definition clamp (lo hi x : Q) : Q :=
  if Qltb x lo then lo else if Qltb hi x then hi else x.

Inductive EvaluatorError :=
| LLMTimeout
| LLMUnavailable
| MalformedLLMResponse.

(** What the external evaluator answers for one category: untrusted. *)
Record RawEvaluation := {
  raw_score : Q;
  raw_reason : string;
  raw_evidence : list EvidenceItem
}.

Definition retry_budget : nat := 2.

Section Orchestrator.

Variables DocumentModel PromptConfig : Type.

(** The structured evaluator capability; the third argument numbers
    the attempts, the re-prompts after a malformed answer. *)
Variable evaluate :
  DocumentModel -> Category -> PromptConfig -> nat ->
  EvaluatorError + RawEvaluation.

Fixpoint evaluate_with_retries (doc : DocumentModel) (c : Category)
    (cfg : PromptConfig) (attempt retries : nat)
  : EvaluatorError + RawEvaluation :=
  match evaluate doc c cfg attempt with
  | inl MalformedLLMResponse =>
      match retries with
      | O => inl MalformedLLMResponse
      | S k => evaluate_with_retries doc c cfg (S attempt) k
      end
  | answer => answer
  end.

(** Modelled from the spec: [gradeCategory(doc, category, promptConfig)]
    of the rubric grading orchestrator, absent from the sources.  It
    fails with the evaluator's error once the retry budget is spent and
    otherwise normalises the answer into a rubric score record, the
    score clamped into [[0, max_score]] of the category. *)
Definition gradeCategory (doc : DocumentModel) (c : Category)
    (cfg : PromptConfig) : EvaluatorError + RubricScore :=
  match evaluate_with_retries doc c cfg 0 retry_budget with
  | inl e => inl e
  | inr raw =>
      inr {| category := category_name c;
             score := clamp 0 (category_max c) (raw_score raw);
             max_score := category_max c;
             reason := raw_reason raw;
             evidence := raw_evidence raw;
             sub_scores := None;
             detected_principles := None;
             consistency_analysis := None;
             found_fields := None;
             missing_fields := None;
             language_errors := None |}
  end.

Definition error_message (e : EvaluatorError) : string :=
  match e with
  | LLMTimeout => "evaluator timed out"
  | LLMUnavailable => "evaluator unavailable"
  | MalformedLLMResponse => "evaluator answer malformed"
  end.

(** Modelled from the spec: the grading pass over the categories,
    absent from the sources.  The categories are evaluated
    independently; a category whose evaluation fails degrades to a zero
    score with the failure recorded as its reason. *)
Definition gradeOrDegrade (doc : DocumentModel) (cfg : PromptConfig)
    (c : Category) : RubricScore :=
  match gradeCategory doc c cfg with
  | inr rs => rs
  | inl e =>
      {| category := category_name c;
         score := 0;
         max_score := category_max c;
         reason := error_message e;
         evidence := [];
         sub_scores := None;
         detected_principles := None;
         consistency_analysis := None;
         found_fields := None;
         missing_fields := None;
         language_errors := None |}
  end.

Definition gradeAll (doc : DocumentModel) (cfg : PromptConfig)
  : list RubricScore :=
  map (gradeOrDegrade doc cfg) categories.

End Orchestrator.

(** Keeps the first occurrence of every item. *)
Fixpoint dedup (seen l : list string) : list string :=
  match l with
  | [] => []
  | x :: rest =>
      if existsb (String.eqb x) seen then dedup seen rest
      else x :: dedup (x :: seen) rest
  end.

Definition rubric_missing (r : RubricScore) : list string :=
  match missing_fields r with
  | Some l => l
  | None => []
  end.

(** A running total: the numbers are added one after the other to an
    accumulator that starts at 0. *)
Definition total_of (points : list Q) : Q := fold_left Qplus points 0.

(** What the orchestrator guarantees of a rubric score it hands to the
    aggregator: the score is within the range of its category. *)
Definition score_in_range (r : RubricScore) : Prop :=
  0 <= score r /\ score r <= max_score r.

(** What the fixed weighting table asks of the folding of the check
    scores into the rubric categories: the categories and their maxima
    stay as the table has them, and scores that were within the range of
    their category are still within it with the checks counted in. *)
Definition keeps_weighting
    (fold_checks : list DeterministicCheckResult -> list RubricScore ->
                   list RubricScore) : Prop :=
  forall checks rubricScores,
    map category (fold_checks checks rubricScores)
    = map category rubricScores /\
    map max_score (fold_checks checks rubricScores)
    = map max_score rubricScores /\
    (Forall score_in_range rubricScores ->
     Forall score_in_range (fold_checks checks rubricScores)).

Section Aggregator.

(** Modelled from the spec: the folding of the deterministic-check scores
    into specific rubric categories per the fixed weighting table, part of
    the aggregator, which is absent from the sources.  The contract names
    the table but not the apportionment of the points of a category
    between its checks and the evaluator, so the folding is a parameter:
    from the checks and the rubric scores of the grading pass it gives the
    rubric scores of the report, the checks counted in. *)
Variable fold_checks :
  list DeterministicCheckResult -> list RubricScore -> list RubricScore.

(** The derivation of improvement suggestions is left open by the
    contract (threshold and priority rule). *)
Variable derive_improvements :
  list DeterministicCheckResult -> list RubricScore ->
  list ImprovementSuggestion.

(** Modelled from the spec: [aggregate(checks, rubricScores, onTime)]
    of the aggregator, absent from the sources.  The check scores are
    folded into their rubric categories; the total is the sum of the
    scores of the categories so obtained plus the 10 on-time points when
    the submission was on time, clamped into [[0, 100]].  Missing items
    are the check-level then the rubric-level ones, without duplicates,
    in insertion order. *)
Definition aggregate (checks : list DeterministicCheckResult)
    (rubricScores : list RubricScore) (onTime : bool) : GradingResult :=
  let folded := fold_checks checks rubricScores in
  {| total_score :=
       clamp 0 100
         (total_of (map score folded)
          + (if onTime then on_time_points else 0));
     rubric_scores := folded;
     missing_items :=
       dedup [] (flat_map check_missing_items checks
                   ++ flat_map rubric_missing folded);
     improvements := derive_improvements checks folded;
     deterministic_checks := checks;
     on_time_submitted := onTime;
     grading_notes := None;
     overall_evaluation := None |}.

End Aggregator.

Section SingleFile.

Variables DocumentModel PromptConfig : Type.
Variable evaluate :
  DocumentModel -> Category -> PromptConfig -> nat ->
  EvaluatorError + RawEvaluation.
Variable runChecks : DocumentModel -> list DeterministicCheckResult.
Variable fold_checks :
  list DeterministicCheckResult -> list RubricScore -> list RubricScore.
Variable derive_improvements :
  list DeterministicCheckResult -> list RubricScore ->
  list ImprovementSuggestion.

(** Modelled from the spec: the single-file pipeline after extraction,
    absent from the sources: checks and rubric grading over the same
    document model, joined by the aggregator. *)
Definition gradeDocument (doc : DocumentModel) (cfg : PromptConfig)
    (onTime : bool) : GradingResult :=
  aggregate fold_checks derive_improvements (runChecks doc)
    (gradeAll evaluate doc cfg) onTime.

End SingleFile.

(** A folding by a table from check names to categories: the points of
    the checks of a category are added to the evaluator's, up to the
    maximum of the category. *)
Section FoldByTable.

Variable check_category : string -> option string.

Definition check_points (checks : list DeterministicCheckResult)
    (cat : string) : Q :=
  total_of
    (map check_score
       (filter (fun c => match check_category (check_name c) with
                         | Some name => String.eqb name cat
                         | None => false
                         end) checks)).

Definition fold_by_table (checks : list DeterministicCheckResult)
    (rubricScores : list RubricScore) : list RubricScore :=
  map (fun r =>
         {| category := category r;
            score := clamp 0 (max_score r)
                       (score r + check_points checks (category r));
            max_score := max_score r;
            reason := reason r;
            evidence := evidence r;
            sub_scores := sub_scores r;
            detected_principles := detected_principles r;
            consistency_analysis := consistency_analysis r;
            found_fields := found_fields r;
            missing_fields := missing_fields r;
            language_errors := language_errors r |})
      rubricScores.

End FoldByTable.

Section BulkRunner.

Variable bytes : Type.

(** The label inferred from a file name. *)
Variable derive_student_name : string -> string.

(** The single-file pipeline: a report, or the message of the failure
    of whatever stage failed. *)
Variable grade : bytes -> bool -> string + GradingResult.

Definition grade_one (file : string * bytes) (onTime : bool)
  : StudentResult :=
  match grade (snd file) onTime with
  | inr g =>
      {| student_name := derive_student_name (fst file);
         filename := fst file;
         success := true;
         result := Some g;
         error := None |}
  | inl msg =>
      {| student_name := derive_student_name (fst file);
         filename := fst file;
         success := false;
         result := None;
         error := Some msg |}
  end.

Fixpoint runBulk_loop (files : list (string * bytes)) (onTime : bool)
    (report : BulkAnalyzeResponse) : BulkAnalyzeResponse :=
  match files with
  | [] => report
  | file :: rest =>
      let r := grade_one file onTime in
      runBulk_loop rest onTime
        {| total_files := (total_files report + 1)%Z;
           successful :=
             (if success r then successful report + 1
              else successful report)%Z;
           failed :=
             (if success r then failed report
              else failed report + 1)%Z;
           results := results report ++ [r] |}
  end.

(** Modelled from the spec: [runBulk(files, onTime)] of the bulk
    runner, absent from the sources.  Every file goes through the
    single-file pipeline in input order; a failure is recorded on the
    file's own entry and the run goes on. *)
Definition runBulk (files : list (string * bytes)) (onTime : bool)
  : BulkAnalyzeResponse :=
  runBulk_loop files onTime
    {| total_files := 0; successful := 0; failed := 0; results := [] |}.

End BulkRunner.

Definition count (p : StudentResult -> bool) (l : list StudentResult) : Z :=
  Z.of_nat (List.length (filter p l)).

End Pipeline.

(* ===================================================================== *)
(** ** The report on the wire                                             *)
(* ===================================================================== *)

Module Wire.

Local Open Scope string_scope.

(** *** The objects written at the output boundary *)

(** A field marked [name?] is written when its value is present and left
    out otherwise. *)
Definition optional {A : Type} (key : string) (enc : A -> json)
    (o : option A) : list (string * json) :=
  match o with
  | Some a => [(key, enc a)]
  | None => []
  end.

Definition strings (l : list string) : json := JArr (map JStr l).

(** Modelled from the spec: the serialisation of an evidence item by the
    back end, which is absent from the sources; section 6 gives it as
    [{slide_no, quote, context?, comment?}]. *)
Definition of_EvidenceItem (e : EvidenceItem) : json :=
  JObj ([("slide_no", JNum (inject_Z (slide_no e)));
         ("quote", JStr (quote e))]
        ++ optional "context" JStr (context e)
        ++ optional "comment" JStr (comment e)).

(** Modelled from the spec: the serialisation of a deterministic check
    result by the back end, absent from the sources; section 6 gives it as
    [{check_name, passed, score, max_score, evidence, missing_items,
    details?}]. *)
Definition of_DeterministicCheckResult (c : DeterministicCheckResult)
  : json :=
  JObj ([("check_name", JStr (check_name c));
         ("passed", JBool (passed c));
         ("score", JNum (check_score c));
         ("max_score", JNum (check_max_score c));
         ("evidence", JArr (map of_EvidenceItem (check_evidence c)));
         ("missing_items", strings (check_missing_items c))]
        ++ optional "details" JStr (details c)).

(** Modelled from the spec: the serialisation of a detected principle by
    the back end, absent from the sources.  The data model of section 3
    names [detected_principles] as an extension of the ethics category
    without listing the fields of an item; they are taken as the record
    has them. *)
Definition of_DetectedEthicsPrinciple (d : DetectedEthicsPrinciple)
  : json :=
  JObj ([("principle", JStr (principle d));
         ("correct_definition", JBool (correct_definition d));
         ("scene_match", JBool (scene_match d))]
        ++ optional "note" JStr (note d)).

Definition principles (l : list DetectedEthicsPrinciple) : json :=
  JArr (map of_DetectedEthicsPrinciple l).

(** A mapping of sub-criterion name to numeric value. *)
Definition of_Record (m : list (string * Q)) : json :=
  JObj (map (fun kv => (fst kv, JNum (snd kv))) m).

(** Modelled from the spec: the serialisation of a rubric score by the
    back end, absent from the sources; section 6 gives it as
    [{category, score, max_score, reason, evidence:[...], sub_scores?,
    ...}], the dots standing for the category-specific optional extensions
    of section 3: [detected_principles], [found_fields], [missing_fields],
    [language_errors] and [consistency_analysis]. *)
Definition of_RubricScore (r : RubricScore) : json :=
  JObj ([("category", JStr (category r));
         ("score", JNum (score r));
         ("max_score", JNum (max_score r));
         ("reason", JStr (reason r));
         ("evidence", JArr (map of_EvidenceItem (evidence r)))]
        ++ optional "sub_scores" of_Record (sub_scores r)
        ++ optional "detected_principles" principles (detected_principles r)
        ++ optional "consistency_analysis" JStr (consistency_analysis r)
        ++ optional "found_fields" strings (found_fields r)
        ++ optional "missing_fields" strings (missing_fields r)
        ++ optional "language_errors" strings (language_errors r)).

Definition of_Priority (p : Priority) : json :=
  match p with
  | high => JStr "high"
  | medium => JStr "medium"
  | low => JStr "low"
  end.

(** Modelled from the spec: the serialisation of an improvement
    suggestion by the back end, absent from the sources; section 6 gives
    it as [{category, suggestion, priority}], the priority one of high,
    medium and low. *)
Definition of_ImprovementSuggestion (i : ImprovementSuggestion) : json :=
  JObj [("category", JStr (imp_category i));
        ("suggestion", JStr (suggestion i));
        ("priority", of_Priority (priority i))].

(** Modelled from the spec: the serialisation of a grading result at the
    output boundary by the back end, absent from the sources; section 6
    gives it as [{total_score, rubric_scores:[...], missing_items:[],
    improvements:[...], deterministic_checks:[...], on_time_submitted,
    grading_notes?, overall_evaluation?}]. *)
Definition of_GradingResult (g : GradingResult) : json :=
  JObj ([("total_score", JNum (total_score g));
         ("rubric_scores", JArr (map of_RubricScore (rubric_scores g)));
         ("missing_items", strings (missing_items g));
         ("improvements",
           JArr (map of_ImprovementSuggestion (improvements g)));
         ("deterministic_checks",
           JArr (map of_DeterministicCheckResult (deterministic_checks g)));
         ("on_time_submitted", JBool (on_time_submitted g))]
        ++ optional "grading_notes" JStr (grading_notes g)
        ++ optional "overall_evaluation" JStr (overall_evaluation g)).

(** Modelled from the spec: the serialisation of the entry of one file
    of a bulk run by the back end, absent from the sources; section 6
    gives it as [{student_name, filename, success, result?, error?}]. *)
Definition of_StudentResult (s : StudentResult) : json :=
  JObj ([("student_name", JStr (student_name s));
         ("filename", JStr (filename s));
         ("success", JBool (success s))]
        ++ optional "result" of_GradingResult (result s)
        ++ optional "error" JStr (error s)).

(** Modelled from the spec: the serialisation of a bulk report at the
    output boundary by the back end, absent from the sources; section 6
    gives it as [{total_files, successful, failed, results:[...]}]. *)
Definition of_BulkAnalyzeResponse (b : BulkAnalyzeResponse) : json :=
  JObj [("total_files", JNum (inject_Z (total_files b)));
        ("successful", JNum (inject_Z (successful b)));
        ("failed", JNum (inject_Z (failed b)));
        ("results", JArr (map of_StudentResult (results b)))].

(** *** The shapes the display layer declares (types/index.ts) *)

(** The types an interface of types/index.ts gives its fields: [number],
    [string], [boolean], a union of string literals, an array [T[]], a
    [Record<string, T>], and an interface. *)
Inductive shape :=
| Num
| Str
| Bool
| OneOf (literals : list string)
| ArrayOf (item : shape)
| MapOf (item : shape)
| Object (fields : list (string * (bool * shape))).

(** A mandatory and an optional ([name?]) field. *)
Definition req (name : string) (s : shape) := (name, (false, s)).
Definition opt (name : string) (s : shape) := (name, (true, s)).

(** [conforms s v]: [v] has the nesting of [s]; an object has every
    mandatory field, no field that is not declared, and each field it has
    conforms to the field's shape. *)
Fixpoint conforms (s : shape) (v : json) {struct s} : bool :=
  match s, v with
  | Num, JNum _ => true
  | Str, JStr _ => true
  | Bool, JBool _ => true
  | OneOf literals, JStr x => existsb (String.eqb x) literals
  | ArrayOf item, JArr l => forallb (conforms item) l
  | MapOf item, JObj kvs => forallb (fun kv => conforms item (snd kv)) kvs
  | Object fields, JObj kvs =>
      (fix declared (fs : list (string * (bool * shape))) : bool :=
         match fs with
         | [] => true
         | (name, (is_optional, sh)) :: rest =>
             match lookup name kvs with
             | Some x => conforms sh x
             | None => is_optional
             end && declared rest
         end) fields
      && forallb (fun kv => existsb (String.eqb (fst kv)) (map fst fields)) kvs
  | _, _ => false
  end.

(** The two conditions on an object, spelled out on its own. *)
Definition field_ok (kvs : list (string * json))
    (f : string * (bool * shape)) : bool :=
  match lookup (fst f) kvs with
  | Some x => conforms (snd (snd f)) x
  | None => fst (snd f)
  end.

Definition declared_in (fields : list (string * (bool * shape)))
    (kv : string * json) : bool :=
  existsb (String.eqb (fst kv)) (map fst fields).

(** [interface EvidenceItem] *)
Definition EvidenceItem_shape : shape :=
  Object [req "slide_no" Num; req "quote" Str;
          opt "context" Str; opt "comment" Str].

(** [interface DetectedEthicsPrinciple] *)
Definition DetectedEthicsPrinciple_shape : shape :=
  Object [req "principle" Str; req "correct_definition" Bool;
          req "scene_match" Bool; opt "note" Str].

(** [interface RubricScore] *)
Definition RubricScore_shape : shape :=
  Object [req "category" Str; req "score" Num; req "max_score" Num;
          req "reason" Str; req "evidence" (ArrayOf EvidenceItem_shape);
          opt "sub_scores" (MapOf Num);
          opt "detected_principles" (ArrayOf DetectedEthicsPrinciple_shape);
          opt "consistency_analysis" Str;
          opt "found_fields" (ArrayOf Str);
          opt "missing_fields" (ArrayOf Str);
          opt "language_errors" (ArrayOf Str)].

(** [interface ImprovementSuggestion] *)
Definition ImprovementSuggestion_shape : shape :=
  Object [req "category" Str; req "suggestion" Str;
          req "priority" (OneOf ["high"; "medium"; "low"])].

(** [interface DeterministicCheckResult] *)
Definition CheckResult_shape : shape :=
  Object [req "check_name" Str; req "passed" Bool; req "score" Num;
          req "max_score" Num; req "evidence" (ArrayOf EvidenceItem_shape);
          req "missing_items" (ArrayOf Str); opt "details" Str].

(** [interface GradingResult] *)
Definition GradingResult_shape : shape :=
  Object [req "total_score" Num;
          req "rubric_scores" (ArrayOf RubricScore_shape);
          req "missing_items" (ArrayOf Str);
          req "improvements" (ArrayOf ImprovementSuggestion_shape);
          req "deterministic_checks" (ArrayOf CheckResult_shape);
          req "on_time_submitted" Bool;
          opt "grading_notes" Str; opt "overall_evaluation" Str].

(** [interface StudentResult] *)
Definition StudentResult_shape : shape :=
  Object [req "student_name" Str; req "filename" Str; req "success" Bool;
          opt "result" GradingResult_shape; opt "error" Str].

(** [interface BulkAnalyzeResponse] *)
Definition BulkReport_shape : shape :=
  Object [req "total_files" Num; req "successful" Num; req "failed" Num;
          req "results" (ArrayOf StudentResult_shape)].

End Wire.

(* ===================================================================== *)
(** ** Labels and classes (lib/api.ts, the rest)                          *)
(* ===================================================================== *)

Module Labels.

Local Open Scope string_scope.

(** The property names an object literal inherits from
    [Object.prototype]; reading one of them from a table of strings gives a
    function (or, for [__proto__], the prototype object), never a string. *)
Definition object_prototype_keys : list string :=
  ["constructor"; "hasOwnProperty"; "isPrototypeOf"; "propertyIsEnumerable";
   "toLocaleString"; "toString"; "valueOf"; "__proto__";
   "__defineGetter__"; "__defineSetter__";
   "__lookupGetter__"; "__lookupSetter__"].

(** What [table[key]] reads from an object literal whose own properties
    are strings. *)
Inductive member :=
| Own (s : string)
| Inherited (key : string)
| Undefined.

Fixpoint own (table : list (string * string)) (key : string)
  : option string :=
  match table with
  | [] => None
  | (k, v) :: rest => if String.eqb k key then Some v else own rest key
  end.

Definition read (table : list (string * string)) (key : string) : member :=
  match own table key with
  | Some s => Own s
  | None =>
      if existsb (String.eqb key) object_prototype_keys then Inherited key
      else Undefined
  end.

(** What a function declared to return a string really returns. *)
Inductive label :=
| Text (s : string)
| NotText (key : string).

(** [member || fallback]: an empty own string and [undefined] are falsy,
    an inherited member is truthy. *)
Definition or_fallback (m : member) (fallback : string) : label :=
  match m with
  | Own s => if String.eqb s EmptyString then Text fallback else Text s
  | Inherited key => NotText key
  | Undefined => Text fallback
  end.

Definition names : list (string * string) :=
  [("page_numbers", "Sayfa Numaraları");
   ("ethics_principles", "Etik İlkeleri");
   ("template_fields", "Şablon Alanları")].

Definition formatCheckName (name : string) : label :=
  or_fallback (read names name) name.

Definition getPriorityColor (priority : string) : string :=
  if String.eqb priority "high" then "bg-red-100 text-red-800"
  else if String.eqb priority "medium" then "bg-yellow-100 text-yellow-800"
  else if String.eqb priority "low" then "bg-blue-100 text-blue-800"
  else "bg-gray-100 text-gray-800".

(** The priority label of an improvement (ResultsDisplay, in
    components/BulkResultsDisplay.tsx):
    [priority === 'high' ? 'Yuksek' : priority === 'medium' ? 'Orta' : 'Dusuk']. *)
Definition priority_label (priority : string) : string :=
  if String.eqb priority "high" then "Yuksek"
  else if String.eqb priority "medium" then "Orta"
  else "Dusuk".

(** How good a text colour class is, for comparing two of them. *)
Definition band (class : string) : nat :=
  if String.eqb class "text-green-600" then 3
  else if String.eqb class "text-yellow-600" then 2
  else if String.eqb class "text-orange-500" then 1
  else 0.

End Labels.

(* ===================================================================== *)
(** ** Score display (components/ScoreDisplay.tsx)                        *)
(* ===================================================================== *)

Module ScoreDisplay.

Local Open Scope string_scope.

(** [s.replace(pattern, replacement)] with a string pattern: the first
    occurrence only.  None of the replacements used has a [$] pattern. *)
Definition replace (s pattern replacement : string) : string :=
  match index 0 pattern s with
  | Some i =>
      substring 0 i s
      ++ replacement
      ++ substring (i + String.length pattern)
           (String.length s - (i + String.length pattern)) s
  | None => s
  end.

Local Open Scope Q_scope.

Definition percentage (score maxScore : Q) : Q := (score / maxScore) * 100.

(** The class of the progress bar fill of [ScoreDisplay]. *)
Definition bar_class (score maxScore : Q) : string :=
  let bgColorClass := Api.getScoreBgColor score maxScore in
  (String.append "progress-bar-fill "
     (replace (replace bgColorClass "bg-" "bg-") "-100" "-500"))%string.

(** [getStrokeColor] of [CircularScore]. *)
Definition getStrokeColor (score maxScore : Q) : string :=
  let percentage := (score / maxScore) * 100 in
  if Api.ge percentage 80 then "#22c55e"
  else if Api.ge percentage 60 then "#eab308"
  else if Api.ge percentage 40 then "#f97316"
  else "#ef4444".

Section Ring.

(** [Math.PI], as the number the host has for it. *)
Variable PI : Q.

Definition strokeWidth : Q := 8.

Definition radius (size : Q) : Q := (size - strokeWidth) / 2.

Definition circumference (size : Q) : Q := 2 * PI * radius size.

Definition offset (score maxScore size : Q) : Q :=
  let percentage := (score / maxScore) * 100 in
  circumference size - (percentage / 100) * circumference size.

End Ring.

End ScoreDisplay.

(* ===================================================================== *)
(** ** Upload component: what it shows (components/FileUpload.tsx)         *)
(* ===================================================================== *)

Module FileSize.

Local Open Scope string_scope.
Local Open Scope Z_scope.

(** Number::toString of a non-negative integer below 10^21: its decimal
    digits. *)
Definition integer_text (z : Z) : string :=
  NilZero.string_of_int (Z.to_int z).

(** [x.toFixed(1)] for [x = num / den], not negative: [tenths] is the
    integer nearest to [10 * x], the larger one of two equally near, and
    the text has its last digit behind the point.  The sizes are integers
    of bytes and the divisors powers of two, so the quotient the host
    computes is the exact one. *)
Definition tenths (num den : Z) : Z := (20 * num + den) / (2 * den).

Definition toFixed1 (num den : Z) : string :=
  let n := tenths num den in
  (integer_text (n / 10) ++ "." ++ integer_text (n mod 10))%string.

Definition formatFileSize (bytes : Z) : string :=
  if bytes <? 1024 then (integer_text bytes ++ " B")%string
  else if bytes <? 1024 * 1024 then (toFixed1 bytes 1024 ++ " KB")%string
  else (toFixed1 bytes (1024 * 1024) ++ " MB")%string.

(** [selectedFiles.reduce((acc, f) => acc + f.size, 0)]. *)
Definition total_size (selectedFiles : list FileUpload.File) : Z :=
  fold_left (fun acc f => acc + FileUpload.size f) selectedFiles 0.

(** [hasFiles]. *)
Definition hasFiles (multiple : bool) (selectedFile : option FileUpload.File)
    (selectedFiles : list FileUpload.File) : bool :=
  if multiple then (0 <? List.length selectedFiles)%nat
  else match selectedFile with Some _ => true | None => false end.

End FileSize.

(* ===================================================================== *)
(** ** Rubric section (components/RubricSection.tsx)                      *)
(* ===================================================================== *)

Module RubricSection.

Local Open Scope string_scope.

Definition translations : list (string * string) :=
  [("ozgulluk", "Ozgulluk");
   ("ozgulluk_detay", "Ozgulluk ve Detay");
   ("tutarlilik", "Tutarlilik");
   ("ic_tutarlilik", "Ic Tutarlilik");
   ("etik_baglantisi", "Etik Baglantisi");
   ("specificity", "Ozgulluk");
   ("coherence", "Tutarlilik");
   ("ethical_link", "Etik Baglantisi");
   ("ilke_tanimi_dogrulugu", "Ilke Tanimi Dogrulugu");
   ("ilke_sahne_uyumu", "Ilke-Sahne Uyumu");
   ("aciklama_kalitesi", "Aciklama Kalitesi");
   ("gerekli_alanlar", "Gerekli Alanlar");
   ("format_duzen", "Format ve Duzen");
   ("metin_kalitesi", "Metin Kalitesi");
   ("duzen_organizasyon", "Duzen ve Organizasyon")].

(** [key.replace(/_/g, ' ')]. *)
Fixpoint replace_underscores (key : string) : string :=
  match key with
  | EmptyString => EmptyString
  | String c rest =>
      String (if Ascii.eqb c "_" then " "%char else c)
        (replace_underscores rest)
  end.

Definition formatSubScoreKey (key : string) : Labels.label :=
  Labels.or_fallback (Labels.read translations key) (replace_underscores key).

Fixpoint has_underscore (s : string) : bool :=
  match s with
  | EmptyString => false
  | String c rest => Ascii.eqb c "_" || has_underscore rest
  end.

(** The class of the progress bar fill of the section header. *)
Definition bar_class (r : RubricScore) : string :=
  let bgColorClass := Api.getScoreBgColor (score r) (max_score r) in
  String.append "progress-bar-fill "
    (ScoreDisplay.replace bgColorClass "-100" "-500").

(** The blocks of the expanded section, in the order they are laid
    out. *)
Inductive block :=
| SubScores (entries : list (string * Q))
| Principles (l : list DetectedEthicsPrinciple)
| Consistency (text : string)
| Fields (found missing : list string)
| LanguageErrors (l : list string)
| Evidence (l : list EvidenceItem)
| NoDetail.

(** [list && list.length > 0]. *)
Definition non_empty {A : Type} (o : option (list A)) : list A :=
  match o with
  | Some l => l
  | None => []
  end.

Definition present {A : Type} (o : option A) : bool :=
  match o with
  | Some _ => true
  | None => false
  end.

(** A string used as a condition: absent and empty are falsy. *)
Definition truthy_text (o : option string) : bool :=
  match o with
  | Some s => negb (String.eqb s EmptyString)
  | None => false
  end.

Definition expanded (r : RubricScore) : list block :=
  (match sub_scores r with
   | Some entries => [SubScores entries]
   | None => []
   end)
  ++ (match non_empty (detected_principles r) with
      | [] => []
      | l => [Principles l]
      end)
  ++ (match consistency_analysis r with
      | Some text => if truthy_text (Some text) then [Consistency text] else []
      | None => []
      end)
  ++ (if present (found_fields r) || present (missing_fields r)
      then [Fields (non_empty (found_fields r)) (non_empty (missing_fields r))]
      else [])
  ++ (match non_empty (language_errors r) with
      | [] => []
      | l => [LanguageErrors l]
      end)
  ++ (match evidence r with
      | [] => []
      | l => [Evidence l]
      end)
  ++ (if (match evidence r with [] => true | _ => false end)
         && negb (present (detected_principles r))
         && negb (truthy_text (consistency_analysis r))
      then [NoDetail]
      else []).

(** A block that puts something on the screen: the grid of the fields is
    there but empty when both lists are. *)
Definition visible (b : block) : bool :=
  match b with
  | Fields [] [] => false
  | _ => true
  end.

End RubricSection.

(* ===================================================================== *)
(** ** The page (app/page.tsx)                                            *)
(* ===================================================================== *)

Module Page.

Local Open Scope string_scope.

Inductive UploadStatus := idle | uploading | analyzing | complete | error.

Inductive UploadMode := single | bulk.

(** The state of [Home].  [error], [result] and [bulkResult] hold what was
    stored at run time, a JavaScript value; [None] is [null]. *)
Record State := {
  mode : UploadMode;
  status : UploadStatus;
  selectedFile : option FileUpload.File;
  onTime : bool;
  error_message : value;
  result : value;
  selectedFiles : list FileUpload.File;
  bulkResult : value;
  isExporting : bool
}.

Definition initial : State :=
  {| mode := single; status := idle; selectedFile := None; onTime := false;
     error_message := None; result := None; selectedFiles := [];
     bulkResult := None; isExporting := false |}.

Definition is_idle (s : UploadStatus) : bool :=
  match s with idle => true | _ => false end.

Definition is_complete (s : UploadStatus) : bool :=
  match s with complete => true | _ => false end.

Definition is_single (m : UploadMode) : bool :=
  match m with single => true | bulk => false end.

Definition handleFileSelect (st : State) (file : FileUpload.File) : State :=
  {| mode := mode st; status := idle; selectedFile := Some file;
     onTime := onTime st; error_message := None; result := None;
     selectedFiles := selectedFiles st; bulkResult := bulkResult st;
     isExporting := isExporting st |}.

Definition handleFilesSelect (st : State) (files : list FileUpload.File)
  : State :=
  {| mode := mode st; status := idle; selectedFile := selectedFile st;
     onTime := onTime st; error_message := None; result := result st;
     selectedFiles := files; bulkResult := None;
     isExporting := isExporting st |}.

Definition handleReset (st : State) : State :=
  {| mode := mode st; status := idle; selectedFile := None; onTime := false;
     error_message := None; result := None; selectedFiles := [];
     bulkResult := None; isExporting := isExporting st |}.

(** The two mode buttons: [setMode(m); handleReset()]. *)
Definition switchMode (st : State) (m : UploadMode) : State :=
  {| mode := m; status := idle; selectedFile := None; onTime := false;
     error_message := None; result := None; selectedFiles := [];
     bulkResult := None; isExporting := isExporting st |}.

(** The on-time switch and the "Kapat" button of the error card. *)
Definition toggleOnTime (st : State) : State :=
  {| mode := mode st; status := status st; selectedFile := selectedFile st;
     onTime := negb (onTime st); error_message := error_message st;
     result := result st; selectedFiles := selectedFiles st;
     bulkResult := bulkResult st; isExporting := isExporting st |}.

Definition dismissError (st : State) : State :=
  {| mode := mode st; status := status st; selectedFile := selectedFile st;
     onTime := onTime st; error_message := None;
     result := result st; selectedFiles := selectedFiles st;
     bulkResult := bulkResult st; isExporting := isExporting st |}.

(** The state once a handler has set [error] and the status 'error'. *)
Definition failed (st : State) (message : json) : State :=
  {| mode := mode st; status := error; selectedFile := selectedFile st;
     onTime := onTime st; error_message := Some message;
     result := result st; selectedFiles := selectedFiles st;
     bulkResult := bulkResult st; isExporting := isExporting st |}.

Definition unexpected : json :=
  JStr "Beklenmeyen bir hata olustu. Lutfen tekrar deneyin.".

Section Handlers.

(** Number::toString on an HTTP status. *)
Variable StatusToString : Z -> string.

(** The [catch] block of the two analysis handlers. *)
Definition caught {A : Type} (st : State) (outcome : Api.settled A) : State :=
  match outcome with
  | Api.RejectedAPIError err =>
      failed st
        (JStr ("Hata (" ++ StatusToString (Api.api_status err) ++ "): "
               ++ Api.message err))
  | _ => failed st unexpected
  end.

(** [handleAnalyze], from the click to the last state it sets; [outcome]
    is how [analyzePresentation] settles. *)
Definition handleAnalyze (st : State) (outcome : Api.settled json) : State :=
  match selectedFile st with
  | None => st
  | Some _ =>
      match outcome with
      | Api.Resolved response =>
          match get response "success" with
          | TypeError => failed st unexpected
          | Normal success =>
              let stored :=
                if truthy success then
                  match get response "result" with
                  | Normal res => if truthy res then res else None
                  | TypeError => None
                  end
                else None in
              match stored with
              | Some res =>
                  {| mode := mode st; status := complete;
                     selectedFile := selectedFile st; onTime := onTime st;
                     error_message := None; result := Some res;
                     selectedFiles := selectedFiles st;
                     bulkResult := bulkResult st;
                     isExporting := isExporting st |}
              | None =>
                  match get response "error" with
                  | Normal e =>
                      failed st (or_else e "Analiz basarisiz oldu")
                  | TypeError => failed st unexpected
                  end
              end
          end
      | _ => caught st outcome
      end
  end.

Definition handleBulkAnalyze (st : State) (outcome : Api.settled json)
  : State :=
  match selectedFiles st with
  | [] => st
  | _ :: _ =>
      match outcome with
      | Api.Resolved response =>
          {| mode := mode st; status := complete;
             selectedFile := selectedFile st; onTime := onTime st;
             error_message := None; result := result st;
             selectedFiles := selectedFiles st;
             bulkResult := Some response;
             isExporting := isExporting st |}
      | _ => caught st outcome
      end
  end.

End Handlers.

(** A file handed to [downloadBlob]. *)
Record download := { payload : string; download_name : string }.

Definition with_error (st : State) (e : value) (exporting : bool) : State :=
  {| mode := mode st; status := status st; selectedFile := selectedFile st;
     onTime := onTime st; error_message := e;
     result := result st; selectedFiles := selectedFiles st;
     bulkResult := bulkResult st; isExporting := exporting |}.

(** [handleExportExcel], from the click to the [finally] block. *)
Definition handleExportExcel (st : State) (outcome : Api.settled string)
  : State * option download :=
  match selectedFiles st with
  | [] => (st, None)
  | _ :: _ =>
      match outcome with
      | Api.Resolved blob =>
          (with_error st (error_message st) false,
           Some {| payload := blob; download_name := "ogrenci_puanlari.xlsx" |})
      | Api.RejectedAPIError err =>
          (with_error st
             (Some (JStr ("Excel olusturma hatasi: " ++ Api.message err)))
             false, None)
      | _ =>
          (with_error st
             (Some (JStr "Excel olusturulurken bir hata olustu.")) false,
           None)
      end
  end.

(** What [Home] returns. *)
Inductive view :=
| ResultsDisplay (result : json)
| BulkResultsDisplay (result : json) (isExporting : bool)
| ProgressIndicator (status : UploadStatus)
| UploadForm.

Definition render (st : State) : view :=
  match mode st, status st, result st, bulkResult st with
  | single, complete, Some r, _ =>
      if truthy (Some r) then ResultsDisplay r else UploadForm
  | bulk, complete, _, Some b =>
      if truthy (Some b) then BulkResultsDisplay b (isExporting st)
      else UploadForm
  | _, uploading, _, _ => ProgressIndicator uploading
  | _, analyzing, _, _ => ProgressIndicator analyzing
  | _, _, _, _ => UploadForm
  end.

(** On the upload form: the [disabled] prop of the upload zone, whether
    the error card is there, and whether the analyse button is disabled. *)
Definition upload_disabled (st : State) : bool := negb (is_idle (status st)).

Definition error_card (st : State) : bool := truthy (error_message st).

Definition analyze_disabled (st : State) : bool :=
  match mode st with
  | single => match selectedFile st with Some _ => false | None => true end
  | bulk => match selectedFiles st with [] => true | _ => false end
  end.

(** A drop on the upload zone of the form, through the props [Home]
    gives it in either mode. *)
Definition drop (st : State) (files : list FileUpload.File) : State :=
  match mode st with
  | single =>
      match FileUpload.handleDrop (upload_disabled st) false false files with
      | FileUpload.onFileSelect file => handleFileSelect st file
      | _ => st
      end
  | bulk =>
      match FileUpload.handleDrop (upload_disabled st) true true files with
      | FileUpload.onFilesSelect valid => handleFilesSelect st valid
      | _ => st
      end
  end.

(** A selection in the file dialog of the form; the dialog cannot be
    opened, and the input element is disabled, while the zone is. *)
Definition choose (st : State) (files : list FileUpload.File) : State :=
  if upload_disabled st then st
  else
    match mode st with
    | single =>
        match FileUpload.handleFileChange false false (Some files) with
        | FileUpload.onFileSelect file => handleFileSelect st file
        | _ => st
        end
    | bulk =>
        match FileUpload.handleFileChange true true (Some files) with
        | FileUpload.onFilesSelect valid => handleFilesSelect st valid
        | _ => st
        end
    end.

(** What can happen to the page: the user's actions, and for the three
    calls of the back end the way the call settles. *)
Inductive event :=
| Drop (files : list FileUpload.File)
| Choose (files : list FileUpload.File)
| SwitchMode (m : UploadMode)
| ToggleOnTime
| DismissError
| Analyze (outcome : Api.settled json)
| BulkAnalyze (outcome : Api.settled json)
| ExportExcel (outcome : Api.settled string)
| Reset.

Section Events.

Variable StatusToString : Z -> string.

Definition step (st : State) (ev : event) : State :=
  match ev with
  | Drop files => drop st files
  | Choose files => choose st files
  | SwitchMode m => switchMode st m
  | ToggleOnTime => toggleOnTime st
  | DismissError => dismissError st
  | Analyze outcome => handleAnalyze StatusToString st outcome
  | BulkAnalyze outcome => handleBulkAnalyze StatusToString st outcome
  | ExportExcel outcome => fst (handleExportExcel st outcome)
  | Reset => handleReset st
  end.

Definition run (events : list event) : State := fold_left step events initial.

End Events.

(** Every file the page holds for submission has a ".pptx" name. *)
Definition only_pptx (st : State) : Prop :=
  (forall f, selectedFile st = Some f ->
     FileUpload.ends_with_pptx_ci (FileUpload.name f)) /\
  Forall (fun f => FileUpload.ends_with_pptx_ci (FileUpload.name f))
    (selectedFiles st).

End Page.

(* ===================================================================== *)
(** ** Sample data                                                        *)
(* ===================================================================== *)

Module Samples.

Local Open Scope string_scope.
Local Open Scope Q_scope.

Definition graded (total : Q) : GradingResult :=
  {| total_score := total;
     rubric_scores := [];
     missing_items := [];
     improvements := [];
     deterministic_checks := [];
     on_time_submitted := false;
     grading_notes := None;
     overall_evaluation := None |}.

Definition ayse : StudentResult :=
  {| student_name := "ayse yilmaz"; filename := "ayse_yilmaz.pptx";
     success := true; result := Some (graded 60); error := None |}.

Definition mehmet : StudentResult :=
  {| student_name := "mehmet kaya"; filename := "mehmet_kaya.pptx";
     success := true; result := Some (graded 80); error := None |}.

Definition broken : StudentResult :=
  {| student_name := "submission1"; filename := "submission1.pptx";
     success := false; result := None;
     error := Some "presentation could not be read" |}.

Definition report : BulkAnalyzeResponse :=
  {| total_files := 3; successful := 2; failed := 1;
     results := [broken; ayse; mehmet] |}.

Definition unreadable : StudentResult :=
  {| student_name := "submission2"; filename := "submission2.pptx";
     success := false; result := None;
     error := Some "presentation has no slides" |}.

Definition mixed_report : BulkAnalyzeResponse :=
  {| total_files := 4; successful := 2; failed := 2;
     results := [broken; ayse; unreadable; mehmet] |}.

Definition rubric (c : Pipeline.Category) (points : Q) : RubricScore :=
  {| category := Pipeline.category_name c;
     score := points;
     max_score := Pipeline.category_max c;
     reason := "sample";
     evidence := [];
     sub_scores := None;
     detected_principles := None;
     consistency_analysis := None;
     found_fields := None;
     missing_fields := None;
     language_errors := None |}.

(** Evaluator stubs: one answers twice the maximum, one answers -5. *)
Definition twice_max (_ : unit) (c : Pipeline.Category) (_ : unit)
    (_ : nat) : Pipeline.EvaluatorError + Pipeline.RawEvaluation :=
  inr {| Pipeline.raw_score := Pipeline.category_max c * 2;
         Pipeline.raw_reason := "stub";
         Pipeline.raw_evidence := [] |}.

Definition minus_five (_ : unit) (c : Pipeline.Category) (_ : unit)
    (_ : nat) : Pipeline.EvaluatorError + Pipeline.RawEvaluation :=
  inr {| Pipeline.raw_score := -5;
         Pipeline.raw_reason := "stub";
         Pipeline.raw_evidence := [] |}.

(** A bulk run of three files, the second one corrupted. *)
Definition files : list (string * bool) :=
  [("ayse_yilmaz.pptx", true); ("bozuk.pptx", false);
   ("mehmet_kaya.pptx", true)].

Definition grade_stub (readable : bool) (onTime : bool)
  : string + GradingResult :=
  if readable then inr (graded (if onTime then 70 else 60))
  else inl "presentation could not be read".

Definition no_improvements (_ : list DeterministicCheckResult)
    (_ : list RubricScore) : list ImprovementSuggestion := [].

(** A sample weighting: page numbers and required fields count for the
    template, the named principles for the ethics category. *)
Definition check_category (name : string) : option string :=
  if String.eqb name "page_numbers" then Some "Template Compliance"
  else if String.eqb name "template_fields" then Some "Template Compliance"
  else if String.eqb name "ethics_principles" then Some "Ethics Principles"
  else None.

Definition check (name : string) (points limit : Q)
  : DeterministicCheckResult :=
  {| check_name := name;
     passed := Qle_bool limit points;
     check_score := points;
     check_max_score := limit;
     check_evidence := [];
     check_missing_items := [];
     details := None |}.

Definition checks : list DeterministicCheckResult :=
  [check "page_numbers" 2 5; check "template_fields" 3 5;
   check "ethics_principles" 5 5].

(** Rubric scores as the evaluator gave them, before the checks are
    counted in. *)
Definition evaluated : list RubricScore :=
  [rubric Pipeline.EthicsPrinciples 9;
   rubric Pipeline.SceneExplanation 40;
   rubric Pipeline.TemplateCompliance 8;
   rubric Pipeline.VisualDesign (15 # 2)].

End Samples.

(* ===================================================================== *)
(** ** Sample data for the page and the display                           *)
(* ===================================================================== *)

Module MoreSamples.

Local Open Scope string_scope.
Local Open Scope Q_scope.

Definition odev : FileUpload.File :=
  {| FileUpload.name := "ayse_yilmaz.pptx"; FileUpload.size := 2048 |}.

Definition notes : FileUpload.File :=
  {| FileUpload.name := "notlar.txt"; FileUpload.size := 10 |}.

(** The page with a file selected, in single mode. *)
Definition ready : Page.State :=
  Page.handleFileSelect Page.initial odev.

(** The page with files selected, in bulk mode. *)
Definition ready_bulk : Page.State :=
  Page.handleFilesSelect (Page.switchMode Page.initial Page.bulk) [odev].

(** An answer of the back end to a single analysis. *)
Definition answer : json :=
  JObj [("success", JBool true);
        ("result", JObj [("total_score", JNum 75)])].

(** The page after a failed analysis. *)
Definition after_failure : Page.State :=
  Page.failed ready Page.unexpected.

(** The bulk results view after a successful bulk analysis. *)
Definition bulk_shown : Page.State :=
  Page.handleBulkAnalyze (fun _ => EmptyString) ready_bulk
    (Api.Resolved (JObj [("total_files", JNum 1)])).

End MoreSamples.

(* ===================================================================== *)
(** ** Theorems                                                           *)
(* ===================================================================== *)

Section ScoreColours.

Import Api.
Local Open Scope Q_scope.
Local Open Scope string_scope.

Lemma ge_spec (a b : Q) : ge a b = true <-> b <= a.
Proof. unfold ge. apply Qle_bool_iff. Qed.

Lemma ge_false (a b : Q) : ge a b = false <-> a < b.
Proof.
  unfold ge. split; intro H.
  - apply Qnot_le_lt. intro Hle. apply Qle_bool_iff in Hle. congruence.
  - destruct (Qle_bool b a) eqn:E; [|reflexivity].
    apply Qle_bool_iff in E. exfalso. apply (Qlt_not_le _ _ H E).
Qed.

(** For a positive [maxScore] the percentage clears a threshold [t]
    exactly when [t * maxScore <= 100 * score]. *)
Lemma percentage_threshold (score maxScore t : Q) :
  0 < maxScore ->
  (t <= (score / maxScore) * 100 <-> t * maxScore <= 100 * score).
Proof.
  intros Hpos.
  assert (Hne : ~ maxScore == 0) by (intro E; rewrite E in Hpos; discriminate).
  split; intro H.
  - apply (Qmult_le_compat_r _ _ maxScore) in H; [|apply Qlt_le_weak; exact Hpos].
    assert (E : score / maxScore * 100 * maxScore == 100 * score) by (field; exact Hne).
    rewrite E in H. exact H.
  - apply (Qmult_le_r _ _ maxScore Hpos).
    assert (E : score / maxScore * 100 * maxScore == 100 * score) by (field; exact Hne).
    rewrite E. exact H.
Qed.

Lemma percentage_below (score maxScore t : Q) :
  0 < maxScore ->
  ((score / maxScore) * 100 < t <-> 100 * score < t * maxScore).
Proof.
  intros Hpos. pose proof (percentage_threshold score t Hpos) as T.
  split; intro H.
  - apply Qnot_le_lt. intro Hle. apply T in Hle.
    exact (Qlt_not_le _ _ H Hle).
  - apply Qnot_le_lt. intro Hle. apply T in Hle.
    exact (Qlt_not_le _ _ H Hle).
Qed.

(** C10. For every score and positive maxScore, [getScoreColor] and
    [getScoreBgColor] classify by the same percentage thresholds
    80, 60 and 40: the green, yellow, orange and red text classes are
    returned exactly when the matching background class is, and each band
    is the one delimited by those thresholds. *)
Theorem score_colors_agree (score maxScore : Q) (Hpos : 0 < maxScore) :
  (getScoreColor score maxScore = "text-green-600"
     <-> getScoreBgColor score maxScore = "bg-green-100") /\
  (getScoreColor score maxScore = "text-yellow-600"
     <-> getScoreBgColor score maxScore = "bg-yellow-100") /\
  (getScoreColor score maxScore = "text-orange-500"
     <-> getScoreBgColor score maxScore = "bg-orange-100") /\
  (getScoreColor score maxScore = "text-red-600"
     <-> getScoreBgColor score maxScore = "bg-red-100") /\
  (getScoreColor score maxScore = "text-green-600"
     <-> 80 * maxScore <= 100 * score) /\
  (getScoreColor score maxScore = "text-yellow-600"
     <-> 60 * maxScore <= 100 * score /\ 100 * score < 80 * maxScore) /\
  (getScoreColor score maxScore = "text-orange-500"
     <-> 40 * maxScore <= 100 * score /\ 100 * score < 60 * maxScore) /\
  (getScoreColor score maxScore = "text-red-600"
     <-> 100 * score < 40 * maxScore).
Proof.
  unfold getScoreColor, getScoreBgColor. cbv zeta.
  destruct (ge (score / maxScore * 100) 80) eqn:E80;
    [apply ge_spec, percentage_threshold in E80; [|exact Hpos]
    |apply ge_false, percentage_below in E80; [|exact Hpos];
     destruct (ge (score / maxScore * 100) 60) eqn:E60;
       [apply ge_spec, percentage_threshold in E60; [|exact Hpos]
       |apply ge_false, percentage_below in E60; [|exact Hpos];
        destruct (ge (score / maxScore * 100) 40) eqn:E40;
          [apply ge_spec, percentage_threshold in E40; [|exact Hpos]
          |apply ge_false, percentage_below in E40; [|exact Hpos]]]].
  all: repeat split; intros; try discriminate; try reflexivity;
    try tauto; try lra.
Qed.

End ScoreColours.

(* --------------------------------------------------------------------- *)
(** *** Upload component                                                  *)
(* --------------------------------------------------------------------- *)

Section UploadValidation.

Import FileUpload.
Local Open Scope string_scope.

Lemma length_app_string (a b : string) :
  String.length (a ++ b) = (String.length a + String.length b)%nat.
Proof. induction a as [|c a IH]; simpl; [reflexivity | now rewrite IH]. Qed.

Lemma substring_whole (b : string) : substring 0 (String.length b) b = b.
Proof. induction b as [|c b IH]; simpl; [reflexivity | now rewrite IH]. Qed.

Lemma substring_skip (a b : string) (m : nat) :
  substring (String.length a) m (a ++ b) = substring 0 m b.
Proof. induction a as [|c a IH]; simpl; [reflexivity | exact IH]. Qed.

Lemma split_string (n : nat) :
  forall s, (n <= String.length s)%nat ->
  exists a b, s = a ++ b /\ String.length a = n.
Proof.
  induction n as [|n IH]; intros s Hn.
  - exists EmptyString, s. split; reflexivity.
  - destruct s as [|c s]; simpl in Hn; [lia|].
    destruct (IH s) as (a & b & -> & Ha); [lia|].
    exists (String c a), b. split; simpl; [reflexivity | now rewrite Ha].
Qed.

Lemma endsWith_iff (s suffix : string) :
  endsWith s suffix = true <-> exists stem, s = stem ++ suffix.
Proof.
  unfold endsWith. split.
  - destruct (Nat.ltb_spec (String.length s) (String.length suffix)) as [Hlt|Hge];
      [discriminate|].
    intro H. apply String.eqb_eq in H.
    destruct (@split_string (String.length s - String.length suffix) s)
      as (a & b & Hs & Ha); [lia|].
    exists a. rewrite Hs at 1. f_equal.
    assert (Hb : String.length b = String.length suffix).
    { pose proof (length_app_string a b) as L. rewrite <- Hs in L. lia. }
    rewrite <- Ha, Hs, substring_skip, <- Hb, substring_whole in H.
    exact H.
  - intros [stem ->]. rewrite length_app_string.
    destruct (Nat.ltb_spec (String.length stem + String.length suffix)
                (String.length suffix)) as [Hlt|Hge]; [lia|].
    replace (String.length stem + String.length suffix - String.length suffix)%nat
      with (String.length stem) by lia.
    rewrite substring_skip, substring_whole. apply String.eqb_refl.
Qed.

Lemma toLowerCase_app (a b : string) :
  toLowerCase (a ++ b) = toLowerCase a ++ toLowerCase b.
Proof. induction a as [|c a IH]; simpl; [reflexivity | now rewrite IH]. Qed.

Lemma length_toLowerCase (s : string) :
  String.length (toLowerCase s) = String.length s.
Proof. induction s as [|c s IH]; simpl; [reflexivity | now rewrite IH]. Qed.

Lemma app_string_inj (a a' b b' : string) :
  String.length a = String.length a' -> a ++ b = a' ++ b' -> a = a' /\ b = b'.
Proof.
  revert a'. induction a as [|c a IH]; intros [|c' a'] Hl H; simpl in *;
    try discriminate.
  - split; [reflexivity | exact H].
  - injection H as -> H. injection Hl as Hl.
    destruct (IH a' Hl H) as [-> ->]. split; reflexivity.
Qed.

Ltac by_cases_on_char c :=
  destruct c as [[] [] [] [] [] [] [] []]; vm_compute;
  let H := fresh "H" in intro H; try discriminate H; auto.

Lemma lower_dot (c : ascii) : lower_ascii c = "."%char -> c = "."%char.
Proof. by_cases_on_char c. Qed.

Lemma lower_p (c : ascii) : lower_ascii c = "p"%char -> is_letter "p" "P" c.
Proof. by_cases_on_char c. Qed.

Lemma lower_t (c : ascii) : lower_ascii c = "t"%char -> is_letter "t" "T" c.
Proof. by_cases_on_char c. Qed.

Lemma lower_x (c : ascii) : lower_ascii c = "x"%char -> is_letter "x" "X" c.
Proof. by_cases_on_char c. Qed.

Lemma is_pptx_iff (file : File) :
  is_pptx file = true <-> ends_with_pptx_ci (name file).
Proof.
  unfold is_pptx, ends_with_pptx_ci. rewrite endsWith_iff. split.
  - intros [stem' H].
    assert (Hlen : (5 <= String.length (name file))%nat).
    { rewrite <- length_toLowerCase, H, length_app_string. simpl. lia. }
    destruct (@split_string (String.length (name file) - 5) (name file))
      as (a & b & Hs & Ha); [lia|].
    assert (Hb : String.length b = 5%nat).
    { pose proof (length_app_string a b) as L. rewrite <- Hs in L. lia. }
    rewrite Hs, toLowerCase_app in H.
    apply app_string_inj in H.
    2:{ rewrite length_toLowerCase.
        assert (L : String.length (toLowerCase (name file)) =
                    String.length (stem' ++ ".pptx")).
        { rewrite Hs, toLowerCase_app. congruence. }
        rewrite length_toLowerCase, length_app_string in L. simpl in L. lia. }
    destruct H as [_ H].
    destruct b as [|c0 [|c1 [|c2 [|c3 [|c4 [|c5 b]]]]]]; simpl in Hb;
      try discriminate Hb.
    simpl in H. injection H as H0 H1 H2 H3 H4.
    apply lower_dot in H0. subst c0.
    exists a, c1, c2, c3, c4. split; [exact Hs|].
    repeat split; auto using lower_p, lower_t, lower_x.
  - intros (stem & c1 & c2 & c3 & c4 & -> & H1 & H2 & H3 & H4).
    exists (toLowerCase stem). rewrite toLowerCase_app. f_equal.
    destruct H1 as [-> | ->], H2 as [-> | ->], H3 as [-> | ->],
      H4 as [-> | ->]; reflexivity.
Qed.

Lemma validateFiles_loop_filter (files validFiles : list File) :
  validateFiles_loop files validFiles
  = (validFiles ++ filter is_pptx files)%list.
Proof.
  revert validFiles. induction files as [|file rest IH]; intro validFiles;
    simpl.
  - now rewrite app_nil_r.
  - unfold is_pptx at 1.
    destruct (endsWith (toLowerCase (name file)) ".pptx").
    + rewrite IH, <- app_assoc. reflexivity.
    + apply IH.
Qed.

Lemma validateFiles_filter (files : list File) :
  validateFiles files = filter is_pptx files.
Proof. unfold validateFiles. now rewrite validateFiles_loop_filter. Qed.

Lemma single_selection (file : File) (rest : list File) (f' : File) :
  (if endsWith (toLowerCase (name file)) ".pptx" then onFileSelect file
   else alert only_pptx_msg) = onFileSelect f' ->
  f' = file /\ ends_with_pptx_ci (name file).
Proof.
  destruct (endsWith (toLowerCase (name file)) ".pptx") eqn:E;
    [|discriminate].
  intro H. injection H as <-. split; [reflexivity|].
  apply is_pptx_iff. exact E.
Qed.

(** C6, the claim as stated fails: a presentation of 20MB is accepted by
    the validation of a file list and is handed on by a single-file
    drop; the component never looks at [size]. *)
Lemma oversized_pptx_accepted :
  let big := {| name := "odev.PPTX"; size := 20 * 1024 * 1024 |} in
  (max_upload_bytes < size big)%Z /\
  In big (validateFiles [big]) /\
  handleDrop false false false [big] = onFileSelect big.
Proof.
  cbv zeta. split; [reflexivity|]. split; [|reflexivity].
  left. reflexivity.
Qed.

(** C6 (amended). The upload component filters by file name only: for
    every file list, [validateFiles] keeps, in order, exactly the files
    whose name ends with ".pptx" up to letter case, whatever their size;
    and a single-file drop or selection hands a file on only if it is the
    first one and its name ends with ".pptx", and does hand it on when it
    does (and the component is not disabled). *)
Theorem upload_accepts_by_extension (files : list File) :
  validateFiles files = filter is_pptx files /\
  (forall f, In f (validateFiles files)
             <-> In f files /\ ends_with_pptx_ci (name f)) /\
  (forall f sz, In f files ->
     (In f (validateFiles files)
      <-> In {| name := name f; size := sz |}
            (validateFiles [{| name := name f; size := sz |}]))) /\
  (forall disabled multiple has file rest f',
     multiple && has = false ->
     handleDrop disabled multiple has (file :: rest) = onFileSelect f' ->
     f' = file /\ ends_with_pptx_ci (name file)) /\
  (forall multiple has file rest f',
     multiple && has = false ->
     handleFileChange multiple has (Some (file :: rest)) = onFileSelect f' ->
     f' = file /\ ends_with_pptx_ci (name file)) /\
  (forall multiple has file rest,
     multiple && has = false ->
     ends_with_pptx_ci (name file) ->
     handleDrop false multiple has (file :: rest) = onFileSelect file /\
     handleFileChange multiple has (Some (file :: rest)) = onFileSelect file).
Proof.
  assert (Hin : forall l f, In f (validateFiles l)
                            <-> In f l /\ ends_with_pptx_ci (name f)).
  { intros l f. rewrite validateFiles_filter, filter_In, is_pptx_iff.
    reflexivity. }
  split; [apply validateFiles_filter|].
  split; [apply Hin|].
  split.
  { intros f sz Hf. rewrite !Hin. simpl. tauto. }
  split.
  { intros disabled multiple has file rest f' Hm.
    unfold handleDrop. rewrite Hm.
    destruct disabled; [discriminate|]. apply single_selection; exact rest. }
  split.
  { intros multiple has file rest f' Hm.
    unfold handleFileChange. rewrite Hm.
    apply single_selection; exact rest. }
  intros multiple has file rest Hm Hext.
  apply is_pptx_iff in Hext. unfold is_pptx in Hext.
  unfold handleDrop, handleFileChange. rewrite Hm, Hext.
  split; reflexivity.
Qed.

End UploadValidation.

(* --------------------------------------------------------------------- *)
(** *** API client                                                        *)
(* --------------------------------------------------------------------- *)

Section ApiClient.

Import Api.
Local Open Scope string_scope.

Variable NumberToString : Q -> string.
Variable JSON_stringify : json -> string.

Lemma or_else_message (default : string) (detail : value) :
  text_or_falsy detail ->
  ToString NumberToString (or_else detail default)
  = Normal (message_for default detail).
Proof.
  intros [Hfalsy | [s ->]].
  - unfold or_else. rewrite Hfalsy.
    destruct detail as [[| |q|s|l|f]|]; try reflexivity.
    simpl in Hfalsy. unfold message_for.
    destruct (String.eqb s EmptyString); [reflexivity | discriminate].
  - unfold or_else, message_for. simpl.
    destruct (String.eqb s EmptyString); reflexivity.
Qed.

Lemma get_not_null (o : json) (key : string) :
  o <> JNull -> exists v, get o key = Normal v.
Proof.
  intro H. destruct o; simpl; eauto. congruence.
Qed.

Lemma json_or_empty_not_null (response : Response) :
  body response <> Some JNull -> json_or_empty response <> JNull.
Proof.
  unfold json_or_empty. destruct (body response) as [v|]; congruence.
Qed.

(** A call that rejects with an [APIError] gives it the status of the
    response, whatever the body. *)
Lemma rejected_status (response : Response) (e : APIError) :
  analyzePresentation NumberToString JSON_stringify response = RejectedAPIError e
  \/ analyzeBulk NumberToString JSON_stringify response = RejectedAPIError e
  \/ exportExcel NumberToString JSON_stringify response = RejectedAPIError e ->
  ok response = false /\ api_status e = status response.
Proof.
  unfold analyzePresentation, analyzeBulk, exportExcel, response_json.
  destruct (ok response); simpl.
  - intros [H | [H | H]]; [destruct (body response) .. | ]; discriminate.
  - destruct (get (json_or_empty response) "detail") as [detail|];
      [| intros [H | [H | H]]; discriminate ].
    intros [H | [H | H]];
      match type of H with
      | context [ToString ?N ?v] => destruct (ToString N v)
      end; inversion H; subst; split; reflexivity.
Qed.

(** C8, the claim as stated fails: the server did supply [detail], as the
    empty string, and the message is nevertheless the call's default. *)
Lemma api_error_claim_fails :
  let response :=
    {| ok := false; status := 400;
       body := Some (JObj [("detail", JStr EmptyString)]);
       blob := EmptyString |} in
  get (json_or_empty response) "detail" = Normal (Some (JStr EmptyString)) /\
  exists e,
    analyzePresentation (fun _ : Q => EmptyString) (fun _ : json => EmptyString)
      response
    = RejectedAPIError e
    /\ message e = "Analysis failed" /\ message e <> EmptyString.
Proof.
  cbv zeta. split; [reflexivity|].
  eexists. split; [reflexivity|]. split; [reflexivity | discriminate].
Qed.

(** Outside the amended claim: a body that is the JSON value [null] makes
    the read of [detail] throw, and the call rejects with a TypeError. *)
Example null_body_rejects_with_TypeError :
  exportExcel (fun _ : Q => EmptyString) (fun _ : json => EmptyString)
    {| ok := false; status := 502; body := Some JNull; blob := EmptyString |}
  = RejectedTypeError.
Proof. reflexivity. Qed.

(** Outside the amended claim: a [detail] that is not a text.  A list of
    validation errors becomes the message [[object Object]]; an object with
    a key [toString] of its own cannot be converted, and the call rejects
    with a TypeError thrown by the constructor of the error. *)
Example detail_that_is_no_text :
  (exists e,
     analyzeBulk (fun _ : Q => EmptyString) (fun _ : json => EmptyString)
       {| ok := false; status := 422;
          body := Some (JObj [("detail",
                               JArr [JObj [("msg", JStr "field required")]])]);
          blob := EmptyString |}
     = RejectedAPIError e
     /\ message e = "[object Object]") /\
  analyzePresentation (fun _ : Q => EmptyString) (fun _ : json => EmptyString)
    {| ok := false; status := 500;
       body := Some (JObj [("detail", JObj [("toString", JNum 1)])]);
       blob := EmptyString |}
  = RejectedTypeError /\
  analyzePresentation (fun _ : Q => EmptyString) (fun _ : json => EmptyString)
    {| ok := false; status := 500;
       body := Some (JObj [("detail",
                            JArr [JStr "a"; JObj [("toString", JNull)]])]);
       blob := EmptyString |}
  = RejectedTypeError.
Proof.
  split; [|split; reflexivity].
  eexists. split; reflexivity.
Qed.

(** C8 (amended). For every response with a non-ok status whose body is
    not the JSON value null and whose [detail] is a string or counts as
    none (absent, as in a body that is no JSON or no object with that
    field, or null, false, 0 or the empty string), each call of the client
    rejects with an [APIError] whose status is the response's HTTP status
    and whose message is the server's [detail] when that is a non-empty
    string and the call's fixed default otherwise.  Whenever a call rejects
    with an [APIError] at all, its status is the response's.  And a call
    resolves only when the response is ok. *)
Theorem api_error_on_failure (response : Response) :
  (ok response = false -> body response <> Some JNull ->
   exists detail,
     get (json_or_empty response) "detail" = Normal detail /\
     (body response = None -> detail = None) /\
     (text_or_falsy detail ->
      (forall s, detail = Some (JStr s) -> s <> EmptyString ->
         message_for "Analysis failed" detail = s
         /\ message_for "Bulk analysis failed" detail = s
         /\ message_for "Excel export failed" detail = s) /\
      (truthy detail = false ->
         message_for "Analysis failed" detail = "Analysis failed"
         /\ message_for "Bulk analysis failed" detail = "Bulk analysis failed"
         /\ message_for "Excel export failed" detail = "Excel export failed") /\
      analyzePresentation NumberToString JSON_stringify response
      = RejectedAPIError
          {| message := message_for "Analysis failed" detail;
             api_status := status response;
             api_details := Some (JSON_stringify (json_or_empty response)) |} /\
      analyzeBulk NumberToString JSON_stringify response
      = RejectedAPIError
          {| message := message_for "Bulk analysis failed" detail;
             api_status := status response;
             api_details := Some (JSON_stringify (json_or_empty response)) |} /\
      exportExcel NumberToString JSON_stringify response
      = RejectedAPIError
          {| message := message_for "Excel export failed" detail;
             api_status := status response;
             api_details := Some (JSON_stringify (json_or_empty response)) |})) /\
  (forall e,
     analyzePresentation NumberToString JSON_stringify response
     = RejectedAPIError e
     \/ analyzeBulk NumberToString JSON_stringify response = RejectedAPIError e
     \/ exportExcel NumberToString JSON_stringify response = RejectedAPIError e ->
     ok response = false /\ api_status e = status response) /\
  (forall v, analyzePresentation NumberToString JSON_stringify response
             = Resolved v -> ok response = true /\ body response = Some v) /\
  (forall v, analyzeBulk NumberToString JSON_stringify response
             = Resolved v -> ok response = true /\ body response = Some v) /\
  (forall b, exportExcel NumberToString JSON_stringify response
             = Resolved b -> ok response = true /\ blob response = b).
Proof.
  split; [|split; [exact (@rejected_status response)|]].
  - intros Hok Hnull.
    destruct (@get_not_null (json_or_empty response) "detail"
                (@json_or_empty_not_null response Hnull))
      as [detail Hget].
    exists detail. split; [exact Hget|].
    split.
    { intro Hb. unfold json_or_empty in Hget. rewrite Hb in Hget.
      simpl in Hget. congruence. }
    intro Htext. split.
    { intros s -> Hs. unfold message_for.
      destruct (String.eqb_spec s EmptyString); [contradiction|].
      repeat split; reflexivity. }
    split.
    { intro Hfalsy. unfold message_for.
      destruct detail as [[| |q|s|l|f]|]; try (repeat split; reflexivity).
      simpl in Hfalsy.
      destruct (String.eqb s EmptyString); [|discriminate].
      repeat split; reflexivity. }
    unfold analyzePresentation, analyzeBulk, exportExcel.
    rewrite Hok. simpl negb. cbv iota zeta. rewrite Hget.
    rewrite !(or_else_message _ Htext). repeat split; reflexivity.
  - unfold analyzePresentation, analyzeBulk, exportExcel, response_json.
    destruct (ok response); simpl.
    + repeat split; destruct (body response); congruence.
    + destruct (get (json_or_empty response) "detail") as [detail|];
        [|repeat split; discriminate].
      repeat split;
        match goal with
        | H : context [ToString ?N ?v] |- _ => destruct (ToString N v)
        end; discriminate.
Qed.

End ApiClient.

(** A 413 answer of the server with its own explanation. *)
Lemma api_error_on_failure_witness :
  let response :=
    {| Api.ok := false; Api.status := 413;
       Api.body := Some (JObj [("detail", JStr "File too large")]);
       Api.blob := EmptyString |}%string in
  Api.analyzePresentation (fun _ => EmptyString) (fun _ => EmptyString) response
  = Api.RejectedAPIError
      {| Api.message := "File too large"; Api.api_status := 413;
         Api.api_details := Some EmptyString |}%string.
Proof.
  cbv zeta.
  destruct (api_error_on_failure (fun _ => EmptyString) (fun _ => EmptyString)
              {| Api.ok := false; Api.status := 413;
                 Api.body := Some (JObj [("detail", JStr "File too large")]);
                 Api.blob := EmptyString |})%string as [H _].
  destruct H as (detail & Hget & _ & H); [reflexivity | discriminate |].
  simpl in Hget. injection Hget as <-.
  destruct H as (_ & _ & Ha & _); [right; eexists; reflexivity|].
  exact Ha.
Defined.

(* --------------------------------------------------------------------- *)
(** *** Bulk results display: the average                                 *)
(* --------------------------------------------------------------------- *)

Section Average.

Import BulkResultsDisplay.
Local Open Scope Q_scope.

Lemma success_and_result_true (r : StudentResult) :
  success_and_result r = true -> exists g, result r = Some g.
Proof.
  unfold success_and_result. destruct (success r), (result r) as [g|];
    simpl; try discriminate. eauto.
Qed.

Lemma successfulResults_wf (rep : BulkAnalyzeResponse) :
  Forall has_result (results rep) ->
  successfulResults rep = filter success (results rep).
Proof.
  unfold successfulResults. intro H.
  induction H as [|r l Hr Hl IH]; simpl; [reflexivity|].
  rewrite IH. unfold success_and_result at 1.
  destruct (success r) eqn:E; simpl; [|reflexivity].
  destruct (Hr E) as [g ->]. reflexivity.
Qed.

(** The [reduce] of [avgScore] never reads an absent result on the
    filtered list, and yields the sum of the total scores. *)
Lemma reduce_sum (l : list StudentResult) :
  Forall (fun r => exists g, result r = Some g) l ->
  forall acc, exists s,
    reduce (fun acc r => bind (result_total_score r)
                           (fun t => Normal (acc + t))) l acc = Normal s
    /\ s == acc + sum_scores l.
Proof.
  induction 1 as [|r l [g Hg] Hl IH]; intro acc; simpl.
  - exists acc. split; [reflexivity | ring].
  - unfold result_total_score at 1. rewrite Hg. simpl.
    destruct (IH (acc + total_score g)) as (s & Hs & Es).
    exists s. split; [exact Hs|].
    rewrite Es. unfold score_of. rewrite Hg. ring.
Qed.

Lemma avgScore_graded (rep : BulkAnalyzeResponse) :
  let graded := successfulResults rep in
  exists avg, avgScore rep = Normal (Some avg) /\
    (graded = [] -> avg == 0) /\
    (graded <> [] ->
     avg == sum_scores graded / inject_Z (Z.of_nat (List.length graded))).
Proof.
  cbv zeta. unfold avgScore.
  assert (Hall : Forall (fun r => exists g, result r = Some g)
                   (successfulResults rep)).
  { apply Forall_forall. intros r Hr. apply filter_In in Hr.
    apply success_and_result_true, Hr. }
  destruct (successfulResults rep) as [|r l] eqn:E.
  - exists 0. simpl. split; [reflexivity|]. split; [reflexivity | congruence].
  - destruct (reduce_sum Hall 0) as (s & Hs & Es).
    change (0 <? List.length (r :: l))%nat with true. cbv iota beta.
    rewrite Hs. simpl bind. unfold divide.
    change (List.length (r :: l)) with (S (List.length l)).
    cbv iota beta.
    exists (s / inject_Z (Z.of_nat (S (List.length l)))).
    split; [reflexivity|]. split; [discriminate|]. intros _.
    rewrite Es. apply Qdiv_comp; [ring | reflexivity].
Qed.

(** C9. For every bulk report (each successful entry carrying its
    result), the average the display computes is the sum of the total
    scores of the entries with [success] true divided by their number,
    and 0 when there is none; the computation always yields a number, so
    the division never meets a zero divisor (nor an absent result). *)
Theorem avgScore_is_mean (rep : BulkAnalyzeResponse)
    (Hwf : Forall has_result (results rep)) :
  let succeeded := filter success (results rep) in
  exists avg, avgScore rep = Normal (Some avg) /\
    (succeeded = [] -> avg == 0) /\
    (succeeded <> [] ->
     avg == sum_scores succeeded
            / inject_Z (Z.of_nat (List.length succeeded))).
Proof.
  cbv zeta. rewrite <- (successfulResults_wf rep Hwf).
  apply avgScore_graded.
Qed.

End Average.

(* --------------------------------------------------------------------- *)
(** *** Bulk results display: the sorted list                             *)
(* --------------------------------------------------------------------- *)

Section SortedResults.

Import BulkResultsDisplay.
Local Open Scope Q_scope.

Lemma positive_order (q : Q) : negb (Qle_bool q 0) = true <-> 0 < q.
Proof.
  split; intro H.
  - apply Qnot_le_lt. intro Hle. apply Qle_bool_iff in Hle.
    rewrite Hle in H. discriminate.
  - destruct (Qle_bool q 0) eqn:E; [|reflexivity].
    apply Qle_bool_iff in E. exfalso. exact (Qlt_not_le _ _ H E).
Qed.

(** **** Sorting with a comparator that orders its values *)

Section Sorting.

Variable A : Type.
Variable comparefn : A -> A -> completion Q.
Variable U : A -> Prop.
Hypothesis Hord : orders comparefn U.

Lemma may_precede_trans (a b c : A) :
  U a -> U b -> U c ->
  may_precede comparefn a b -> may_precede comparefn b c ->
  may_precede comparefn a c.
Proof.
  destruct Hord as (_ & _ & H). intros. apply (H a b c); assumption.
Qed.

(** What one answer of the comparator decides. *)
Lemma comparefn_decides (a b : A) :
  U a -> U b ->
  exists q, comparefn a b = Normal q /\
    (q <= 0 -> may_precede comparefn a b) /\
    (0 <= q -> may_precede comparefn b a).
Proof.
  intros Ha Hb. destruct Hord as (Htot & Hanti & _).
  destruct (Htot a b Ha Hb) as [q Hq]. exists q.
  split; [exact Hq|]. split.
  - intros Hle (w & Hw & Hneg).
    destruct (Hanti b a w Hb Ha Hw Hneg) as (q' & Hq' & Hpos).
    rewrite Hq in Hq'. injection Hq' as <-. lra.
  - intros Hge (v & Hv & Hneg).
    rewrite Hq in Hv. injection Hv as <-. lra.
Qed.

Lemma StronglySorted_app (R : A -> A -> Prop) (l1 l2 : list A) :
  StronglySorted R l1 -> StronglySorted R l2 ->
  (forall x y, In x l1 -> In y l2 -> R x y) ->
  StronglySorted R (l1 ++ l2).
Proof.
  intros H1 H2 H. induction H1 as [|a l1 Hl1 IH Hfa]; simpl; [exact H2|].
  constructor.
  - apply IH. intros x y Hx Hy. apply H; [right; exact Hx | exact Hy].
  - apply Forall_app. split; [exact Hfa|].
    apply Forall_forall. intros y Hy. apply H; [left; reflexivity | exact Hy].
Qed.

Lemma StronglySorted_rev (l : list A) :
  StronglySorted (before_rev comparefn) l ->
  StronglySorted (may_precede comparefn) (rev l).
Proof.
  induction 1 as [|a l Hl IH Hfa]; simpl; [constructor|].
  apply StronglySorted_app; [exact IH | repeat constructor |].
  intros x y Hx [<- | []]. apply in_rev in Hx.
  rewrite Forall_forall in Hfa. apply (Hfa x Hx).
Qed.

Lemma StronglySorted_nth (R : A -> A -> Prop) (l : list A) :
  StronglySorted R l ->
  forall i j a b, (i < j)%nat ->
    nth_error l i = Some a -> nth_error l j = Some b -> R a b.
Proof.
  induction 1 as [|x l Hl IH Hfa]; intros i j a b Hij Ha Hb.
  - destruct i; discriminate.
  - destruct j as [|j]; [lia|]. simpl in Hb.
    destruct i as [|i]; simpl in Ha.
    + injection Ha as <-. rewrite Forall_forall in Hfa.
      apply Hfa. eapply nth_error_In; eassumption.
    + apply (IH i j); [lia | assumption | assumption].
Qed.

Lemma nth_StronglySorted (R : A -> A -> Prop) (l : list A) :
  (forall i j a b, (i < j)%nat ->
     nth_error l i = Some a -> nth_error l j = Some b -> R a b) ->
  StronglySorted R l.
Proof.
  induction l as [|x l IH]; intro H; constructor.
  - apply IH. intros i j a b Hij Ha Hb.
    apply (H (S i) (S j)); [lia | exact Ha | exact Hb].
  - apply Forall_forall. intros y Hy.
    destruct (In_nth_error _ _ Hy) as [j Hj].
    apply (H O (S j)); [lia | reflexivity | exact Hj].
Qed.

(** ***** By insertion *)

Lemma insert_sorted (element : A) :
  forall rev_prefix,
    U element -> Forall U rev_prefix ->
    StronglySorted (before_rev comparefn) rev_prefix ->
    exists l, insert comparefn element rev_prefix = Normal l /\
      StronglySorted (before_rev comparefn) l /\
      Permutation (element :: rev_prefix) l.
Proof.
  intros rev_prefix He.
  induction rev_prefix as [|tmp rest IH]; intros Hall Hs; simpl.
  - exists [element]. repeat split; auto.
    constructor; constructor.
  - inversion Hall as [|? ? Htmp Hrest]; subst.
    inversion Hs as [|? ? Hs' Hfa]; subst.
    destruct (comparefn_decides Htmp He) as (q & -> & Hle & Hge). simpl.
    destruct (negb (Qle_bool q 0)) eqn:E.
    + apply positive_order in E.
      destruct (IH Hrest Hs') as (l & -> & Hl & Hp). simpl.
      exists (tmp :: l). split; [reflexivity|]. split.
      * constructor; [exact Hl|].
        apply Forall_forall. intros y Hy.
        apply (Permutation_in _ (Permutation_sym Hp)) in Hy.
        destruct Hy as [<- | Hy].
        -- apply Hge. lra.
        -- rewrite Forall_forall in Hfa. apply Hfa, Hy.
      * rewrite perm_swap. constructor. exact Hp.
    + assert (Hq : q <= 0).
      { destruct (Qlt_le_dec 0 q) as [Hlt|Hq]; [|exact Hq].
        apply positive_order in Hlt. congruence. }
      exists (element :: tmp :: rest). split; [reflexivity|].
      split; [|reflexivity].
      constructor; [exact Hs|].
      constructor; [exact (Hle Hq)|].
      rewrite Forall_forall in Hfa, Hrest |- *. intros y Hy.
      unfold before_rev.
      apply may_precede_trans with tmp; auto.
      apply (Hfa y Hy).
Qed.

Lemma insertion_loop_sorted (todo : list A) :
  forall rev_prefix,
    Forall U todo -> Forall U rev_prefix ->
    StronglySorted (before_rev comparefn) rev_prefix ->
    exists out, insertion_loop comparefn todo rev_prefix = Normal out /\
      StronglySorted (may_precede comparefn) out /\
      Permutation (todo ++ rev_prefix) out.
Proof.
  induction todo as [|element rest IH]; intros rev_prefix Ht Hp Hs; simpl.
  - exists (rev rev_prefix). split; [reflexivity|]. split.
    + apply StronglySorted_rev, Hs.
    + apply Permutation_rev.
  - inversion Ht as [|? ? He Hrest]; subst.
    destruct (insert_sorted He Hp Hs) as (l & -> & Hl & Hperm). simpl.
    destruct (IH l Hrest) as (out & Hout & Hsorted & Hperm').
    + apply Forall_forall. intros y Hy.
      apply (Permutation_in _ (Permutation_sym Hperm)) in Hy.
      destruct Hy as [<- | Hy]; [exact He|].
      rewrite Forall_forall in Hp. apply Hp, Hy.
    + exact Hl.
    + exists out. split; [exact Hout|]. split; [exact Hsorted|].
      rewrite <- Hperm'. rewrite <- Hperm.
      apply Permutation_middle.
Qed.

Lemma insertion_sort_sorted (l : list A) :
  Forall U l ->
  exists out, insertion_sort comparefn l = Normal out /\
    sort_order comparefn l out.
Proof.
  intro Hl. unfold insertion_sort.
  destruct (@insertion_loop_sorted l [] Hl (Forall_nil _) (SSorted_nil _))
    as (out & Hout & Hs & Hp).
  exists out. split; [exact Hout|]. split.
  - rewrite app_nil_r in Hp. exact Hp.
  - exact (StronglySorted_nth Hs).
Qed.

(** ***** By merging *)

Lemma left_if_le_justified : justified comparefn U (left_if_le comparefn).
Proof.
  intros a b Ha Hb. unfold left_if_le.
  destruct (comparefn_decides Ha Hb) as (q & -> & Hle & Hge). simpl.
  exists (Qle_bool q 0). split; [reflexivity|]. split; intro H.
  - apply Hle, Qle_bool_iff, H.
  - apply Hge. destruct (Qlt_le_dec q 0) as [Hlt|Hq]; [|exact Hq].
    apply Qlt_le_weak in Hlt. apply Qle_bool_iff in Hlt. congruence.
Qed.

Lemma left_unless_lt_justified :
  justified comparefn U (left_unless_lt comparefn).
Proof.
  intros a b Ha Hb. unfold left_unless_lt.
  destruct (comparefn_decides Hb Ha) as (q & -> & Hle & Hge). simpl.
  exists (Qle_bool 0 q). split; [reflexivity|]. split; intro H.
  - apply Hge, Qle_bool_iff, H.
  - apply Hle. destruct (Qlt_le_dec 0 q) as [Hlt|Hq]; [|exact Hq].
    apply Qlt_le_weak in Hlt. apply Qle_bool_iff in Hlt. congruence.
Qed.

Section Merging.

Variable take_left : A -> A -> completion bool.
Hypothesis Hjust : justified comparefn U take_left.

Local Abbreviation run := (run comparefn U).

Lemma run_cons_inv (a : A) (l : list A) :
  run (a :: l) ->
  U a /\ Forall (may_precede comparefn a) l /\ run l.
Proof.
  intros [Hs Hr]. inversion Hs; subst. inversion Hr; subst.
  repeat split; assumption.
Qed.

Lemma merge_runs (l1 : list A) :
  forall l2, run l1 -> run l2 ->
    exists m, merge take_left l1 l2 = Normal m /\ run m /\
              Permutation (l1 ++ l2) m.
Proof.
  induction l1 as [|a l1 IH1]; intros l2 H1 H2.
  - exists l2. simpl. repeat split; try apply H2. reflexivity.
  - destruct (run_cons_inv H1) as (Ha & Hal1 & Hl1).
    induction l2 as [|b l2 IH2].
    + exists (a :: l1). simpl. rewrite app_nil_r.
      repeat split; try apply H1. reflexivity.
    + destruct (run_cons_inv H2) as (Hb & Hbl2 & Hl2).
      destruct (Hjust Ha Hb) as (d & Hd & Hleft & Hright).
      change (merge take_left (a :: l1) (b :: l2)) with
        (bind (take_left a b) (fun left =>
           if left
           then bind (merge take_left l1 (b :: l2)) (fun m => Normal (a :: m))
           else bind (merge take_left (a :: l1) l2) (fun m => Normal (b :: m)))).
      rewrite Hd. cbn [bind]. destruct d.
      * destruct (IH1 (b :: l2) Hl1 H2) as (m & -> & [Hm Hmr] & Hp).
        cbn [bind].
        exists (a :: m). split; [reflexivity|]. split; [split|].
        -- constructor; [exact Hm|].
           apply Forall_forall. intros y Hy.
           apply (Permutation_in _ (Permutation_sym Hp)) in Hy.
           apply in_app_or in Hy. destruct Hy as [Hy | [<- | Hy]].
           ++ rewrite Forall_forall in Hal1. apply Hal1, Hy.
           ++ apply Hleft. reflexivity.
           ++ destruct Hl2 as [_ Hl2]. rewrite Forall_forall in Hl2.
              apply may_precede_trans with b; auto.
              rewrite Forall_forall in Hbl2. apply Hbl2, Hy.
        -- constructor; assumption.
        -- simpl. constructor. exact Hp.
      * destruct (IH2 Hl2) as (m & -> & [Hm Hmr] & Hp).
        cbn [bind].
        exists (b :: m). split; [reflexivity|]. split; [split|].
        -- constructor; [exact Hm|].
           apply Forall_forall. intros y Hy.
           apply (Permutation_in _ (Permutation_sym Hp)) in Hy.
           apply in_app_or in Hy. destruct Hy as [[<- | Hy] | Hy].
           ++ apply Hright. reflexivity.
           ++ destruct Hl1 as [_ Hl1]. rewrite Forall_forall in Hl1.
              apply may_precede_trans with a; auto.
              rewrite Forall_forall in Hal1. apply Hal1, Hy.
           ++ rewrite Forall_forall in Hbl2. apply Hbl2, Hy.
        -- constructor; assumption.
        -- rewrite <- Hp. symmetry. apply Permutation_middle.
Qed.

Lemma merge_pairs_runs (n : nat) :
  forall runs, (List.length runs <= n)%nat -> Forall run runs ->
    exists runs', merge_pairs take_left runs = Normal runs' /\
      Forall run runs' /\
      Permutation (List.concat runs) (List.concat runs') /\
      (2 * List.length runs' <= S (List.length runs))%nat.
Proof.
  induction n as [|n IH]; intros runs Hn Hruns.
  - destruct runs; [|simpl in Hn; lia].
    exists []. simpl. repeat split; auto.
  - destruct runs as [|r1 [|r2 rest]].
    + exists []. simpl. repeat split; auto.
    + exists [r1]. simpl. repeat split; auto.
    + inversion Hruns as [|? ? Hr1 Hrs]; subst.
      inversion Hrs as [|? ? Hr2 Hrest]; subst.
      destruct (merge_runs Hr1 Hr2) as (m & Hm & Hrun & Hp).
      destruct (IH rest) as (ms & Hms & Hrms & Hpms & Hlen);
        [simpl in Hn; lia | exact Hrest |].
      exists (m :: ms). simpl merge_pairs. rewrite Hm. simpl bind.
      rewrite Hms. simpl bind. split; [reflexivity|].
      split; [constructor; assumption|]. split.
      * simpl. rewrite app_assoc. apply Permutation_app; assumption.
      * simpl. simpl in Hlen. lia.
Qed.

Lemma merge_passes_runs (fuel : nat) :
  forall runs, (List.length runs <= S fuel)%nat -> Forall run runs ->
    exists out, merge_passes take_left fuel runs = Normal out /\
      run out /\ Permutation (List.concat runs) out.
Proof.
  induction fuel as [|k IH]; intros runs Hlen Hruns.
  - destruct runs as [|r [|r' rest]]; simpl in Hlen; try lia.
    + exists []. simpl. repeat split; constructor.
    + exists r. simpl. rewrite app_nil_r. inversion Hruns; subst.
      repeat split; try apply H1. reflexivity.
  - destruct runs as [|r [|r' rest]].
    + exists []. simpl. repeat split; constructor.
    + exists r. simpl. rewrite app_nil_r. inversion Hruns; subst.
      repeat split; try apply H1. reflexivity.
    + destruct (@merge_pairs_runs (List.length (r :: r' :: rest))
                  (r :: r' :: rest) (le_n _) Hruns)
        as (runs' & Hrs & Hrun & Hp & Hl).
      destruct (IH runs') as (out & Hout & Hro & Hpo);
        [simpl in Hl, Hlen; lia | exact Hrun |].
      exists out.
      change (merge_passes take_left (S k) (r :: r' :: rest)) with
        (bind (merge_pairs take_left (r :: r' :: rest))
           (merge_passes take_left k)).
      rewrite Hrs. simpl bind. split; [exact Hout|]. split; [exact Hro|].
      rewrite Hp. exact Hpo.
Qed.

Lemma merge_sort_runs (l : list A) :
  Forall U l ->
  exists out, merge_sort take_left l = Normal out /\
    sort_order comparefn l out.
Proof.
  intro Hl. unfold merge_sort.
  destruct (@merge_passes_runs (List.length l) (map (fun x => [x]) l))
    as (out & Hout & [Hs _] & Hp).
  - rewrite length_map. lia.
  - apply Forall_forall. intros r Hr. apply in_map_iff in Hr.
    destruct Hr as (x & <- & Hx). split.
    + repeat constructor.
    + constructor; [|constructor]. rewrite Forall_forall in Hl. apply Hl, Hx.
  - exists out. split; [exact Hout|]. split; [|exact (StronglySorted_nth Hs)].
    rewrite <- Hp. clear. induction l as [|x l IH]; simpl; auto.
Qed.

End Merging.

(** ***** By binary insertion *)

Lemma negative_decides (a b : A) :
  U a -> U b ->
  exists below, negative comparefn a b = Normal below /\
    (below = true -> may_precede comparefn a b) /\
    (below = false -> may_precede comparefn b a).
Proof.
  intros Ha Hb. unfold negative.
  destruct (comparefn_decides Ha Hb) as (q & -> & Hle & Hge). simpl.
  exists (negb (Qle_bool 0 q)). split; [reflexivity|]. split; intro H.
  - apply Hle. apply negb_true_iff in H.
    destruct (Qlt_le_dec 0 q) as [Hlt|Hq]; [|exact Hq].
    apply Qlt_le_weak in Hlt. apply Qle_bool_iff in Hlt. congruence.
  - apply Hge. apply negb_false_iff in H. apply Qle_bool_iff, H.
Qed.

(** A run that is being extended, held reversed: descending in the
    array, it is in order as it is held; ascending, in order when read
    from the right. *)
Local Abbreviation run_so_far isDescending rev_run :=
  (if isDescending : bool
   then StronglySorted (may_precede comparefn) rev_run
   else StronglySorted (before_rev comparefn) rev_run).

Lemma extend_run_spec (isDescending : bool) (rest : list A) :
  forall previous rev_tail,
    Forall U rest -> Forall U (previous :: rev_tail) ->
    run_so_far isDescending (previous :: rev_tail) ->
    exists rev_run rest',
      extend_run comparefn isDescending previous rest (previous :: rev_tail)
      = Normal (rev_run, rest') /\
      run_so_far isDescending rev_run /\
      Forall U rev_run /\ Forall U rest' /\
      Permutation (rest ++ previous :: rev_tail) (rev_run ++ rest').
Proof.
  induction rest as [|current rest' IH]; intros previous rev_tail Hr Hp Hs.
  - exists (previous :: rev_tail), []. simpl.
    rewrite app_nil_r. repeat split; auto.
  - inversion Hr as [|? ? Hc Hr']; subst.
    pose proof Hp as Hp'. inversion Hp' as [|? ? Hprev Htail]; subst.
    destruct (negative_decides Hc Hprev) as (below & Hb & Htrue & Hfalse).
    cbn [extend_run]. rewrite Hb. cbn [bind].
    destruct (Bool.eqb below isDescending) eqn:E.
    + apply Bool.eqb_prop in E. subst below.
      destruct (IH current (previous :: rev_tail) Hr')
        as (rev_run & rest'' & Hrun & Hinv & Hu & Hu' & Hperm).
      * constructor; assumption.
      * rewrite Forall_forall in Htail.
        destruct isDescending.
        -- constructor; [exact Hs|].
           inversion Hs as [|? ? _ Hfa]; subst.
           constructor; [apply Htrue; reflexivity|].
           rewrite Forall_forall in Hfa |- *. intros y Hy.
           apply may_precede_trans with previous; auto.
        -- constructor; [exact Hs|].
           inversion Hs as [|? ? _ Hfa]; subst.
           constructor; [apply Hfalse; reflexivity|].
           rewrite Forall_forall in Hfa |- *. intros y Hy.
           unfold before_rev.
           apply may_precede_trans with previous; auto.
           apply (Hfa y Hy).
      * exists rev_run, rest''. split; [exact Hrun|].
        split; [exact Hinv|]. split; [exact Hu|]. split; [exact Hu'|].
        rewrite <- Hperm. simpl.
        rewrite (Permutation_middle rest' (previous :: rev_tail) current).
        reflexivity.
    + exists (previous :: rev_tail), (current :: rest').
      split; [reflexivity|]. split; [exact Hs|]. split; [exact Hp|].
      split; [exact Hr|]. apply Permutation_app_comm.
Qed.

Lemma count_and_make_run_spec (l : list A) :
  Forall U l ->
  exists run rest,
    count_and_make_run comparefn l = Normal (run, rest) /\
    StronglySorted (may_precede comparefn) run /\
    Forall U run /\ Forall U rest /\
    Permutation l (run ++ rest).
Proof.
  intro Hl. destruct l as [|elementHigh [|elementLow rest]].
  - exists [], []. repeat split; constructor.
  - exists [elementHigh], []. repeat split; auto; repeat constructor.
  - inversion Hl as [|? ? Hh Hl']; subst.
    inversion Hl' as [|? ? Hlow Hrest]; subst.
    destruct (negative_decides Hlow Hh) as (isDescending & Hb & Htrue & Hfalse).
    cbn [count_and_make_run]. rewrite Hb. cbn [bind].
    destruct (@extend_run_spec isDescending rest elementLow [elementHigh] Hrest)
      as (rev_run & rest' & Hrun & Hinv & Hu & Hu' & Hperm).
    + repeat constructor; assumption.
    + destruct isDescending.
      * constructor; [repeat constructor|].
        constructor; [apply Htrue; reflexivity | constructor].
      * constructor; [repeat constructor|].
        constructor; [apply Hfalse; reflexivity | constructor].
    + rewrite Hrun. cbn [bind fst snd].
      assert (Hall : Permutation (elementHigh :: elementLow :: rest)
                       (rev_run ++ rest')).
      { rewrite <- Hperm.
        change (elementLow :: [elementHigh]) with ([elementLow] ++ [elementHigh]).
        rewrite Permutation_app_comm. simpl. apply perm_swap. }
      destruct isDescending.
      * exists rev_run, rest'. repeat split; assumption.
      * exists (rev rev_run), rest'. split; [reflexivity|].
        split; [apply StronglySorted_rev; exact Hinv|].
        split; [apply Forall_rev; exact Hu|]. split; [exact Hu'|].
        rewrite Hall. apply Permutation_app_tail, Permutation_rev.
Qed.

Lemma search_spec (sorted : list A) (pivot : A) :
  StronglySorted (may_precede comparefn) sorted ->
  Forall U sorted -> U pivot ->
  forall fuel left right,
    (left <= right)%nat -> (right <= List.length sorted)%nat ->
    (right - left <= fuel)%nat ->
    (forall i e, (i < left)%nat -> nth_error sorted i = Some e ->
       may_precede comparefn e pivot) ->
    (forall i e, (right <= i)%nat -> nth_error sorted i = Some e ->
       may_precede comparefn pivot e) ->
    exists k, search comparefn fuel sorted pivot left right = Normal k /\
      (forall i e, (i < k)%nat -> nth_error sorted i = Some e ->
         may_precede comparefn e pivot) /\
      (forall i e, (k <= i)%nat -> nth_error sorted i = Some e ->
         may_precede comparefn pivot e).
Proof.
  intros Hs Hu Hp. rewrite Forall_forall in Hu.
  induction fuel as [|fuel IH]; intros left right Hlr Hlen Hfuel Hleft Hright.
  - exists left. split; [reflexivity|]. split; [exact Hleft|].
    intros i e Hi. apply Hright. lia.
  - cbn [search]. destruct (left <? right)%nat eqn:E.
    + apply Nat.ltb_lt in E.
      pose proof (Nat.lt_div2 (right - left) ltac:(lia)) as Hhalf.
      remember (Nat.div2 (right - left)) as half eqn:Ehalf. clear Ehalf.
      remember (left + half)%nat as mid eqn:Emid.
      assert (Hlo : (left <= mid)%nat) by lia.
      assert (Hhi : (mid < right)%nat) by lia.
      assert (Hmid : (mid < List.length sorted)%nat) by lia.
      clear Emid Hhalf.
      destruct (nth_error sorted mid) as [element|] eqn:En;
        [|apply nth_error_None in En; lia].
      assert (He : U element) by (apply Hu; eapply nth_error_In; eassumption).
      destruct (negative_decides Hp He) as (below & Hb & Htrue & Hfalse).
      rewrite Hb. cbn [bind]. destruct below.
      * apply IH; try lia; [exact Hleft|].
        intros i e Hi Hie.
        destruct (Nat.eq_dec i mid) as [->|Hne].
        -- rewrite En in Hie. injection Hie as <-. apply Htrue. reflexivity.
        -- apply may_precede_trans with element;
             [ exact Hp | exact He
             | apply Hu; eapply nth_error_In; eassumption
             | apply Htrue; reflexivity
             | apply (StronglySorted_nth Hs) with mid i;
               [lia | exact En | exact Hie] ].
      * apply IH; try lia; [|exact Hright].
        intros i e Hi Hie.
        destruct (Nat.eq_dec i mid) as [->|Hne].
        -- rewrite En in Hie. injection Hie as <-. apply Hfalse. reflexivity.
        -- apply may_precede_trans with element;
             [ apply Hu; eapply nth_error_In; eassumption
             | exact He | exact Hp
             | apply (StronglySorted_nth Hs) with i mid;
               [lia | exact Hie | exact En]
             | apply Hfalse; reflexivity ].
    + apply Nat.ltb_ge in E. exists left. split; [reflexivity|].
      split; [exact Hleft|]. intros i e Hi. apply Hright. lia.
Qed.

Lemma StronglySorted_app_inv (R : A -> A -> Prop) (l1 l2 : list A) :
  StronglySorted R (l1 ++ l2) ->
  StronglySorted R l1 /\ StronglySorted R l2 /\
  (forall x y, In x l1 -> In y l2 -> R x y).
Proof.
  induction l1 as [|a l1 IH]; simpl; intro H.
  - split; [constructor|]. split; [exact H|]. intros x y [].
  - inversion H as [|? ? Hs Hfa]; subst.
    destruct (IH Hs) as (H1 & H2 & H12).
    rewrite Forall_forall in Hfa. split.
    + constructor; [exact H1|]. apply Forall_forall.
      intros y Hy. apply Hfa. apply in_or_app. left. exact Hy.
    + split; [exact H2|]. intros x y [<-|Hx] Hy.
      * apply Hfa. apply in_or_app. right. exact Hy.
      * apply H12; assumption.
Qed.

Lemma insert_pivot_spec (sorted : list A) (pivot : A) :
  StronglySorted (may_precede comparefn) sorted ->
  Forall U sorted -> U pivot ->
  exists out, insert_pivot comparefn sorted pivot = Normal out /\
    StronglySorted (may_precede comparefn) out /\
    Forall U out /\ Permutation (pivot :: sorted) out.
Proof.
  intros Hs Hu Hp. unfold insert_pivot.
  destruct (@search_spec sorted pivot Hs Hu Hp (List.length sorted) 0
              (List.length sorted))
    as (k & -> & Hbefore & Hafter); try lia.
  { intros i e Hi Hie. assert (nth_error sorted i <> None) by congruence.
    apply nth_error_Some in H. lia. }
  cbn [bind].
  exists (firstn k sorted ++ pivot :: skipn k sorted).
  split; [reflexivity|].
  pose proof (firstn_skipn k sorted) as Hsplit.
  assert (Hparts := Hs). rewrite <- Hsplit in Hparts.
  apply StronglySorted_app_inv in Hparts.
  destruct Hparts as (H1 & H2 & H12).
  split; [|split].
  - apply StronglySorted_app; [exact H1 | |].
    + constructor; [exact H2|]. apply Forall_forall. intros y Hy.
      destruct (In_nth_error _ _ Hy) as [j Hj].
      rewrite nth_error_skipn in Hj.
      apply (Hafter (k + j)%nat); [lia | exact Hj].
    + intros x y Hx [<-|Hy]; [|apply H12; assumption].
      destruct (In_nth_error _ _ Hx) as [i Hi].
      rewrite nth_error_firstn in Hi.
      destruct (i <? k)%nat eqn:E; [|discriminate].
      apply Nat.ltb_lt in E. apply (Hbefore i); assumption.
  - rewrite <- Hsplit in Hu. apply Forall_app in Hu. destruct Hu as [U1 U2].
    apply Forall_app. split; [exact U1|]. constructor; assumption.
  - rewrite <- Hsplit at 1. apply Permutation_middle.
Qed.

Lemma binary_insertion_spec (rest : list A) :
  forall sorted,
    StronglySorted (may_precede comparefn) sorted ->
    Forall U sorted -> Forall U rest ->
    exists out, binary_insertion comparefn sorted rest = Normal out /\
      StronglySorted (may_precede comparefn) out /\
      Permutation (sorted ++ rest) out.
Proof.
  induction rest as [|pivot rest IH]; intros sorted Hs Hu Hr.
  - exists sorted. simpl. rewrite app_nil_r. repeat split; auto.
  - inversion Hr as [|? ? Hp Hr']; subst.
    destruct (insert_pivot_spec Hs Hu Hp) as (sorted' & Hins & Hs' & Hu' & Hperm).
    destruct (IH sorted' Hs' Hu' Hr') as (out & Hout & Hso & Hpo).
    exists out. cbn [binary_insertion]. rewrite Hins. cbn [bind].
    split; [exact Hout|]. split; [exact Hso|].
    rewrite <- Hpo, <- Hperm. symmetry. apply Permutation_middle.
Qed.

Lemma binary_insertion_sort_sorted (l : list A) :
  Forall U l ->
  exists out, binary_insertion_sort comparefn l = Normal out /\
    sort_order comparefn l out.
Proof.
  intro Hl. unfold binary_insertion_sort.
  destruct (count_and_make_run_spec Hl)
    as (run & rest & -> & Hs & Hu & Hu' & Hperm).
  cbn [bind fst snd].
  destruct (binary_insertion_spec Hs Hu Hu') as (out & Hout & Hso & Hpo).
  exists out. split; [exact Hout|]. split.
  - rewrite Hperm. exact Hpo.
  - exact (StronglySorted_nth Hso).
Qed.

End Sorting.

(** The contract can be met, and by procedures that ask the comparator
    different questions. *)
Lemma insertion_sort_in_order : sorts_in_order (@insertion_sort).
Proof.
  intros A comparefn l Hord.
  apply (insertion_sort_sorted Hord). apply Forall_forall. auto.
Qed.

Lemma binary_insertion_sort_in_order :
  sorts_in_order (@binary_insertion_sort).
Proof.
  intros A comparefn l Hord.
  apply (binary_insertion_sort_sorted Hord). apply Forall_forall. auto.
Qed.

Lemma merge_sort_in_order :
  sorts_in_order merge_sort_le /\ sorts_in_order merge_sort_lt.
Proof.
  split; intros A comparefn l Hord; unfold merge_sort_le, merge_sort_lt.
  - apply (merge_sort_runs Hord (left_if_le_justified Hord)).
    apply Forall_forall. auto.
  - apply (merge_sort_runs Hord (left_unless_lt_justified Hord)).
    apply Forall_forall. auto.
Qed.

(** The contract asks no more of a comparator than the language does: a
    consistent comparator orders its values. *)
Lemma consistent_orders (A : Type) (comparefn : A -> A -> completion Q)
    (U : A -> Prop) :
  consistent comparefn U -> orders comparefn U.
Proof.
  intros (Htot & Hrefl & Hsym & Heq & Hlt & Hgt & Hanti).
  split; [exact Htot|]. split; [exact Hanti|].
  intros a b c Ha Hb Hc Hab Hbc (x & Hx & Hneg).
  (* comparefn c a < 0, while neither comparefn b a nor comparefn c b is *)
  destruct (Htot b a Hb Ha) as [v Hv].
  destruct (Htot c b Hc Hb) as [w Hw].
  assert (Hv0 : 0 <= v).
  { destruct (Qlt_le_dec v 0) as [H|H]; [|exact H].
    exfalso. apply Hab. exists v. split; assumption. }
  assert (Hw0 : 0 <= w).
  { destruct (Qlt_le_dec w 0) as [H|H]; [|exact H].
    exfalso. apply Hbc. exists w. split; assumption. }
  destruct (Hanti c a x Hc Ha Hx Hneg) as (y & Hy & Hpos).
  destruct (Qlt_le_dec 0 w) as [Hwpos | Hwle].
  - (* c >CF b *)
    destruct (Qlt_le_dec 0 v) as [Hvpos | Hvle].
    + destruct (Hgt c b a w v Hc Hb Ha Hw Hwpos Hv Hvpos) as (x' & Hx' & Hx'pos).
      rewrite Hx in Hx'. injection Hx' as <-. lra.
    + (* b =CF a, a >CF c, c >CF b *)
      destruct (Hgt a c b y w Ha Hc Hb Hy Hpos Hw Hwpos) as (z & Hz & Hzpos).
      assert (Hveq : v == 0) by lra.
      destruct (Hsym b a v Hb Ha Hv Hveq) as (z' & Hz' & Hz'0).
      rewrite Hz in Hz'. injection Hz' as <-. lra.
  - assert (Hweq : w == 0) by lra.
    destruct (Qlt_le_dec 0 v) as [Hvpos | Hvle].
    + (* c =CF b, b >CF a, a >CF c *)
      destruct (Hgt b a c v y Hb Ha Hc Hv Hvpos Hy Hpos) as (z & Hz & Hzpos).
      destruct (Hsym c b w Hc Hb Hw Hweq) as (z' & Hz' & Hz'0).
      rewrite Hz in Hz'. injection Hz' as <-. lra.
    + assert (Hveq : v == 0) by lra.
      destruct (Heq c b a w v Hc Hb Ha Hw Hweq Hv Hveq) as (x' & Hx' & Hx'0).
      rewrite Hx in Hx'. injection Hx' as <-. lra.
Qed.

(** **** The comparator of the display *)

(** The sign of an answer of the comparator. *)
Lemma compareFn_sign (a b : StudentResult) :
  has_result a -> has_result b ->
  exists q, compareFn a b = Normal q /\
    (q < 0 <->
     success a = true /\ (success b = false \/ score_of b < score_of a)) /\
    (0 < q <->
     success a = false \/ (success b = true /\ score_of a < score_of b)) /\
    (q == 0 <->
     success a = true /\ success b = true /\ score_of a == score_of b).
Proof.
  intros Ha Hb. unfold compareFn.
  destruct (success a) eqn:Ea; simpl.
  - destruct (Ha Ea) as [ga Hga].
    destruct (success b) eqn:Eb; simpl.
    + destruct (Hb Eb) as [gb Hgb].
      unfold result_total_score, score_of. rewrite Hga, Hgb. simpl.
      exists (total_score gb - total_score ga). split; [reflexivity|].
      split; [|split]; split.
      * intro H. split; [reflexivity|]. right. lra.
      * intros [_ [H | H]]; [discriminate | lra].
      * intro H. right. split; [reflexivity | lra].
      * intros [H | [_ H]]; [discriminate | lra].
      * intro H. split; [reflexivity|]. split; [reflexivity | lra].
      * intros (_ & _ & H). lra.
    + exists (-1). split; [reflexivity|].
      split; [|split]; split.
      * intros _. split; [reflexivity | left; reflexivity].
      * intros _. reflexivity.
      * intro H. exfalso. revert H. apply Qle_not_lt. discriminate.
      * intros [H | [H _]]; discriminate.
      * intro H. discriminate H.
      * intros (_ & H & _). discriminate.
  - exists 1. split; [reflexivity|].
    split; [|split]; split.
    + intro H. exfalso. revert H. apply Qle_not_lt. discriminate.
    + intros [H _]. discriminate.
    + intros _. left. reflexivity.
    + intros _. reflexivity.
    + intro H. discriminate H.
    + intros (H & _). discriminate.
Qed.

(** An entry may stand before another, for the comparator, exactly when
    it may in the order the display is meant to show. *)
Lemma may_precede_display (a b : StudentResult) :
  has_result a -> has_result b ->
  (may_precede compareFn a b <-> display_order a b).
Proof.
  intros Ha Hb.
  destruct (compareFn_sign Hb Ha) as (q & Hq & Hneg & _).
  unfold may_precede, precedes, display_order. split.
  - intro H.
    assert (Hq0 : ~ q < 0).
    { intro Hlt. apply H. exists q. split; assumption. }
    split.
    + intro Hfa. destruct (success b) eqn:Eb; [|reflexivity].
      exfalso. apply Hq0, Hneg. split; [reflexivity | left; exact Hfa].
    + intros Hsa Hsb.
      destruct (Qlt_le_dec (score_of a) (score_of b)) as [Hlt|Hle];
        [|exact Hle].
      exfalso. apply Hq0, Hneg. split; [exact Hsb | right; exact Hlt].
  - intros [Hf Hs] (v & Hv & Hlt).
    rewrite Hq in Hv. injection Hv as <-.
    apply Hneg in Hlt. destruct Hlt as [Hsb [Hsa | Hsc]].
    + rewrite (Hf Hsa) in Hsb. discriminate.
    + destruct (success a) eqn:Ea.
      * specialize (Hs eq_refl Hsb). lra.
      * rewrite (Hf eq_refl) in Hsb. discriminate.
Qed.

Lemma display_order_trans (a b c : StudentResult) :
  display_order a b -> display_order b c -> display_order a c.
Proof.
  unfold display_order. intros [H1 H2] [H3 H4].
  destruct (success a) eqn:Ea, (success b) eqn:Eb, (success c) eqn:Ec;
    split; intros; try discriminate; try reflexivity; auto;
    try (specialize (H3 eq_refl); discriminate);
    try (specialize (H1 eq_refl); discriminate).
  apply Qle_trans with (score_of b); auto.
Qed.

(** The comparator orders the entries of a report, failed ones
    included. *)
Lemma compareFn_orders : orders compareFn has_result.
Proof.
  split; [|split].
  - intros a b Ha Hb.
    destruct (compareFn_sign Ha Hb) as (q & Hq & _). eauto.
  - intros a b v Ha Hb Hv Hlt.
    destruct (compareFn_sign Ha Hb) as (q & Hq & Hneg & _).
    rewrite Hq in Hv. injection Hv as <-.
    destruct (compareFn_sign Hb Ha) as (w & Hw & _ & Hpos & _).
    exists w. split; [exact Hw|].
    apply Hpos. apply Hneg in Hlt. destruct Hlt as [Hsa [Hsb | Hsc]].
    + left. exact Hsb.
    + destruct (success b) eqn:Eb; [right | left; reflexivity].
      split; [exact Hsa | exact Hsc].
  - intros a b c Ha Hb Hc Hab Hbc.
    apply may_precede_display in Hab; try assumption.
    apply may_precede_display in Hbc; try assumption.
    apply may_precede_display; try assumption.
    apply display_order_trans with b; assumption.
Qed.

(** It is a consistent comparator as long as no entry has failed... *)
Lemma compareFn_consistent :
  consistent compareFn
    (fun r => success r = true /\ exists g, result r = Some g).
Proof.
  assert (Hres : forall r,
            (success r = true /\ exists g, result r = Some g) ->
            has_result r).
  { intros r [_ H] _. exact H. }
  assert (Hval : forall a b,
            (success a = true /\ exists g, result a = Some g) ->
            (success b = true /\ exists g, result b = Some g) ->
            compareFn a b = Normal (score_of b - score_of a)).
  { intros a b [Ea [ga Hga]] [Eb [gb Hgb]].
    unfold compareFn, result_total_score, score_of.
    rewrite Ea, Eb, Hga, Hgb. reflexivity. }
  repeat split.
  - intros a b Ha Hb. rewrite (Hval a b Ha Hb). eauto.
  - intros a Ha. rewrite (Hval a a Ha Ha).
    eexists. split; [reflexivity | lra].
  - intros a b v Ha Hb Hv H0. rewrite (Hval a b Ha Hb) in Hv.
    injection Hv as <-. rewrite (Hval b a Hb Ha).
    eexists. split; [reflexivity | lra].
  - intros a b c v w Ha Hb Hc Hv H0 Hw H0'.
    rewrite (Hval a b Ha Hb) in Hv. rewrite (Hval b c Hb Hc) in Hw.
    injection Hv as <-. injection Hw as <-. rewrite (Hval a c Ha Hc).
    eexists. split; [reflexivity | lra].
  - intros a b c v w Ha Hb Hc Hv H0 Hw H0'.
    rewrite (Hval a b Ha Hb) in Hv. rewrite (Hval b c Hb Hc) in Hw.
    injection Hv as <-. injection Hw as <-. rewrite (Hval a c Ha Hc).
    eexists. split; [reflexivity | lra].
  - intros a b c v w Ha Hb Hc Hv H0 Hw H0'.
    rewrite (Hval a b Ha Hb) in Hv. rewrite (Hval b c Hb Hc) in Hw.
    injection Hv as <-. injection Hw as <-. rewrite (Hval a c Ha Hc).
    eexists. split; [reflexivity | lra].
  - intros a b v Ha Hb Hv H0. rewrite (Hval a b Ha Hb) in Hv.
    injection Hv as <-. rewrite (Hval b a Hb Ha).
    eexists. split; [reflexivity | lra].
Qed.

(** ... and no longer once one has: compared with itself, a failed entry
    comes after itself. *)
Lemma compareFn_not_consistent (U : StudentResult -> Prop)
    (f : StudentResult) :
  U f -> success f = false -> ~ consistent compareFn U.
Proof.
  intros Hf Hfail (_ & Hrefl & _).
  destruct (Hrefl f Hf) as (v & Hv & H0). unfold compareFn in Hv.
  rewrite Hfail in Hv. injection Hv as <-. discriminate H0.
Qed.

Lemma orders_weaken (A : Type) (comparefn : A -> A -> completion Q)
    (U V : A -> Prop) :
  (forall x, V x -> U x) -> orders comparefn U -> orders comparefn V.
Proof.
  intros HVU (H1 & H2 & H3). split; [|split].
  - intros a b Ha Hb. apply H1; auto.
  - intros a b v Ha Hb. apply H2; auto.
  - intros a b c Ha Hb Hc. apply H3; auto.
Qed.

(** What a host that keeps the contract returns for the display. *)
Lemma host_sorts_results (sort : Array_prototype_sort)
    (rep : BulkAnalyzeResponse) :
  sorts_in_order sort ->
  Forall has_result (results rep) ->
  exists out, sortedResults sort rep = Normal out /\
    Permutation (results rep) out /\
    Forall has_result out /\
    StronglySorted display_order out.
Proof.
  intros Hhost Hwf. unfold sortedResults.
  rewrite Forall_forall in Hwf.
  destruct (Hhost StudentResult compareFn (results rep)) as (out & Hout & Hp & Hs).
  { apply orders_weaken with has_result; [exact Hwf | exact compareFn_orders]. }
  assert (Hres : forall r, In r out -> has_result r).
  { intros r Hr. apply Hwf. apply (Permutation_in _ (Permutation_sym Hp) Hr). }
  exists out. split; [exact Hout|]. split; [exact Hp|].
  split; [apply Forall_forall; exact Hres|].
  apply nth_StronglySorted. intros i j a b Hij Ha Hb.
  apply may_precede_display.
  - apply Hres. eapply nth_error_In; eassumption.
  - apply Hres. eapply nth_error_In; eassumption.
  - apply (Hs i j a b Hij Ha Hb).
Qed.

(** C7. Array.prototype.sort is the host's: let it keep its contract,
    returning in sort order every list whose elements the comparator
    orders.  Then for every bulk report (each successful entry carrying
    its result), the list the display renders after sorting is a
    permutation of the report's results in which no entry with [success]
    false comes before an entry with [success] true, and the entries with
    [success] true come in non-increasing order of [total_score]. *)
Theorem sortedResults_order (sort : Array_prototype_sort)
    (rep : BulkAnalyzeResponse)
    (Hhost : sorts_in_order sort)
    (Hwf : Forall has_result (results rep)) :
  exists out, sortedResults sort rep = Normal out /\
    Permutation (results rep) out /\
    StronglySorted display_order out /\
    (forall i j a b, (i < j)%nat ->
       nth_error out i = Some a -> nth_error out j = Some b ->
       (success a = false -> success b = false) /\
       (success a = true -> success b = true ->
        score_of b <= score_of a)).
Proof.
  destruct (host_sorts_results rep Hhost Hwf) as (out & Hout & Hp & _ & Hs).
  exists out. split; [exact Hout|]. split; [exact Hp|].
  split; [exact Hs|]. exact (StronglySorted_nth Hs).
Qed.

End SortedResults.

(* --------------------------------------------------------------------- *)
(** *** Grading pipeline: clamping and the total                          *)
(* --------------------------------------------------------------------- *)

Section Scores.

Import Pipeline.
Local Open Scope Q_scope.

Lemma Qltb_true (a b : Q) : Qltb a b = true <-> a < b.
Proof.
  unfold Qltb. split; intro H.
  - apply Qnot_le_lt. intro Hle. apply Qle_bool_iff in Hle.
    rewrite Hle in H. discriminate.
  - destruct (Qle_bool b a) eqn:E; [|reflexivity].
    apply Qle_bool_iff in E. exfalso. exact (Qlt_not_le _ _ H E).
Qed.

Lemma Qltb_false (a b : Q) : Qltb a b = false <-> b <= a.
Proof.
  unfold Qltb. rewrite negb_false_iff. apply Qle_bool_iff.
Qed.

Lemma clamp_range (lo hi x : Q) :
  lo <= hi -> lo <= clamp lo hi x /\ clamp lo hi x <= hi.
Proof.
  intro H. unfold clamp.
  destruct (Qltb x lo) eqn:E1; [split; [apply Qle_refl | exact H]|].
  apply Qltb_false in E1.
  destruct (Qltb hi x) eqn:E2; [split; [exact H | apply Qle_refl]|].
  apply Qltb_false in E2. split; assumption.
Qed.

Lemma clamp_below (lo hi x : Q) : x < lo -> clamp lo hi x = lo.
Proof. intro H. unfold clamp. apply Qltb_true in H. now rewrite H. Qed.

Lemma clamp_above (lo hi x : Q) : lo <= hi -> hi < x -> clamp lo hi x = hi.
Proof.
  intros Hlh H. unfold clamp.
  assert (E1 : Qltb x lo = false) by (apply Qltb_false; lra).
  apply Qltb_true in H. now rewrite E1, H.
Qed.

Lemma clamp_within (lo hi x : Q) : lo <= x -> x <= hi -> clamp lo hi x = x.
Proof.
  intros H1 H2. unfold clamp.
  apply Qltb_false in H1, H2. now rewrite H1, H2.
Qed.

Lemma category_max_nonneg (c : Category) : 0 <= category_max c.
Proof. destruct c; discriminate. Qed.

(** The running total is the sum. *)
Lemma fold_left_Qplus (l : list Q) :
  forall acc, fold_left Qplus l acc == acc + fold_right Qplus 0 l.
Proof.
  induction l as [|x l IH]; intro acc; simpl.
  - ring.
  - rewrite IH. ring.
Qed.

Lemma total_of_sum (l : list Q) : total_of l == fold_right Qplus 0 l.
Proof. unfold total_of. rewrite fold_left_Qplus. ring. Qed.

Lemma sum_bounds (l : list RubricScore) :
  Forall score_in_range l ->
  0 <= fold_right Qplus 0 (map score l) /\
  fold_right Qplus 0 (map score l) <= fold_right Qplus 0 (map max_score l).
Proof.
  induction 1 as [|r l [H0 H1] Hl [IH0 IH1]]; simpl.
  - split; apply Qle_refl.
  - split; lra.
Qed.

Section WithEvaluator.

Variables DocumentModel PromptConfig : Type.
Variable evaluate :
  DocumentModel -> Category -> PromptConfig -> nat ->
  EvaluatorError + RawEvaluation.

(** C2. Whatever the evaluator answers, a rubric score returned by the
    orchestrator lies within [[0, max_score]] of its category: an
    answer below 0 is returned as 0, one above the maximum as the
    maximum, any other unchanged; and whenever the evaluator gives an
    answer, the orchestrator does return such a score. *)
Theorem gradeCategory_clamps (doc : DocumentModel) (c : Category)
    (cfg : PromptConfig) :
  (forall rs, gradeCategory evaluate doc c cfg = inr rs ->
     0 <= score rs /\ score rs <= max_score rs /\
     max_score rs = category_max c /\
     exists raw,
       evaluate_with_retries evaluate doc c cfg 0 retry_budget = inr raw /\
       (raw_score raw < 0 -> score rs = 0) /\
       (category_max c < raw_score raw -> score rs = category_max c) /\
       (0 <= raw_score raw -> raw_score raw <= category_max c ->
        score rs = raw_score raw)) /\
  (forall raw, evaluate doc c cfg 0%nat = inr raw ->
     exists rs, gradeCategory evaluate doc c cfg = inr rs /\
                score rs = clamp 0 (category_max c) (raw_score raw)).
Proof.
  split.
  - intros rs H. unfold gradeCategory in H.
    destruct (evaluate_with_retries evaluate doc c cfg 0 retry_budget)
      as [e|raw]; [discriminate|].
    injection H as <-. simpl.
    pose proof (category_max_nonneg c) as Hc.
    destruct (clamp_range (raw_score raw) Hc) as [H0 H1].
    split; [exact H0|]. split; [exact H1|]. split; [reflexivity|].
    exists raw. split; [reflexivity|].
    split; [apply clamp_below|].
    split; [apply clamp_above, Hc | apply clamp_within].
  - intros raw H. unfold gradeCategory. simpl. rewrite H.
    eexists. split; reflexivity.
Qed.

Lemma gradeOrDegrade_in_range (doc : DocumentModel) (cfg : PromptConfig)
    (c : Category) :
  score_in_range (gradeOrDegrade evaluate doc cfg c) /\
  max_score (gradeOrDegrade evaluate doc cfg c) = category_max c.
Proof.
  unfold gradeOrDegrade, gradeCategory, score_in_range.
  destruct (evaluate_with_retries evaluate doc c cfg 0 retry_budget)
    as [e|raw]; simpl.
  - split; [|reflexivity]. split; [apply Qle_refl|].
    apply category_max_nonneg.
  - split; [|reflexivity].
    apply clamp_range, category_max_nonneg.
Qed.

Lemma gradeOrDegrade_category (doc : DocumentModel) (cfg : PromptConfig)
    (c : Category) :
  category (gradeOrDegrade evaluate doc cfg c) = category_name c.
Proof.
  unfold gradeOrDegrade, gradeCategory.
  destruct (evaluate_with_retries evaluate doc c cfg 0 retry_budget);
    reflexivity.
Qed.

End WithEvaluator.

End Scores.

Section Total.

Import Pipeline.
Local Open Scope Q_scope.

Variable fold_checks :
  list DeterministicCheckResult -> list RubricScore -> list RubricScore.
Variable derive_improvements :
  list DeterministicCheckResult -> list RubricScore ->
  list ImprovementSuggestion.

Lemma total_in_bounds (x : Q) : 0 <= clamp 0 100 x /\ clamp 0 100 x <= 100.
Proof. apply clamp_range. discriminate. Qed.

(** Within the 90-point pool the clamping of the total is the
    identity. *)
Lemma total_not_clamped (folded : list RubricScore) (onTime : bool) :
  Forall score_in_range folded ->
  fold_right Qplus 0 (map max_score folded) <= 90 ->
  clamp 0 100
    (total_of (map score folded) + (if onTime then on_time_points else 0))
  == fold_right Qplus 0 (map score folded) + (if onTime then 10 else 0).
Proof.
  intros Hr Hm. destruct (sum_bounds Hr) as [H0 H1].
  pose proof (total_of_sum (map score folded)) as Ht.
  rewrite clamp_within.
  - rewrite Ht. destruct onTime; reflexivity.
  - rewrite Ht. destruct onTime; unfold on_time_points; lra.
  - rewrite Ht. destruct onTime; unfold on_time_points; lra.
Qed.

(** C1. The total score of a grading result the aggregator produces lies
    in [[0, 100]].  When the rubric scores of the grading pass are each
    within the range of its category, their maxima within the 90 points
    of the weighting table, and the check scores are folded into the
    categories as the table asks, the total equals the sum of the scores
    of the rubric categories of the result plus 10 if the submission was
    on time and 0 otherwise; the result carries the categories and maxima
    of the table, each score within its range, and the on-time mark and
    the checks it was given. *)
Theorem aggregate_total
    (checks : list DeterministicCheckResult)
    (rubricScores : list RubricScore) (onTime : bool)
    (Hfold : keeps_weighting fold_checks)
    (Hrange : Forall score_in_range rubricScores)
    (Hpool : fold_right Qplus 0 (map max_score rubricScores) <= 90) :
  let g := aggregate fold_checks derive_improvements checks rubricScores
             onTime in
  0 <= total_score g /\ total_score g <= 100 /\
  total_score g
  == fold_right Qplus 0 (map score (rubric_scores g))
     + (if on_time_submitted g then 10 else 0) /\
  map category (rubric_scores g) = map category rubricScores /\
  map max_score (rubric_scores g) = map max_score rubricScores /\
  Forall (fun r => 0 <= score r /\ score r <= max_score r) (rubric_scores g) /\
  on_time_submitted g = onTime /\
  deterministic_checks g = checks.
Proof.
  cbv zeta. unfold aggregate.
  cbn [total_score rubric_scores on_time_submitted deterministic_checks].
  destruct (Hfold checks rubricScores) as (Hcat & Hmax & Hin).
  specialize (Hin Hrange).
  match goal with
  | |- 0 <= clamp 0 100 ?x /\ _ => destruct (total_in_bounds x) as [H0 H1]
  end.
  split; [exact H0|]. split; [exact H1|]. split.
  - apply total_not_clamped; [exact Hin|]. rewrite Hmax. exact Hpool.
  - repeat split; assumption.
Qed.

(** Without the conditions the total is still within [[0, 100]], but no
    longer the sum: scores beyond the pool are cut off at 100. *)
Lemma aggregate_total_bounded
    (checks : list DeterministicCheckResult)
    (rubricScores : list RubricScore) (onTime : bool) :
  let g := aggregate fold_checks derive_improvements checks rubricScores
             onTime in
  0 <= total_score g /\ total_score g <= 100.
Proof. cbv zeta. unfold aggregate. cbn [total_score]. apply total_in_bounds. Qed.

Variables DocumentModel PromptConfig : Type.
Variable evaluate :
  DocumentModel -> Category -> PromptConfig -> nat ->
  EvaluatorError + RawEvaluation.
Variable runChecks : DocumentModel -> list DeterministicCheckResult.

Lemma gradeAll_in_range (doc : DocumentModel) (cfg : PromptConfig) :
  Forall score_in_range (gradeAll evaluate doc cfg) /\
  fold_right Qplus 0 (map max_score (gradeAll evaluate doc cfg)) == 90.
Proof.
  unfold gradeAll, categories. simpl. split.
  - repeat constructor; apply gradeOrDegrade_in_range.
  - rewrite !(proj2 (gradeOrDegrade_in_range evaluate doc cfg _)).
    reflexivity.
Qed.

(** The same for the whole single-file pipeline, whatever the evaluator
    answers: nothing is assumed of its scores.  The result has the four
    categories of the table, and the total is the sum of their four
    scores and the on-time points. *)
Lemma gradeDocument_total (doc : DocumentModel) (cfg : PromptConfig)
    (onTime : bool) :
  keeps_weighting fold_checks ->
  let g := gradeDocument evaluate runChecks fold_checks derive_improvements
             doc cfg onTime in
  0 <= total_score g /\ total_score g <= 100 /\
  map category (rubric_scores g) = map category_name categories /\
  exists ethics scene template visual,
    rubric_scores g = [ethics; scene; template; visual] /\
    total_score g
    == score ethics + score scene + score template + score visual
       + (if onTime then 10 else 0).
Proof.
  intro Hfold. cbv zeta. unfold gradeDocument, aggregate.
  cbn [total_score rubric_scores on_time_submitted].
  destruct (gradeAll_in_range doc cfg) as [Hr Hm].
  destruct (Hfold (runChecks doc) (gradeAll evaluate doc cfg))
    as (Hcat & Hmax & Hin).
  specialize (Hin Hr).
  match goal with
  | |- 0 <= clamp 0 100 ?x /\ _ => destruct (total_in_bounds x) as [H0 H1]
  end.
  split; [exact H0|]. split; [exact H1|].
  assert (Hnames : map category
                     (fold_checks (runChecks doc) (gradeAll evaluate doc cfg))
                   = map category_name categories).
  { rewrite Hcat. unfold gradeAll. rewrite map_map. apply map_ext.
    intro c. apply gradeOrDegrade_category. }
  split; [exact Hnames|].
  assert (Htotal := @total_not_clamped _ onTime Hin).
  rewrite Hmax, Hm in Htotal. specialize (Htotal ltac:(apply Qle_refl)).
  destruct (fold_checks (runChecks doc) (gradeAll evaluate doc cfg))
    as [|e [|sc [|t [|v [|x rest]]]]]; try discriminate Hnames.
  exists e, sc, t, v. split; [reflexivity|].
  rewrite Htotal. simpl. ring.
Qed.

(** Folding by a table keeps the weighting, whatever the table and the
    checks. *)
Lemma fold_by_table_keeps_weighting
    (check_category : string -> option string) :
  keeps_weighting (fold_by_table check_category).
Proof.
  intros checks rubricScores. unfold fold_by_table.
  rewrite !map_map. cbn [category max_score].
  split; [reflexivity|]. split; [reflexivity|].
  intro H. induction H as [|r l [H0 H1] Hl IH]; simpl; constructor.
  - unfold score_in_range. cbn [score max_score].
    apply clamp_range. lra.
  - exact IH.
Qed.

End Total.

(* --------------------------------------------------------------------- *)
(** *** Bulk runner                                                       *)
(* --------------------------------------------------------------------- *)

Section BulkRunnerFacts.

Import Pipeline.
Local Open Scope Z_scope.

Variable bytes : Type.
Variable derive_student_name : string -> string.
Variable grade : bytes -> bool -> string + GradingResult.

Local Abbreviation grade_one := (grade_one derive_student_name grade).
Local Abbreviation runBulk := (runBulk derive_student_name grade).
Local Abbreviation runBulk_loop := (runBulk_loop derive_student_name grade).

Lemma count_app (p : StudentResult -> bool) (l1 l2 : list StudentResult) :
  count p (l1 ++ l2) = count p l1 + count p l2.
Proof.
  unfold count. rewrite filter_app, length_app. lia.
Qed.

Lemma count_partition (l : list StudentResult) :
  count success l + count (fun r => negb (success r)) l
  = Z.of_nat (List.length l).
Proof.
  unfold count.
  assert (H : (List.length (filter success l)
               + List.length (filter (fun r => negb (success r)) l)
               = List.length l)%nat).
  { induction l as [|r l IH]; simpl; [reflexivity|].
    destruct (success r); simpl; lia. }
  lia.
Qed.

(** The invariant of the loop: the counters of the report keep step with
    the entries appended. *)
Lemma runBulk_loop_spec (files : list (string * bytes)) (onTime : bool) :
  forall report,
    let rep := runBulk_loop files onTime report in
    let new := map (fun f => grade_one f onTime) files in
    results rep = (results report ++ new)%list /\
    total_files rep = total_files report + Z.of_nat (List.length files) /\
    successful rep = successful report + count success new /\
    failed rep = failed report + count (fun r => negb (success r)) new.
Proof.
  induction files as [|file rest IH]; intro report; cbv zeta.
  - simpl. rewrite app_nil_r. unfold count. simpl. repeat split; lia.
  - specialize (IH
      {| total_files := total_files report + 1;
         successful := if success (grade_one file onTime)
                       then successful report + 1 else successful report;
         failed := if success (grade_one file onTime)
                   then failed report else failed report + 1;
         results := (results report ++ [grade_one file onTime])%list |}).
    cbv zeta in IH. simpl in IH. destruct IH as (Hr & Ht & Hs & Hf).
    change (runBulk_loop (file :: rest) onTime report) with
      (runBulk_loop rest onTime
         {| total_files := total_files report + 1;
            successful := if success (grade_one file onTime)
                          then successful report + 1 else successful report;
            failed := if success (grade_one file onTime)
                      then failed report else failed report + 1;
            results := (results report ++ [grade_one file onTime])%list |}).
    rewrite Hr, Ht, Hs, Hf. simpl map.
    change (grade_one file onTime :: map (fun f => grade_one f onTime) rest)
      with ([grade_one file onTime]
              ++ map (fun f => grade_one f onTime) rest)%list.
    rewrite !count_app, <- app_assoc.
    assert (C1 : count success [grade_one file onTime]
                 = if success (grade_one file onTime) then 1 else 0).
    { unfold count. simpl. now destruct (success (grade_one file onTime)). }
    assert (C2 : count (fun r => negb (success r)) [grade_one file onTime]
                 = if success (grade_one file onTime) then 0 else 1).
    { unfold count. simpl. now destruct (success (grade_one file onTime)). }
    rewrite C1, C2.
    change (List.length (file :: rest)) with (S (List.length rest)).
    destruct (success (grade_one file onTime));
      repeat split; lia.
Qed.

Lemma filename_grade_one (file : string * bytes) (onTime : bool) :
  filename (grade_one file onTime) = fst file.
Proof.
  unfold Pipeline.grade_one. destruct (grade (snd file) onTime); reflexivity.
Qed.

(** C4. In the report of a bulk run, [successful] is the number of
    entries with [success] true, [failed] the number with [success]
    false, [total_files] is their sum and the length of [results], and
    the entries are those of the input files, in input order. *)
Lemma runBulk_results (files : list (string * bytes)) (onTime : bool) :
  results (runBulk files onTime) = map (fun f => grade_one f onTime) files.
Proof.
  unfold Pipeline.runBulk.
  destruct (runBulk_loop_spec files onTime
              {| total_files := 0; successful := 0; failed := 0;
                 results := [] |}) as (Hr & _).
  exact Hr.
Qed.

Theorem runBulk_counts (files : list (string * bytes)) (onTime : bool) :
  let rep := runBulk files onTime in
  successful rep = count success (results rep) /\
  failed rep = count (fun r => negb (success r)) (results rep) /\
  total_files rep = successful rep + failed rep /\
  total_files rep = Z.of_nat (List.length (results rep)) /\
  results rep = map (fun f => grade_one f onTime) files /\
  map filename (results rep) = map fst files.
Proof.
  cbv zeta. unfold Pipeline.runBulk.
  destruct (runBulk_loop_spec files onTime
              {| total_files := 0; successful := 0; failed := 0;
                 results := [] |}) as (Hr & Ht & Hs & Hf).
  simpl in Hr, Ht, Hs, Hf. rewrite Hr, Ht, Hs, Hf.
  pose proof (count_partition (map (fun f => grade_one f onTime) files)) as P.
  rewrite length_map in P |- *.
  repeat split; try lia.
  rewrite map_map. apply map_ext. intro f. apply filename_grade_one.
Qed.

(** C5. Every entry of the report of a bulk run carries a result exactly
    when its [success] is true and an error exactly when it is false, so
    the card of the display, which reads the result of every successful
    entry, never reads an absent one. *)
Theorem runBulk_result_iff_success (files : list (string * bytes))
    (onTime : bool) (r : StudentResult)
    (Hin : In r (results (runBulk files onTime))) :
  (result r <> None <-> success r = true) /\
  (error r <> None <-> success r = false) /\
  exists c, BulkResultsDisplay.StudentResultCard r = Normal c.
Proof.
  rewrite runBulk_results in Hin. apply in_map_iff in Hin.
  destruct Hin as (file & <- & _).
  unfold Pipeline.grade_one, BulkResultsDisplay.StudentResultCard.
  destruct (grade (snd file) onTime) as [msg|g]; simpl.
  - split; [split; [congruence | discriminate]|].
    split; [split; [reflexivity | discriminate]|]. eauto.
  - split; [split; [reflexivity | discriminate]|].
    split; [split; [congruence | discriminate]|]. eauto.
Qed.

End BulkRunnerFacts.

(* --------------------------------------------------------------------- *)
(** *** The report on the wire                                            *)
(* --------------------------------------------------------------------- *)

Section WireShapes.

Import Wire.
Local Open Scope string_scope.

Lemma conforms_Object (fields : list (string * (bool * shape)))
    (kvs : list (string * json)) :
  conforms (Object fields) (JObj kvs)
  = forallb (field_ok kvs) fields && forallb (declared_in fields) kvs.
Proof.
  simpl. f_equal.
  induction fields as [|[name [is_optional sh]] rest IH]; [reflexivity|].
  simpl forallb. rewrite <- IH. reflexivity.
Qed.

Lemma conforms_ArrayOf (item : shape) (l : list json) :
  conforms (ArrayOf item) (JArr l) = forallb (conforms item) l.
Proof. reflexivity. Qed.

Lemma conforms_map {A : Type} (s : shape) (enc : A -> json) (l : list A) :
  (forall a, conforms s (enc a) = true) ->
  conforms (ArrayOf s) (JArr (map enc l)) = true.
Proof.
  intro H. rewrite conforms_ArrayOf, forallb_forall.
  intros v Hv. apply in_map_iff in Hv. destruct Hv as (a & <- & _).
  apply H.
Qed.

Lemma conforms_strings (l : list string) :
  conforms (ArrayOf Str) (strings l) = true.
Proof. apply conforms_map. reflexivity. Qed.

Lemma conforms_Record (m : list (string * Q)) :
  conforms (MapOf Num) (of_Record m) = true.
Proof.
  unfold of_Record. simpl. rewrite forallb_forall.
  intros kv Hkv. apply in_map_iff in Hkv. destruct Hkv as (x & <- & _).
  reflexivity.
Qed.

(** Settles an object of known keys once the nested arrays are done. *)
Ltac object_conforms :=
  rewrite conforms_Object;
  repeat match goal with
         | |- context [@map ?A json ?f ?l] =>
             let m := fresh "m" in set (m := @map A json f l)
         end;
  cbv [forallb field_ok declared_in lookup existsb map fst snd app
       optional req opt String.eqb Ascii.eqb Bool.eqb andb orb];
  repeat match goal with m := _ |- _ => subst m end;
  repeat (rewrite ?conforms_strings, ?conforms_Record);
  try reflexivity.

Lemma conforms_EvidenceItem (e : EvidenceItem) :
  conforms EvidenceItem_shape (of_EvidenceItem e) = true.
Proof.
  destruct e as [n q [c|] [m|]]; reflexivity.
Qed.

Lemma conforms_DeterministicCheckResult (c : DeterministicCheckResult) :
  conforms CheckResult_shape (of_DeterministicCheckResult c) = true.
Proof.
  destruct c as [nm p sc mx ev mi [d|]];
    unfold of_DeterministicCheckResult, CheckResult_shape;
    cbn [check_name passed check_score check_max_score check_evidence
         check_missing_items details];
    object_conforms.
  all: rewrite (conforms_map _ _ _ conforms_EvidenceItem); reflexivity.
Qed.

Lemma conforms_DetectedEthicsPrinciple (d : DetectedEthicsPrinciple) :
  conforms DetectedEthicsPrinciple_shape (of_DetectedEthicsPrinciple d) = true.
Proof.
  destruct d as [p c m [n|]]; reflexivity.
Qed.

Lemma conforms_principles (l : list DetectedEthicsPrinciple) :
  conforms (ArrayOf DetectedEthicsPrinciple_shape) (principles l) = true.
Proof. apply conforms_map. exact conforms_DetectedEthicsPrinciple. Qed.

Lemma conforms_RubricScore (r : RubricScore) :
  conforms RubricScore_shape (of_RubricScore r) = true.
Proof.
  destruct r as [cat sc mx rs ev [ss|] [dp|] [ca|] [ff|] [mf|] [le|]];
    unfold of_RubricScore, RubricScore_shape;
    cbn [category score max_score reason evidence sub_scores
         detected_principles consistency_analysis found_fields
         missing_fields language_errors];
    object_conforms.
  all: rewrite ?(conforms_map _ _ _ conforms_EvidenceItem),
         ?conforms_principles, ?conforms_strings, ?conforms_Record;
    reflexivity.
Qed.

Lemma conforms_ImprovementSuggestion (i : ImprovementSuggestion) :
  conforms ImprovementSuggestion_shape (of_ImprovementSuggestion i) = true.
Proof. destruct i as [c s []]; reflexivity. Qed.

Lemma conforms_GradingResult (g : GradingResult) :
  conforms GradingResult_shape (of_GradingResult g) = true.
Proof.
  destruct g as [t rs mi im dc ot [gn|] [oe|]];
    unfold of_GradingResult, GradingResult_shape;
    cbn [total_score rubric_scores missing_items improvements
         deterministic_checks on_time_submitted grading_notes
         overall_evaluation];
    object_conforms.
  all: rewrite ?(conforms_map _ _ _ conforms_RubricScore),
         ?(conforms_map _ _ _ conforms_ImprovementSuggestion),
         ?(conforms_map _ _ _ conforms_DeterministicCheckResult),
         ?conforms_strings;
    reflexivity.
Qed.

Lemma conforms_StudentResult (s : StudentResult) :
  conforms StudentResult_shape (of_StudentResult s) = true.
Proof.
  destruct s as [n f ok [g|] [e|]];
    unfold of_StudentResult, StudentResult_shape;
    cbn [student_name filename success result error];
    object_conforms.
  all: rewrite ?conforms_GradingResult; reflexivity.
Qed.

Lemma conforms_BulkAnalyzeResponse (b : BulkAnalyzeResponse) :
  conforms BulkReport_shape (of_BulkAnalyzeResponse b) = true.
Proof.
  destruct b as [t s f rs];
    unfold of_BulkAnalyzeResponse, BulkReport_shape;
    cbn [total_files successful failed results];
    object_conforms.
  all: rewrite ?(conforms_map _ _ _ conforms_StudentResult); reflexivity.
Qed.

(** What conforming to an interface means: every declared field is
    there, unless it is optional, and conforms in turn; and every field
    that is there is a declared one. *)
Lemma conforms_Object_iff (fields : list (string * (bool * shape)))
    (v : json) :
  conforms (Object fields) v = true <->
  exists kvs, v = JObj kvs /\
    (forall name is_optional sh, In (name, (is_optional, sh)) fields ->
       match lookup name kvs with
       | Some x => conforms sh x = true
       | None => is_optional = true
       end) /\
    (forall key x, In (key, x) kvs ->
       exists is_optional sh, In (key, (is_optional, sh)) fields).
Proof.
  destruct v as [| | | | |kvs];
    try (split; [discriminate | intros (kvs & H & _); discriminate]).
  rewrite conforms_Object, andb_true_iff, !forallb_forall. split.
  - intros [Hf Hd]. exists kvs. split; [reflexivity|]. split.
    + intros name o sh Hin. specialize (Hf _ Hin). unfold field_ok in Hf.
      cbn [fst snd] in Hf. destruct (lookup name kvs); exact Hf.
    + intros key x Hin. specialize (Hd _ Hin). unfold declared_in in Hd.
      cbn [fst] in Hd. apply existsb_exists in Hd.
      destruct Hd as (k & Hk & Heq). apply String.eqb_eq in Heq. subst k.
      apply in_map_iff in Hk. destruct Hk as ([k [o sh]] & Hk & Hin').
      cbn [fst] in Hk. subst k. eauto.
  - intros (kvs' & [= <-] & Hf & Hd). split.
    + intros [name [o sh]] Hin. unfold field_ok. cbn [fst snd].
      specialize (Hf _ _ _ Hin). destruct (lookup name kvs); exact Hf.
    + intros [key x] Hin. unfold declared_in. cbn [fst].
      destruct (Hd _ _ Hin) as (o & sh & Hin').
      apply existsb_exists. exists key. split; [|apply String.eqb_refl].
      apply in_map_iff. exists (key, (o, sh)). split; [reflexivity | exact Hin'].
Qed.

Lemma conforms_ArrayOf_iff (item : shape) (v : json) :
  conforms (ArrayOf item) v = true <->
  exists l, v = JArr l /\ forall x, In x l -> conforms item x = true.
Proof.
  destruct v as [| | | |l|];
    try (split; [discriminate | intros (l & H & _); discriminate]).
  rewrite conforms_ArrayOf, forallb_forall. split.
  - intro H. exists l. split; [reflexivity | exact H].
  - intros (l' & [= <-] & H). exact H.
Qed.

Lemma conforms_MapOf_iff (item : shape) (v : json) :
  conforms (MapOf item) v = true <->
  exists kvs, v = JObj kvs /\
    forall key x, In (key, x) kvs -> conforms item x = true.
Proof.
  destruct v as [| | | | |kvs];
    try (split; [discriminate | intros (l & H & _); discriminate]).
  cbn [conforms]. rewrite forallb_forall. split.
  - intro H. exists kvs. split; [reflexivity|].
    intros key x Hin. apply (H _ Hin).
  - intros (l' & [= <-] & H) [key x] Hin. apply (H _ _ Hin).
Qed.

Lemma conforms_scalar (v : json) :
  (conforms Num v = true <-> exists q, v = JNum q) /\
  (conforms Str v = true <-> exists t, v = JStr t) /\
  (conforms Bool v = true <-> exists b, v = JBool b) /\
  (forall literals,
     conforms (OneOf literals) v = true <->
     exists t, v = JStr t /\ In t literals).
Proof.
  split; [|split; [|split]].
  - destruct v; simpl; split; try discriminate; eauto;
      intros [? H]; discriminate H.
  - destruct v; simpl; split; try discriminate; eauto;
      intros [? H]; discriminate H.
  - destruct v; simpl; split; try discriminate; eauto;
      intros [? H]; discriminate H.
  - intro literals.
    destruct v as [| | |s| |]; simpl; split; try discriminate;
      try (intros (t & H & _); discriminate H).
    + intro H. apply existsb_exists in H. destruct H as (t & Hin & Heq).
      apply String.eqb_eq in Heq. subst t. eauto.
    + intros (t & [= <-] & Hin). apply existsb_exists.
      exists s. split; [exact Hin | apply String.eqb_refl].
Qed.

(** C3. Every grading result and every bulk report, as the output
    boundary writes it, conforms to the interface the display layer
    declares for it: every mandatory field is there, every field that is
    there is a declared one, and so in turn for the nested rubric scores,
    evidence items, detected principles, improvements, deterministic
    checks and student results.  The declared fields are given here by
    name, with their optionality and type; and conforming is what the
    last four parts say it is. *)
Theorem report_has_declared_shape :
  (forall g : GradingResult,
     conforms GradingResult_shape (of_GradingResult g) = true) /\
  (forall b : BulkAnalyzeResponse,
     conforms BulkReport_shape (of_BulkAnalyzeResponse b) = true) /\
  GradingResult_shape
  = Object [("total_score", (false, Num));
            ("rubric_scores", (false, ArrayOf RubricScore_shape));
            ("missing_items", (false, ArrayOf Str));
            ("improvements", (false, ArrayOf ImprovementSuggestion_shape));
            ("deterministic_checks", (false, ArrayOf CheckResult_shape));
            ("on_time_submitted", (false, Bool));
            ("grading_notes", (true, Str));
            ("overall_evaluation", (true, Str))] /\
  RubricScore_shape
  = Object [("category", (false, Str)); ("score", (false, Num));
            ("max_score", (false, Num)); ("reason", (false, Str));
            ("evidence", (false, ArrayOf EvidenceItem_shape));
            ("sub_scores", (true, MapOf Num));
            ("detected_principles",
              (true, ArrayOf DetectedEthicsPrinciple_shape));
            ("consistency_analysis", (true, Str));
            ("found_fields", (true, ArrayOf Str));
            ("missing_fields", (true, ArrayOf Str));
            ("language_errors", (true, ArrayOf Str))] /\
  EvidenceItem_shape
  = Object [("slide_no", (false, Num)); ("quote", (false, Str));
            ("context", (true, Str)); ("comment", (true, Str))] /\
  DetectedEthicsPrinciple_shape
  = Object [("principle", (false, Str));
            ("correct_definition", (false, Bool));
            ("scene_match", (false, Bool)); ("note", (true, Str))] /\
  ImprovementSuggestion_shape
  = Object [("category", (false, Str)); ("suggestion", (false, Str));
            ("priority", (false, OneOf ["high"; "medium"; "low"]))] /\
  CheckResult_shape
  = Object [("check_name", (false, Str)); ("passed", (false, Bool));
            ("score", (false, Num)); ("max_score", (false, Num));
            ("evidence", (false, ArrayOf EvidenceItem_shape));
            ("missing_items", (false, ArrayOf Str));
            ("details", (true, Str))] /\
  StudentResult_shape
  = Object [("student_name", (false, Str)); ("filename", (false, Str));
            ("success", (false, Bool));
            ("result", (true, GradingResult_shape));
            ("error", (true, Str))] /\
  BulkReport_shape
  = Object [("total_files", (false, Num)); ("successful", (false, Num));
            ("failed", (false, Num));
            ("results", (false, ArrayOf StudentResult_shape))] /\
  (forall fields v,
     conforms (Object fields) v = true <->
     exists kvs, v = JObj kvs /\
       (forall name is_optional sh, In (name, (is_optional, sh)) fields ->
          match lookup name kvs with
          | Some x => conforms sh x = true
          | None => is_optional = true
          end) /\
       (forall key x, In (key, x) kvs ->
          exists is_optional sh, In (key, (is_optional, sh)) fields)) /\
  (forall item v,
     conforms (ArrayOf item) v = true <->
     exists l, v = JArr l /\ forall x, In x l -> conforms item x = true) /\
  (forall item v,
     conforms (MapOf item) v = true <->
     exists kvs, v = JObj kvs /\
       forall key x, In (key, x) kvs -> conforms item x = true) /\
  (forall v,
     (conforms Num v = true <-> exists q, v = JNum q) /\
     (conforms Str v = true <-> exists t, v = JStr t) /\
     (conforms Bool v = true <-> exists b, v = JBool b) /\
     (forall literals,
        conforms (OneOf literals) v = true <->
        exists t, v = JStr t /\ In t literals)).
Proof.
  split; [exact conforms_GradingResult|].
  split; [exact conforms_BulkAnalyzeResponse|].
  do 8 (split; [reflexivity|]).
  split; [exact conforms_Object_iff|].
  split; [exact conforms_ArrayOf_iff|].
  split; [exact conforms_MapOf_iff | exact conforms_scalar].
Qed.

(** An object with a misspelt, a missing or an undeclared field does not
    conform. *)
Example misnamed_field_rejected :
  conforms EvidenceItem_shape
    (JObj [("slide", JNum 1); ("quote", JStr "x")]) = false /\
  conforms EvidenceItem_shape (JObj [("slide_no", JNum 1)]) = false /\
  conforms EvidenceItem_shape
    (JObj [("slide_no", JNum 1); ("quote", JStr "x"); ("page", JNum 2)])
  = false /\
  conforms BulkReport_shape
    (JObj [("total_files", JNum 1); ("successful", JNum 0);
           ("failed", JNum 1);
           ("results", JArr [JObj [("student_name", JStr "a");
                                   ("file_name", JStr "a.pptx");
                                   ("success", JBool false)]])]) = false.
Proof. repeat split. Qed.

End WireShapes.

(* --------------------------------------------------------------------- *)
(** *** The theorems at work on sample data                               *)
(* --------------------------------------------------------------------- *)

Section AtWork.

Import Samples.
Local Open Scope Q_scope.

Example sample_sorted :
  BulkResultsDisplay.sortedResults (@BulkResultsDisplay.insertion_sort) report
  = Normal [mehmet; ayse; broken]
  /\ BulkResultsDisplay.sortedResults
       (@BulkResultsDisplay.binary_insertion_sort) report
     = Normal [mehmet; ayse; broken]
  /\ BulkResultsDisplay.sortedResults BulkResultsDisplay.merge_sort_le report
     = Normal [mehmet; ayse; broken]
  /\ BulkResultsDisplay.sortedResults BulkResultsDisplay.merge_sort_lt report
     = Normal [mehmet; ayse; broken].
Proof. repeat split; reflexivity. Qed.

(** Among the failed entries the order is the host's choice: procedures
    that all keep the contract disagree on it.  Binary insertion, asking
    only for negative answers, leaves them in the order of the report. *)
Example failed_entries_left_open :
  BulkResultsDisplay.sortedResults (@BulkResultsDisplay.insertion_sort)
    mixed_report
  = Normal [mehmet; ayse; unreadable; broken]
  /\ BulkResultsDisplay.sortedResults
       (@BulkResultsDisplay.binary_insertion_sort) mixed_report
     = Normal [mehmet; ayse; broken; unreadable]
  /\ BulkResultsDisplay.sortedResults BulkResultsDisplay.merge_sort_lt
       mixed_report
     = Normal [mehmet; ayse; broken; unreadable].
Proof. repeat split; reflexivity. Qed.

Example sample_average :
  BulkResultsDisplay.avgScore report = Normal (Some ((0 + 60 + 80) / 2)).
Proof. reflexivity. Qed.

Example stub_twice_max :
  option_map score
    (match Pipeline.gradeCategory twice_max tt Pipeline.SceneExplanation tt
     with inr rs => Some rs | inl _ => None end) = Some 50.
Proof. reflexivity. Qed.

Example stub_minus_five :
  option_map score
    (match Pipeline.gradeCategory minus_five tt Pipeline.SceneExplanation tt
     with inr rs => Some rs | inl _ => None end) = Some 0.
Proof. reflexivity. Qed.

Example bulk_isolation :
  let rep := Pipeline.runBulk (fun s => s) grade_stub files true in
  (total_files rep, successful rep, failed rep) = (3, 2, 1)%Z /\
  map success (results rep) = [true; false; true].
Proof. split; reflexivity. Qed.

Lemma report_has_results :
  Forall BulkResultsDisplay.has_result (results report).
Proof.
  repeat constructor; intro H; try discriminate H; eexists; reflexivity.
Defined.

Lemma score_colors_agree_witness :
  0 < 100 /\
  (Api.getScoreColor 85 100 = "text-green-600"%string
   <-> 80 * 100 <= 100 * 85).
Proof.
  split; [reflexivity|].
  exact (proj1 (proj2 (proj2 (proj2 (proj2
           (@score_colors_agree 85 100 eq_refl)))))).
Defined.

Lemma avgScore_is_mean_witness :
  let succeeded := filter success (results report) in
  exists avg,
    BulkResultsDisplay.avgScore report = Normal (Some avg) /\
    (succeeded = [] -> avg == 0) /\
    (succeeded <> [] ->
     avg == BulkResultsDisplay.sum_scores succeeded
            / inject_Z (Z.of_nat (List.length succeeded))).
Proof. exact (avgScore_is_mean report report_has_results). Defined.

Lemma sortedResults_order_witness :
  exists out,
    BulkResultsDisplay.sortedResults
      (@BulkResultsDisplay.binary_insertion_sort) report = Normal out /\
    Permutation (results report) out /\
    StronglySorted BulkResultsDisplay.display_order out /\
    (forall i j a b, (i < j)%nat ->
       nth_error out i = Some a -> nth_error out j = Some b ->
       (success a = false -> success b = false) /\
       (success a = true -> success b = true ->
        BulkResultsDisplay.score_of b <= BulkResultsDisplay.score_of a)).
Proof.
  exact (sortedResults_order report binary_insertion_sort_in_order
           report_has_results).
Defined.

Lemma evaluated_in_range :
  Forall Pipeline.score_in_range evaluated.
Proof. repeat constructor; discriminate. Defined.

(** With the sample weighting: 9 + 5 for the ethics principles, 40 for
    the scene, 8 + 2 + 3 for the template, 7.5 for the design, and 10 for
    being on time. *)
Lemma aggregate_total_witness :
  let g := Pipeline.aggregate (Pipeline.fold_by_table check_category)
             no_improvements checks evaluated true in
  map score (rubric_scores g) = [14; 40; 13; 15 # 2] /\
  total_score g == 14 + 40 + 13 + (15 # 2) + 10.
Proof.
  cbv zeta. split; [reflexivity|].
  destruct (@aggregate_total (Pipeline.fold_by_table check_category)
              no_improvements checks evaluated true
              (fold_by_table_keeps_weighting check_category)
              evaluated_in_range ltac:(discriminate))
    as (_ & _ & H & _).
  rewrite H. reflexivity.
Defined.

Lemma gradeCategory_clamps_witness :
  exists rs,
    Pipeline.gradeCategory twice_max tt Pipeline.EthicsPrinciples tt = inr rs
    /\ score rs
       = Pipeline.clamp 0 (Pipeline.category_max Pipeline.EthicsPrinciples)
           (Pipeline.category_max Pipeline.EthicsPrinciples * 2).
Proof.
  exact (proj2 (gradeCategory_clamps twice_max tt Pipeline.EthicsPrinciples tt)
           _ eq_refl).
Defined.

Lemma runBulk_result_iff_success_witness :
  let r := Pipeline.grade_one (fun s => s) grade_stub
             ("bozuk.pptx"%string, false) true in
  (result r <> None <-> success r = true) /\
  (error r <> None <-> success r = false) /\
  exists c, BulkResultsDisplay.StudentResultCard r = Normal c.
Proof.
  apply (@runBulk_result_iff_success bool (fun s => s) grade_stub files true).
  right. left. reflexivity.
Defined.

Lemma upload_accepts_by_extension_witness :
  let file := {| FileUpload.name := "Odev.PpTx"; FileUpload.size := 1024 |} in
  FileUpload.handleDrop false false false [file]
  = FileUpload.onFileSelect file.
Proof.
  cbv zeta.
  refine (proj1 (proj2 (proj2 (proj2 (proj2 (proj2
            (upload_accepts_by_extension [])))))
            false false _ [] eq_refl _)).
  exists "Odev"%string, "P"%char, "p"%char, "T"%char, "x"%char.
  split; [reflexivity|]. unfold FileUpload.is_letter. tauto.
Defined.

End AtWork.

(* --------------------------------------------------------------------- *)
(** *** Further properties: labels and classes                            *)
(* --------------------------------------------------------------------- *)

Section LabelFacts.

Import Labels.
Local Open Scope string_scope.

Lemma existsb_eqb_false (key : string) (l : list string) :
  ~ In key l -> existsb (String.eqb key) l = false.
Proof.
  intro H. induction l as [|x l IH]; simpl; [reflexivity|].
  destruct (String.eqb_spec key x) as [->|Hne].
  - exfalso. apply H. left. reflexivity.
  - apply IH. intro Hin. apply H. right. exact Hin.
Qed.

(** X1. The three known check names get their Turkish labels.  For a
    check name that is not the name of a property of [Object.prototype],
    [formatCheckName] returns a text: the name itself unless it is one of
    the three known check names; the text is not empty when the name is
    not; and formatting the text again changes nothing. *)
Theorem formatCheckName_stable (name : string)
    (Hname : ~ In name object_prototype_keys) :
  formatCheckName "page_numbers" = Text "Sayfa Numaraları" /\
  formatCheckName "ethics_principles" = Text "Etik İlkeleri" /\
  formatCheckName "template_fields" = Text "Şablon Alanları" /\
  exists s, formatCheckName name = Text s /\
    formatCheckName s = Text s /\
    (name <> "page_numbers" -> name <> "ethics_principles" ->
     name <> "template_fields" -> s = name) /\
    (name <> EmptyString -> s <> EmptyString).
Proof.
  do 3 (split; [reflexivity|]).
  unfold formatCheckName, read, names. cbn [own].
  destruct (String.eqb_spec "page_numbers" name) as [<-|H1].
  { eexists. split; [reflexivity|]. split; [reflexivity|].
    split; [|discriminate]. intro H. exfalso. apply H. reflexivity. }
  destruct (String.eqb_spec "ethics_principles" name) as [<-|H2].
  { eexists. split; [reflexivity|]. split; [reflexivity|].
    split; [|discriminate]. intros _ H. exfalso. apply H. reflexivity. }
  destruct (String.eqb_spec "template_fields" name) as [<-|H3].
  { eexists. split; [reflexivity|]. split; [reflexivity|].
    split; [|discriminate]. intros _ _ H. exfalso. apply H. reflexivity. }
  rewrite (existsb_eqb_false _ _ Hname). cbn [or_fallback].
  exists name. split; [reflexivity|]. split; [|auto].
  destruct (String.eqb_spec "page_numbers" name); [contradiction|].
  destruct (String.eqb_spec "ethics_principles" name); [contradiction|].
  destruct (String.eqb_spec "template_fields" name); [contradiction|].
  rewrite (existsb_eqb_false _ _ Hname). reflexivity.
Qed.

(** What the lookup does on an inherited name: no text comes back. *)
Example formatCheckName_constructor :
  formatCheckName "constructor" = NotText "constructor".
Proof. reflexivity. Qed.

(** X2. The three priorities get three different colour classes and three
    different labels; any other priority string gets the grey class, which
    none of the three has, but the label of the low priority. *)
Theorem priorities_told_apart (p q : string) :
  (In p ["high"; "medium"; "low"] -> In q ["high"; "medium"; "low"] ->
   (getPriorityColor p = getPriorityColor q -> p = q) /\
   (priority_label p = priority_label q -> p = q) /\
   getPriorityColor p <> "bg-gray-100 text-gray-800") /\
  (~ In p ["high"; "medium"; "low"] ->
   getPriorityColor p = "bg-gray-100 text-gray-800" /\
   priority_label p = priority_label "low" /\
   getPriorityColor p <> getPriorityColor "low").
Proof.
  split.
  - simpl. intros [<-|[<-|[<-|[]]]] [<-|[<-|[<-|[]]]];
      repeat split; intro H; try reflexivity; discriminate H.
  - intro H. unfold getPriorityColor, priority_label.
    destruct (String.eqb_spec p "high") as [->|H1];
      [exfalso; apply H; simpl; tauto|].
    destruct (String.eqb_spec p "medium") as [->|H2];
      [exfalso; apply H; simpl; tauto|].
    destruct (String.eqb_spec p "low") as [->|H3];
      [exfalso; apply H; simpl; tauto|].
    repeat split. discriminate.
Qed.

End LabelFacts.

Lemma not_a_prototype_key (key : string) :
  existsb (String.eqb key) Labels.object_prototype_keys = false ->
  ~ In key Labels.object_prototype_keys.
Proof.
  intros H Hin.
  assert (E : existsb (String.eqb key) Labels.object_prototype_keys = true).
  { apply existsb_exists. exists key. split; [exact Hin|].
    apply String.eqb_refl. }
  rewrite E in H. discriminate H.
Defined.

Lemma formatCheckName_stable_witness :
  Labels.formatCheckName "submission_check" = Labels.Text "submission_check"
  /\ Labels.formatCheckName "page_numbers" = Labels.Text "Sayfa Numaraları".
Proof.
  destruct (@formatCheckName_stable "submission_check"
              (@not_a_prototype_key "submission_check" eq_refl))
    as (Hpage & _ & _ & s & Hs & _ & Hother & _).
  split; [|exact Hpage].
  rewrite Hs. f_equal. apply Hother; discriminate.
Defined.

Lemma priorities_told_apart_witness :
  (Labels.getPriorityColor "high" = Labels.getPriorityColor "low"
   -> "high"%string = "low"%string) /\
  Labels.getPriorityColor "urgent" = "bg-gray-100 text-gray-800"%string.
Proof.
  destruct (priorities_told_apart "high" "low") as [H _].
  destruct (priorities_told_apart "urgent" "low") as [_ H'].
  split.
  - apply H; simpl; tauto.
  - apply H'. simpl. intros [E|[E|[E|[]]]]; discriminate E.
Defined.

(* --------------------------------------------------------------------- *)
(** *** Further properties: score colours and the score display           *)
(* --------------------------------------------------------------------- *)

Section ColourFacts.

Import Api Labels ScoreDisplay.
Local Open Scope Q_scope.
Local Open Scope string_scope.

(** Opens the three threshold tests of a colour function at [score]. *)
Ltac thresholds score maxScore Hpos :=
  let E80 := fresh "E80" in
  let E60 := fresh "E60" in
  let E40 := fresh "E40" in
  destruct (ge (score / maxScore * 100) 80) eqn:E80;
    [apply ge_spec, percentage_threshold in E80; [|exact Hpos]
    |apply ge_false, percentage_below in E80; [|exact Hpos];
     destruct (ge (score / maxScore * 100) 60) eqn:E60;
       [apply ge_spec, percentage_threshold in E60; [|exact Hpos]
       |apply ge_false, percentage_below in E60; [|exact Hpos];
        destruct (ge (score / maxScore * 100) 40) eqn:E40;
          [apply ge_spec, percentage_threshold in E40; [|exact Hpos]
          |apply ge_false, percentage_below in E40; [|exact Hpos]]]].

(** X3. A higher score never gets a worse colour: for a positive
    maximum, the colour band of [getScoreColor] is monotone in the score;
    full marks are green and zero is red. *)
Theorem getScoreColor_monotone (score1 score2 maxScore : Q)
    (Hpos : 0 < maxScore) (Hle : score1 <= score2) :
  (band (getScoreColor score1 maxScore)
   <= band (getScoreColor score2 maxScore))%nat /\
  getScoreColor maxScore maxScore = "text-green-600" /\
  getScoreColor 0 maxScore = "text-red-600".
Proof.
  split; [|split].
  - unfold getScoreColor. cbv zeta.
    thresholds score1 maxScore Hpos; thresholds score2 maxScore Hpos;
      try (vm_compute; lia); exfalso; lra.
  - unfold getScoreColor. cbv zeta.
    thresholds maxScore maxScore Hpos; try reflexivity; exfalso; lra.
  - unfold getScoreColor. cbv zeta.
    thresholds 0 maxScore Hpos; try reflexivity; exfalso; lra.
Qed.

(** X4. The colour depends on the ratio only: scaling score and maximum
    by the same positive factor leaves [getScoreColor] and
    [getScoreBgColor] unchanged. *)
Theorem getScoreColor_scale (score maxScore k : Q)
    (Hpos : 0 < maxScore) (Hk : 0 < k) :
  getScoreColor (k * score) (k * maxScore) = getScoreColor score maxScore /\
  getScoreBgColor (k * score) (k * maxScore) = getScoreBgColor score maxScore.
Proof.
  assert (Hkm : 0 < k * maxScore) by nra.
  unfold getScoreColor, getScoreBgColor. cbv zeta.
  thresholds score maxScore Hpos; thresholds (k * score) (k * maxScore) Hkm;
    try (split; reflexivity); exfalso; nra.
Qed.

(** X5. The ring of [CircularScore] and the number inside it agree: the
    stroke is green, yellow, orange or red exactly when the text class
    is. *)
Theorem stroke_matches_text (score maxScore : Q) :
  (getStrokeColor score maxScore = "#22c55e"
   <-> getScoreColor score maxScore = "text-green-600") /\
  (getStrokeColor score maxScore = "#eab308"
   <-> getScoreColor score maxScore = "text-yellow-600") /\
  (getStrokeColor score maxScore = "#f97316"
   <-> getScoreColor score maxScore = "text-orange-500") /\
  (getStrokeColor score maxScore = "#ef4444"
   <-> getScoreColor score maxScore = "text-red-600").
Proof.
  unfold getStrokeColor, getScoreColor. cbv zeta.
  destruct (ge (score / maxScore * 100) 80);
    [|destruct (ge (score / maxScore * 100) 60);
      [|destruct (ge (score / maxScore * 100) 40)]];
    repeat split; intro H; try reflexivity; discriminate H.
Qed.

(** X6. The fill of the progress bar takes the strong shade of the hue of
    the text: the replacements on the background class always find their
    pattern, and only the shade changes; the bar of a rubric section, which
    makes one replacement less, has the same class. *)
Theorem bar_class_matches_text (score maxScore : Q) :
  (forall r, Types.score r = score -> max_score r = maxScore ->
     RubricSection.bar_class r = bar_class score maxScore) /\
  ((bar_class score maxScore = "progress-bar-fill bg-green-500"
   /\ getScoreColor score maxScore = "text-green-600") \/
  (bar_class score maxScore = "progress-bar-fill bg-yellow-500"
   /\ getScoreColor score maxScore = "text-yellow-600") \/
  (bar_class score maxScore = "progress-bar-fill bg-orange-500"
   /\ getScoreColor score maxScore = "text-orange-500") \/
  (bar_class score maxScore = "progress-bar-fill bg-red-500"
   /\ getScoreColor score maxScore = "text-red-600")).
Proof.
  split.
  { intros r <- <-.
    unfold RubricSection.bar_class, bar_class, getScoreBgColor. cbv zeta.
    destruct (ge (Types.score r / max_score r * 100) 80); [reflexivity|].
    destruct (ge (Types.score r / max_score r * 100) 60); [reflexivity|].
    destruct (ge (Types.score r / max_score r * 100) 40); reflexivity. }
  unfold bar_class, getScoreBgColor, getScoreColor. cbv zeta.
  destruct (ge (score / maxScore * 100) 80);
    [left; split; reflexivity|].
  destruct (ge (score / maxScore * 100) 60);
    [right; left; split; reflexivity|].
  destruct (ge (score / maxScore * 100) 40);
    [right; right; left; split; reflexivity|].
  right; right; right; split; reflexivity.
Qed.

Lemma percentage_le_100 (score maxScore : Q) :
  0 < maxScore ->
  (percentage score maxScore <= 100 <-> score <= maxScore).
Proof.
  intro Hpos. unfold percentage.
  assert (Hne : ~ maxScore == 0) by (intro E; rewrite E in Hpos; discriminate).
  assert (E : score / maxScore * 100 * maxScore == 100 * score)
    by (field; exact Hne).
  split; intro H.
  - apply (Qmult_le_compat_r _ _ maxScore) in H;
      [|apply Qlt_le_weak; exact Hpos].
    rewrite E in H. lra.
  - apply (Qmult_le_r _ _ maxScore Hpos). rewrite E. lra.
Qed.

(** X7. Nothing clamps what is drawn: for a positive maximum the width
    of the progress bar is within 0 and 100 per cent exactly when the
    score is within 0 and the maximum, and (for a ring of positive
    circumference) the dash offset of the ring is within 0 and the
    circumference under the same condition, 0 at full marks. *)
Theorem drawn_within_bounds (PI score maxScore size : Q)
    (Hpos : 0 < maxScore) (Hring : 0 < circumference PI size) :
  (0 <= percentage score maxScore <-> 0 <= score) /\
  (percentage score maxScore <= 100 <-> score <= maxScore) /\
  (0 <= offset PI score maxScore size <-> score <= maxScore) /\
  (offset PI score maxScore size <= circumference PI size <-> 0 <= score) /\
  offset PI maxScore maxScore size == 0.
Proof.
  pose proof (percentage_le_100 score Hpos) as H100.
  pose proof (percentage_threshold score 0 Hpos) as H0.
  fold (percentage score maxScore) in H0.
  assert (Hne : ~ maxScore == 0) by (intro E; rewrite E in Hpos; discriminate).
  assert (Eoff : offset PI score maxScore size
                 == circumference PI size
                    * (1 - percentage score maxScore / 100)).
  { unfold offset, percentage. cbv zeta. ring. }
  assert (Hp0 : 0 <= percentage score maxScore <-> 0 <= score)
    by (rewrite H0; split; intro; lra).
  clear H0. split; [exact Hp0|].
  split; [exact H100|].
  set (c := circumference PI size) in *.
  set (p := percentage score maxScore) in *.
  assert (Hsign : forall q, 0 <= c * q <-> 0 <= q).
  { intro q. split; intro H; [|nra].
    destruct (Qlt_le_dec q 0) as [Hlt|Hge]; [exfalso; nra | exact Hge]. }
  assert (Ed : p == 100 * (p / 100)) by field.
  set (d := p / 100) in *.
  split; [|split].
  - rewrite Eoff, <- H100, Hsign. split; intro H; lra.
  - rewrite Eoff. rewrite <- Hp0.
    assert (E : c * (1 - d) <= c <-> 0 <= c * d)
      by (split; intro H; lra).
    rewrite E, Hsign. split; intro H; lra.
  - unfold offset. cbv zeta. field. exact Hne.
Qed.

End ColourFacts.

(* --------------------------------------------------------------------- *)
(** *** Further properties: the upload component                          *)
(* --------------------------------------------------------------------- *)

Section UploadFacts.

Import FileUpload FileSize.
Local Open Scope string_scope.

Lemma filter_is_pptx_all (files : list File) :
  filter is_pptx files = files <-> Forall (fun f => is_pptx f = true) files.
Proof.
  induction files as [|f l IH]; simpl.
  - split; [constructor | reflexivity].
  - destruct (is_pptx f) eqn:E.
    + split; intro H.
      * injection H as H. constructor; [exact E | apply IH, H].
      * inversion H; subst. f_equal. apply IH. assumption.
    + split; intro H.
      * exfalso.
        assert (L : (List.length (filter is_pptx l) <= List.length l)%nat)
          by apply filter_length_le.
        rewrite H in L. simpl in L. lia.
      * inversion H; subst. congruence.
Qed.

(** X8. [validateFiles] works file by file: validating a concatenation
    gives the concatenation of the validations, validating twice changes
    nothing, no file is added, and a list comes back unchanged exactly when
    every name in it ends with ".pptx" up to letter case. *)
Theorem validateFiles_algebra (a b : list File) :
  validateFiles (a ++ b) = (validateFiles a ++ validateFiles b)%list /\
  validateFiles (validateFiles a) = validateFiles a /\
  (List.length (validateFiles a) <= List.length a)%nat /\
  (validateFiles a = a <-> Forall (fun f => ends_with_pptx_ci (name f)) a).
Proof.
  rewrite !validateFiles_filter. split; [apply filter_app|].
  split.
  { induction a as [|f l IH]; simpl; [reflexivity|].
    destruct (is_pptx f) eqn:E; simpl; [rewrite E; f_equal|]; exact IH. }
  split; [apply filter_length_le|].
  rewrite filter_is_pptx_all. split; intro H;
    (eapply Forall_impl; [|exact H]); intros f Hf; apply is_pptx_iff, Hf.
Qed.

(** X9. With several files allowed (and the callback supplied), a drop
    never hands on a single file and never an empty list: either the
    non-empty list of exactly the files with a ".pptx" name is handed on,
    the others dropped without notice, or, when no file has such a name,
    the user is alerted; a disabled component or an empty drop does
    nothing. *)
Theorem multiple_drop (disabled : bool) (files : list File) :
  (forall f, handleDrop disabled true true files <> onFileSelect f) /\
  (forall fs, handleDrop disabled true true files = onFilesSelect fs ->
     fs <> [] /\ fs = filter is_pptx files /\
     Forall (fun f => ends_with_pptx_ci (name f)) fs) /\
  (forall msg, handleDrop disabled true true files = alert msg ->
     disabled = false /\ files <> [] /\
     Forall (fun f => ~ ends_with_pptx_ci (name f)) files) /\
  (handleDrop disabled true true files = Nothing <->
   disabled = true \/ files = []).
Proof.
  unfold handleDrop. destruct disabled.
  { repeat split; try discriminate; auto. }
  destruct files as [|file rest].
  { repeat split; try discriminate; auto. }
  cbn [andb]. cbv zeta. rewrite validateFiles_filter.
  destruct (filter is_pptx (file :: rest)) as [|v vs] eqn:E.
  - change (0 <? List.length (@nil File))%nat with false. cbv iota.
    split; [discriminate|]. split; [discriminate|]. split.
    + intros msg _. split; [reflexivity|]. split; [discriminate|].
      apply Forall_forall. intros f Hf Hext. apply is_pptx_iff in Hext.
      assert (Hin : In f (filter is_pptx (file :: rest)))
        by (apply filter_In; split; assumption).
      rewrite E in Hin. exact Hin.
    + split; [discriminate|]. intros [H|H]; discriminate H.
  - change (0 <? List.length (v :: vs))%nat with true. cbv iota.
    split; [discriminate|]. split.
    + intros fs H. injection H as <-. split; [discriminate|].
      split; [reflexivity|]. rewrite <- E. apply Forall_forall.
      intros f Hf. apply filter_In in Hf. apply is_pptx_iff, Hf.
    + split; [discriminate|]. split; [discriminate|].
      intros [H|H]; discriminate H.
Qed.

(** X10. A drop on an enabled component and a selection in the file dialog
    do the same thing with the same files; and when only one file is
    allowed, what happens depends on the first file alone: the others are
    dropped without notice, and a first file with another name alerts even
    if a later one has a ".pptx" name. *)
Theorem drop_and_selection (multiple has_onFilesSelect : bool)
    (files : list File) :
  handleDrop false multiple has_onFilesSelect files
  = handleFileChange multiple has_onFilesSelect (Some files) /\
  (multiple && has_onFilesSelect = false ->
   forall file rest,
     files = file :: rest ->
     handleDrop false multiple has_onFilesSelect files
     = handleDrop false multiple has_onFilesSelect [file] /\
     (~ ends_with_pptx_ci (name file) ->
      handleDrop false multiple has_onFilesSelect files = alert only_pptx_msg)).
Proof.
  split.
  - unfold handleDrop, handleFileChange. destruct files; reflexivity.
  - intros Hm file rest ->. unfold handleDrop. rewrite Hm. split; [reflexivity|].
    intro Hext. destruct (endsWith (toLowerCase (name file)) ".pptx") eqn:E;
      [|reflexivity].
    exfalso. apply Hext, is_pptx_iff. exact E.
Qed.

Local Open Scope Z_scope.

Lemma app_string_assoc (a b c : string) :
  ((a ++ b) ++ c = a ++ (b ++ c))%string.
Proof. induction a as [|x a IH]; simpl; [reflexivity | now rewrite IH]. Qed.

Lemma tenths_near (num den : Z) :
  0 < den ->
  2 * den * tenths num den <= 20 * num + den < 2 * den * tenths num den + 2 * den.
Proof.
  intro Hden. unfold tenths.
  pose proof (Z.div_mod (20 * num + den) (2 * den)) as Hdm.
  pose proof (Z.mod_pos_bound (20 * num + den) (2 * den)) as Hb.
  lia.
Qed.

(** X11. The size shown for a file is exact below 1024 bytes and otherwise
    the size in KB (below 1024 * 1024 bytes) or in MB, to one decimal: the
    number shown, [n / 10] with last digit [n mod 10], is at most one
    twentieth of a unit away from the exact size, is at least 1.0, and in
    KB at most 1024.0. *)
Theorem formatFileSize_accuracy (bytes : Z) (Hsize : 0 <= bytes) :
  (bytes < 1024 ->
   formatFileSize bytes = (integer_text bytes ++ " B")%string) /\
  (1024 <= bytes < 1024 * 1024 ->
   exists n,
     formatFileSize bytes
     = (integer_text (n / 10) ++ "." ++ integer_text (n mod 10) ++ " KB")%string
     /\ - 1024 <= 20 * bytes - 2 * 1024 * n < 1024
     /\ 10 <= n <= 10240) /\
  (1024 * 1024 <= bytes ->
   exists n,
     formatFileSize bytes
     = (integer_text (n / 10) ++ "." ++ integer_text (n mod 10) ++ " MB")%string
     /\ - (1024 * 1024) <= 20 * bytes - 2 * (1024 * 1024) * n < 1024 * 1024
     /\ 10 <= n).
Proof.
  unfold formatFileSize. split; [|split].
  - intro H. destruct (Z.ltb_spec bytes 1024); [reflexivity | lia].
  - intros [H1 H2].
    destruct (Z.ltb_spec bytes 1024); [lia|].
    destruct (Z.ltb_spec bytes (1024 * 1024)); [|lia].
    exists (tenths bytes 1024). unfold toFixed1. cbv zeta.
    pose proof (@tenths_near bytes 1024 eq_refl) as T.
    split; [now rewrite !app_string_assoc|]. lia.
  - intro H1.
    destruct (Z.ltb_spec bytes 1024); [lia|].
    destruct (Z.ltb_spec bytes (1024 * 1024)); [lia|].
    exists (tenths bytes (1024 * 1024)). unfold toFixed1. cbv zeta.
    pose proof (@tenths_near bytes (1024 * 1024) eq_refl) as T.
    split; [now rewrite !app_string_assoc|]. lia.
Qed.

(** The largest size still shown in KB reads as 1024.0 KB. *)
Example formatFileSize_edge :
  formatFileSize (1024 * 1024 - 1) = "1024.0 KB"%string /\
  formatFileSize 1280 = "1.3 KB"%string /\
  formatFileSize 0 = "0 B"%string.
Proof. repeat split. Qed.

End UploadFacts.

(* --------------------------------------------------------------------- *)
(** *** Further properties: the rubric section                            *)
(* --------------------------------------------------------------------- *)

Section RubricFacts.

Import Labels RubricSection.
Local Open Scope string_scope.

Lemma own_In (table : list (string * string)) (key v : string) :
  own table key = Some v -> In (key, v) table.
Proof.
  induction table as [|[k x] rest IH]; simpl; [discriminate|].
  destruct (String.eqb_spec k key) as [->|Hne].
  - intro H. injection H as ->. left. reflexivity.
  - intro H. right. apply IH, H.
Qed.

Lemma own_None (table : list (string * string)) (key : string) :
  own table key = None <-> ~ In key (map fst table).
Proof.
  induction table as [|[k x] rest IH]; simpl.
  - split; [tauto | reflexivity].
  - destruct (String.eqb_spec k key) as [->|Hne].
    + split; [discriminate | intro H; exfalso; apply H; left; reflexivity].
    + rewrite IH. split; intro H; [intros [E|Hin]; tauto | tauto].
Qed.

Lemma replace_underscores_clean (key : string) :
  has_underscore (replace_underscores key) = false /\
  String.length (replace_underscores key) = String.length key.
Proof.
  induction key as [|c rest [IH1 IH2]]; simpl; [split; reflexivity|].
  rewrite IH1, IH2. split; [|reflexivity].
  destruct (Ascii.eqb c "_") eqn:E; [reflexivity|].
  rewrite E. reflexivity.
Qed.

Lemma replace_underscores_fixed (key : string) :
  has_underscore key = false -> replace_underscores key = key.
Proof.
  induction key as [|c rest IH]; simpl; [reflexivity|].
  destruct (Ascii.eqb c "_"); simpl; [discriminate|].
  intro H. now rewrite IH.
Qed.

Lemma translations_clean :
  forallb (fun kv => negb (has_underscore (snd kv))
                     && negb (String.eqb (snd kv) EmptyString))
    translations = true.
Proof. reflexivity. Qed.

Lemma get_replace_underscores (key : string) :
  forall i,
    String.get i (replace_underscores key)
    = match String.get i key with
      | Some c => Some (if Ascii.eqb c "_" then " "%char else c)
      | None => None
      end.
Proof.
  induction key as [|c rest IH]; intro i; simpl; [reflexivity|].
  destruct i as [|i]; [reflexivity | apply IH].
Qed.

Lemma has_underscore_get (s : string) :
  has_underscore s = false -> forall i, String.get i s <> Some "_"%char.
Proof.
  induction s as [|c rest IH]; simpl; intros H i; [discriminate|].
  apply orb_false_iff in H. destruct H as [Hc Hrest].
  destruct i as [|i].
  - intros [= ->]. discriminate Hc.
  - apply IH, Hrest.
Qed.

(** X12. The fifteen known sub-score keys get their translations.  For a
    sub-score key that is not the name of a property of
    [Object.prototype], [formatSubScoreKey] returns a text in which no
    character is an underscore; for a key that is not one of the fifteen,
    the text is the key itself with each underscore turned into a space,
    every other character kept in its place (so a key without underscores
    is shown as it is). *)
Theorem formatSubScoreKey_clean (key : string)
    (Hkey : ~ In key object_prototype_keys) :
  (forall k v,
     In (k, v)
       [("ozgulluk", "Ozgulluk");
        ("ozgulluk_detay", "Ozgulluk ve Detay");
        ("tutarlilik", "Tutarlilik");
        ("ic_tutarlilik", "Ic Tutarlilik");
        ("etik_baglantisi", "Etik Baglantisi");
        ("specificity", "Ozgulluk");
        ("coherence", "Tutarlilik");
        ("ethical_link", "Etik Baglantisi");
        ("ilke_tanimi_dogrulugu", "Ilke Tanimi Dogrulugu");
        ("ilke_sahne_uyumu", "Ilke-Sahne Uyumu");
        ("aciklama_kalitesi", "Aciklama Kalitesi");
        ("gerekli_alanlar", "Gerekli Alanlar");
        ("format_duzen", "Format ve Duzen");
        ("metin_kalitesi", "Metin Kalitesi");
        ("duzen_organizasyon", "Duzen ve Organizasyon")] ->
     formatSubScoreKey k = Text v) /\
  exists s, formatSubScoreKey key = Text s /\
    has_underscore s = false /\
    (forall i, String.get i s <> Some "_"%char) /\
    (~ In key
         ["ozgulluk"; "ozgulluk_detay"; "tutarlilik"; "ic_tutarlilik";
          "etik_baglantisi"; "specificity"; "coherence"; "ethical_link";
          "ilke_tanimi_dogrulugu"; "ilke_sahne_uyumu"; "aciklama_kalitesi";
          "gerekli_alanlar"; "format_duzen"; "metin_kalitesi";
          "duzen_organizasyon"] ->
     s = replace_underscores key /\
     String.length s = String.length key /\
     (forall i,
        String.get i s
        = match String.get i key with
          | Some c => Some (if Ascii.eqb c "_" then " "%char else c)
          | None => None
          end) /\
     (has_underscore key = false -> s = key)).
Proof.
  split.
  { intros k v Hin. simpl in Hin.
    repeat (destruct Hin as [[= <- <-] | Hin]; [reflexivity|]).
    destruct Hin. }
  unfold formatSubScoreKey, read.
  destruct (own translations key) as [v|] eqn:E.
  - apply own_In in E.
    pose proof translations_clean as C. rewrite forallb_forall in C.
    specialize (C _ E). cbn [snd] in C.
    apply andb_true_iff in C. destruct C as [C1 C2].
    apply negb_true_iff in C1, C2.
    exists v. cbn [or_fallback]. rewrite C2. split; [reflexivity|].
    split; [exact C1|]. split; [exact (has_underscore_get _ C1)|].
    intro H. exfalso. apply H.
    change (In key (map fst translations)).
    apply in_map_iff. exists (key, v). split; [reflexivity | exact E].
  - rewrite (existsb_eqb_false _ _ Hkey). cbn [or_fallback].
    exists (replace_underscores key). split; [reflexivity|].
    destruct (replace_underscores_clean key) as [H1 H2].
    split; [exact H1|]. split; [exact (has_underscore_get _ H1)|].
    intros _. split; [reflexivity|].
    split; [exact H2|]. split; [apply get_replace_underscores|].
    apply replace_underscores_fixed.
Qed.

(** X13. The expanded section can come out with nothing to see: that
    happens exactly when there is no sub-score table, no evidence, no
    consistency text, no field and no language error to list, and the list
    of detected principles is present but empty; the presence of that
    empty list is what withholds the "no detail" notice.  Without it the
    expanded section always shows something. *)
Theorem expanded_empty (r : RubricScore) :
  (forallb (fun b => negb (visible b)) (expanded r) = true <->
   sub_scores r = None /\ evidence r = [] /\
   truthy_text (consistency_analysis r) = false /\
   non_empty (found_fields r) = [] /\ non_empty (missing_fields r) = [] /\
   non_empty (language_errors r) = [] /\
   detected_principles r = Some []) /\
  (detected_principles r = None ->
   exists b, In b (expanded r) /\ visible b = true).
Proof.
  unfold expanded.
  destruct r as [cat sc mx rs ev ss dp ca ff mf le].
  cbn [sub_scores detected_principles consistency_analysis found_fields
       missing_fields language_errors evidence].
  split.
  - destruct ss as [ss|]; [split; [discriminate | intros (H & _); discriminate]|].
    destruct ev as [|e ev];
      [|split; [rewrite !forallb_app; cbn; rewrite !andb_false_r; discriminate
               | intros (_ & H & _); discriminate]].
    destruct dp as [[|d dp]|]; cbn [non_empty present negb andb app];
      [ | split; [discriminate | intros (_ & _ & _ & _ & _ & _ & H); discriminate]
        | ].
    + destruct ca as [ca|]; cbn [truthy_text];
        [destruct (String.eqb ca EmptyString); cbn [negb app];
         [|split; [discriminate | intros (_ & _ & H & _); discriminate]]|];
        (destruct ff as [[|f ff]|], mf as [[|m mf]|], le as [[|l le]|];
         cbn; split; intro H; try discriminate H;
         try (repeat split; reflexivity);
         try (destruct H as (_ & _ & _ & H1 & H2 & H3 & _); discriminate)).
    + split; [|intros (_ & _ & _ & _ & _ & _ & H); discriminate].
      rewrite !forallb_app. cbn [truthy_text negb andb].
      destruct ca as [ca|]; cbn [truthy_text];
        [destruct (String.eqb ca EmptyString); cbn [negb app andb forallb]|];
        rewrite ?forallb_app; cbn; rewrite ?andb_false_r; discriminate.
  - intros ->.
    destruct ss as [ss|].
    { exists (SubScores ss). split; [|reflexivity].
      rewrite in_app_iff. left. left. reflexivity. }
    destruct ev as [|e ev].
    + destruct (truthy_text ca) eqn:T.
      * destruct ca as [text|]; [|discriminate T].
        exists (Consistency text). split; [|reflexivity].
        rewrite !in_app_iff. right. right. left.
        rewrite T. left. reflexivity.
      * exists NoDetail. split; [|reflexivity].
        rewrite !in_app_iff. do 6 right.
        cbn [present negb andb]. left. reflexivity.
    + exists (Evidence (e :: ev)). split; [|reflexivity].
      rewrite !in_app_iff. do 5 right. left. left. reflexivity.
Qed.

End RubricFacts.

(* --------------------------------------------------------------------- *)
(** *** Further properties: the bulk results display                      *)
(* --------------------------------------------------------------------- *)

Section BulkFacts.

Import BulkResultsDisplay.
Local Open Scope Q_scope.

(** X16. The best student comes first: with a host that keeps the
    contract of the sort, when any entry succeeded, the first entry of the
    sorted list succeeded and no successful entry has a higher total
    score. *)
Theorem top_scorer_first (sort : Array_prototype_sort)
    (rep : BulkAnalyzeResponse)
    (first : StudentResult) (rest : list StudentResult)
    (Hhost : sorts_in_order sort)
    (Hwf : Forall has_result (results rep))
    (Hsorted : sortedResults sort rep = Normal (first :: rest)) :
  forall r, In r (results rep) -> success r = true ->
    success first = true /\ score_of r <= score_of first.
Proof.
  intros r Hr Hs.
  destruct (host_sorts_results rep Hhost Hwf) as (out & Hout & Hp & _ & Hss).
  rewrite Hsorted in Hout.
  injection Hout as <-.
  apply (Permutation_in _ Hp) in Hr.
  inversion Hss as [|? ? _ Hfa]; subst.
  destruct Hr as [<-|Hr].
  - split; [exact Hs | apply Qle_refl].
  - rewrite Forall_forall in Hfa. destruct (Hfa r Hr) as [Hf Ht].
    destruct (success first) eqn:E.
    + split; [reflexivity | apply Ht; auto].
    + rewrite (Hf eq_refl) in Hs. discriminate.
Qed.

End BulkFacts.

(* --------------------------------------------------------------------- *)
(** *** Further properties: the page                                      *)
(* --------------------------------------------------------------------- *)

Section PageFacts.

Import Page.
Local Open Scope string_scope.

Variable StatusToString : Z -> string.

Lemma or_else_truthy (a : value) (b : string) :
  b <> EmptyString -> truthy (Some (or_else a b)) = true.
Proof.
  intro Hb. unfold or_else.
  destruct (truthy a) eqn:E.
  - destruct a as [v|]; [exact E | discriminate E].
  - simpl. destruct (String.eqb_spec b EmptyString); [contradiction | reflexivity].
Qed.

Lemma failed_shows_error (st : State) (message : json) :
  truthy (Some message) = true ->
  status (failed st message) = error /\
  error_card (failed st message) = true /\
  render (failed st message) = UploadForm /\
  result (failed st message) = result st /\
  upload_disabled (failed st message) = true.
Proof.
  intro H. unfold error_card, render, upload_disabled, failed.
  cbn [status error_message mode result bulkResult is_idle negb].
  rewrite H. destruct (mode st); repeat split; reflexivity.
Qed.

Lemma caught_shows_error {A : Type} (st : State) (outcome : Api.settled A) :
  (forall a, outcome <> Api.Resolved a) ->
  status (caught StatusToString st outcome) = error /\
  error_card (caught StatusToString st outcome) = true /\
  render (caught StatusToString st outcome) = UploadForm /\
  result (caught StatusToString st outcome) = result st /\
  upload_disabled (caught StatusToString st outcome) = true.
Proof.
  intro H. destruct outcome as [a|e| |]; [exfalso; exact (H a eq_refl)| | |];
    apply failed_shows_error; reflexivity.
Qed.

(** X17. However [analyzePresentation] settles, [handleAnalyze] with a
    file selected ends either in the status 'complete' with a result
    stored and the error cleared, the result view being what a page in
    single mode then shows, or in the status 'error' on the upload form
    with the error card shown and the stored result untouched; it never
    leaves the page in 'uploading' or 'analyzing'.  Without a file it
    changes nothing. *)
Theorem handleAnalyze_settles (st : State) (outcome : Api.settled json) :
  (selectedFile st = None -> handleAnalyze StatusToString st outcome = st) /\
  (selectedFile st <> None ->
   let st' := handleAnalyze StatusToString st outcome in
   mode st' = mode st /\ selectedFile st' = selectedFile st /\
   ((status st' = complete /\ error_message st' = None /\
     exists r, result st' = Some r /\ truthy (Some r) = true /\
       (mode st = single -> render st' = ResultsDisplay r))
    \/
    (status st' = error /\ error_card st' = true /\
     result st' = result st /\ render st' = UploadForm))).
Proof.
  unfold handleAnalyze. split.
  - intros ->. reflexivity.
  - intro Hfile. destruct (selectedFile st) as [file|] eqn:Ef; [|congruence].
    cbv zeta.
    assert (Hfailed : forall m, truthy (Some m) = true ->
              mode (failed st m) = mode st /\
              selectedFile (failed st m) = Some file /\
              ((status (failed st m) = complete /\
                error_message (failed st m) = None /\
                exists r, result (failed st m) = Some r /\
                  truthy (Some r) = true /\
                  (mode st = single -> render (failed st m) = ResultsDisplay r))
               \/
               (status (failed st m) = error /\
                error_card (failed st m) = true /\
                result (failed st m) = result st /\
                render (failed st m) = UploadForm))).
    { intros m Hm. destruct (failed_shows_error st m Hm) as (H1 & H2 & H3 & H4 & _).
      split; [reflexivity|]. split; [exact Ef|]. right. auto. }
    destruct outcome as [response|e| |];
      try (apply Hfailed; reflexivity).
    destruct (get response "success") as [success|];
      [|apply Hfailed; reflexivity].
    assert (Herr : forall P : State -> Prop,
              (forall m, truthy (Some m) = true -> P (failed st m)) ->
              P match get response "error" with
                | Normal e => failed st (or_else e "Analiz basarisiz oldu")
                | TypeError => failed st unexpected
                end).
    { intros P HP. destruct (get response "error") as [e|].
      - apply HP, or_else_truthy. discriminate.
      - apply HP. reflexivity. }
    destruct (truthy success); [|apply Herr; exact Hfailed].
    destruct (get response "result") as [res|]; [|apply Herr; exact Hfailed].
    destruct (truthy res) eqn:Eres; [|apply Herr; exact Hfailed].
    destruct res as [r|]; [|discriminate Eres].
    cbn. split; [reflexivity|]. split; [reflexivity|]. left.
    split; [reflexivity|]. split; [reflexivity|].
    exists r. split; [reflexivity|]. split; [exact Eres|].
    intros Hm. unfold render.
    cbn [mode status result bulkResult]. rewrite Hm, Eres. reflexivity.
Qed.

(** X18. After a failure the upload zone stays disabled: in the status
    'error' a drop changes nothing, and dismissing the error card or
    flipping the on-time switch does not enable the zone again; only the
    mode buttons (or a reset) do.  The analyse button, though, stays
    enabled in single mode while the file is still selected. *)
Theorem locked_after_error (st : State) (files : list FileUpload.File)
    (Herror : status st = error) :
  upload_disabled st = true /\
  drop st files = st /\
  upload_disabled (dismissError st) = true /\
  drop (dismissError st) files = dismissError st /\
  upload_disabled (toggleOnTime st) = true /\
  render (dismissError st) = UploadForm /\
  (forall m, upload_disabled (switchMode st m) = false) /\
  upload_disabled (handleReset st) = false /\
  (mode st = single -> selectedFile st <> None ->
   analyze_disabled st = false /\ analyze_disabled (dismissError st) = false).
Proof.
  assert (Hd : forall s, status s = error -> drop s files = s).
  { intros s Hs. unfold drop, upload_disabled. rewrite Hs.
    destruct (mode s); reflexivity. }
  split; [unfold upload_disabled; rewrite Herror; reflexivity|].
  split; [apply Hd, Herror|].
  split; [unfold upload_disabled; cbn; rewrite Herror; reflexivity|].
  split; [apply Hd; exact Herror|].
  split; [unfold upload_disabled; cbn; rewrite Herror; reflexivity|].
  split; [unfold render; cbn; rewrite Herror; destruct (mode st); reflexivity|].
  split; [reflexivity|]. split; [reflexivity|].
  intros Hm Hf. unfold analyze_disabled. cbn. rewrite Hm.
  destruct (selectedFile st); [split; reflexivity | congruence].
Qed.

(** X19. An export never changes what the page shows: mode, status,
    files and results are as before and the exporting flag is off again,
    whether the export succeeded or not.  A file is downloaded exactly when
    files are selected and the call resolved, under the fixed name; a
    failure only stores a message, which the bulk results view, the only
    place the export can be started from, does not display. *)
Theorem export_keeps_view (st : State) (outcome : Api.settled string) :
  let st' := fst (handleExportExcel st outcome) in
  mode st' = mode st /\ status st' = status st /\
  result st' = result st /\ bulkResult st' = bulkResult st /\
  selectedFiles st' = selectedFiles st /\
  (selectedFiles st <> [] -> isExporting st' = false) /\
  (forall b, render st = BulkResultsDisplay b (isExporting st) ->
     selectedFiles st <> [] -> render st' = BulkResultsDisplay b false) /\
  (forall d, snd (handleExportExcel st outcome) = Some d <->
     selectedFiles st <> [] /\
     exists blob, outcome = Api.Resolved blob /\
       d = {| payload := blob; download_name := "ogrenci_puanlari.xlsx" |}) /\
  (selectedFiles st <> [] -> (forall blob, outcome <> Api.Resolved blob) ->
     error_card st' = true).
Proof.
  cbv zeta.
  assert (Hview : forall e b,
            render st = BulkResultsDisplay b (isExporting st) ->
            render (with_error st e false) = BulkResultsDisplay b false).
  { intros e b. unfold render, with_error.
    cbn [mode status result bulkResult isExporting].
    destruct (mode st), (status st), (result st) as [r|],
      (bulkResult st) as [x|]; try discriminate;
      try (destruct (truthy (Some r)); discriminate);
      destruct (truthy (Some x)); try discriminate;
      intro H; injection H as <-; reflexivity. }
  unfold handleExportExcel.
  destruct (selectedFiles st) as [|f fs] eqn:Ef.
  - cbn [fst snd]. rewrite Ef.
    do 5 (split; [reflexivity|]).
    split; [intro H; exfalso; apply H; reflexivity|].
    split; [intros b _ H; exfalso; apply H; reflexivity|].
    split; [|intro H; exfalso; apply H; reflexivity].
    intro d. split; [discriminate|].
    intros (H & _). exfalso. apply H. reflexivity.
  - assert (Hne : f :: fs <> []) by discriminate.
    destruct outcome as [blob|e| |]; cbn [fst snd];
      (split; [reflexivity|]); (split; [reflexivity|]);
      (split; [reflexivity|]); (split; [reflexivity|]);
      (split; [exact Ef|]); (split; [reflexivity|]);
      (split; [intros b H _; apply Hview; exact H|]).
    + split.
      * intro d. split.
        -- intro H. injection H as <-. split; [exact Hne|]. eauto.
        -- intros (_ & blob' & H & ->). injection H as <-. reflexivity.
      * intros _ H. exfalso. exact (H blob eq_refl).
    + split; [|reflexivity].
      intro d. split; [discriminate|].
      intros (_ & blob' & H & _). discriminate H.
    + split; [|reflexivity].
      intro d. split; [discriminate|].
      intros (_ & blob' & H & _). discriminate H.
    + split; [|reflexivity].
      intro d. split; [discriminate|].
      intros (_ & blob' & H & _). discriminate H.
Qed.

(** X20. A bulk analysis with files selected ends in 'complete' with
    whatever the call resolved with stored, unchecked: the bulk results
    view is shown for it in bulk mode unless the value is falsy (the JSON
    null, say), in which case the page shows the upload form again, with
    no error card and with the upload zone disabled.  A rejected call ends
    in 'error' with the error card shown.  Without files nothing
    changes. *)
Theorem handleBulkAnalyze_settles (st : State) (outcome : Api.settled json) :
  (selectedFiles st = [] -> handleBulkAnalyze StatusToString st outcome = st) /\
  (selectedFiles st <> [] ->
   let st' := handleBulkAnalyze StatusToString st outcome in
   (forall response, outcome = Api.Resolved response ->
      status st' = complete /\ bulkResult st' = Some response /\
      (mode st = bulk ->
       (truthy (Some response) = true ->
        render st' = BulkResultsDisplay response (isExporting st)) /\
       (truthy (Some response) = false ->
        render st' = UploadForm /\ error_card st' = false /\
        upload_disabled st' = true))) /\
   ((forall response, outcome <> Api.Resolved response) ->
      status st' = error /\ error_card st' = true /\
      render st' = UploadForm)).
Proof.
  unfold handleBulkAnalyze. split.
  - intros ->. reflexivity.
  - intro Hfiles. destruct (selectedFiles st) as [|f fs]; [congruence|].
    cbv zeta. split.
    + intros response ->. cbn. split; [reflexivity|]. split; [reflexivity|].
      intros Hm. unfold render, error_card, upload_disabled. cbn. rewrite Hm.
      split; intro H; rewrite H; repeat split.
    + intro H. destruct (@caught_shows_error json st outcome H) as (H1 & H2 & H3 & _).
      destruct outcome as [response|e| |];
        [exfalso; exact (H response eq_refl)| | |]; auto.
Qed.

(** The mode buttons and the reset lead to a clean upload form from
    any state: the form is shown, the upload zone is enabled, no error card
    is there, the analyse button is disabled for want of a file, and the
    on-time switch is off; resetting twice is resetting once, and the mode
    last chosen is the mode of the page. *)
Lemma reset_gives_clean_form (st : State) (m m' : UploadMode) :
  render (switchMode st m) = UploadForm /\
  render (handleReset st) = UploadForm /\
  upload_disabled (switchMode st m) = false /\
  error_card (switchMode st m) = false /\
  analyze_disabled (switchMode st m) = true /\
  onTime (switchMode st m) = false /\
  handleReset (handleReset st) = handleReset st /\
  switchMode (switchMode st m) m' = switchMode st m' /\
  switchMode st (mode st) = handleReset st /\
  (isExporting st = false -> switchMode st single = initial).
Proof.
  unfold render, upload_disabled, error_card, analyze_disabled,
    switchMode, handleReset, initial.
  cbn. destruct m, (mode st); repeat split; intros ->; reflexivity.
Qed.

End PageFacts.

Section PageInvariant.

Import Page.
Local Open Scope string_scope.

Variable StatusToString : Z -> string.

Lemma handleFileSelect_pptx (st : State) (file : FileUpload.File) :
  only_pptx st -> FileUpload.ends_with_pptx_ci (FileUpload.name file) ->
  only_pptx (handleFileSelect st file).
Proof.
  intros [H1 H2] Hf. split; [|exact H2].
  intros f E. cbn in E. injection E as <-. exact Hf.
Qed.

Lemma handleFilesSelect_pptx (st : State) (files : list FileUpload.File) :
  only_pptx st ->
  Forall (fun f => FileUpload.ends_with_pptx_ci (FileUpload.name f)) files ->
  only_pptx (handleFilesSelect st files).
Proof. intros [H1 H2] Hf. split; [exact H1 | exact Hf]. Qed.

Lemma drop_pptx (st : State) (files : list FileUpload.File) :
  only_pptx st -> only_pptx (drop st files).
Proof.
  intro H. unfold drop. destruct (mode st).
  - destruct (FileUpload.handleDrop (upload_disabled st) false false files)
      as [|file|fs|msg] eqn:E; try exact H.
    unfold FileUpload.handleDrop in E.
    destruct (upload_disabled st); [discriminate E|].
    destruct files as [|f0 rest]; [discriminate E|].
    cbn [andb] in E. apply single_selection in E; [|exact rest].
    destruct E as [-> Hext].
    apply handleFileSelect_pptx; assumption.
  - destruct (FileUpload.handleDrop (upload_disabled st) true true files)
      as [|file|fs|msg] eqn:E; try exact H.
    unfold FileUpload.handleDrop in E.
    destruct (upload_disabled st); [discriminate E|].
    destruct files as [|f0 rest]; [discriminate E|].
    cbn [andb] in E. cbv zeta in E.
    destruct (0 <? List.length (FileUpload.validateFiles (f0 :: rest)))%nat;
      [|discriminate E].
    injection E as <-.
    apply handleFilesSelect_pptx; [exact H|].
    rewrite validateFiles_filter. apply Forall_forall.
    intros f Hf. apply filter_In in Hf. apply is_pptx_iff, Hf.
Qed.

Lemma choose_pptx (st : State) (files : list FileUpload.File) :
  only_pptx st -> only_pptx (choose st files).
Proof.
  intro H. unfold choose. destruct (upload_disabled st) eqn:Ed; [exact H|].
  pose proof (drop_pptx files H) as Hd. unfold drop in Hd. rewrite Ed in Hd.
  assert (E : forall m h,
            FileUpload.handleFileChange m h (Some files)
            = FileUpload.handleDrop false m h files).
  { intros m h. unfold FileUpload.handleDrop, FileUpload.handleFileChange.
    destruct files; reflexivity. }
  rewrite !E. exact Hd.
Qed.

Lemma only_pptx_same (st st' : State) :
  selectedFile st' = selectedFile st -> selectedFiles st' = selectedFiles st ->
  only_pptx st -> only_pptx st'.
Proof. unfold only_pptx. intros -> ->. tauto. Qed.

Lemma handleAnalyze_selection (st : State) (outcome : Api.settled json) :
  selectedFile (handleAnalyze StatusToString st outcome) = selectedFile st /\
  selectedFiles (handleAnalyze StatusToString st outcome) = selectedFiles st.
Proof.
  unfold handleAnalyze. destruct (selectedFile st) eqn:Ef;
    [|rewrite Ef; split; reflexivity].
  destruct outcome as [response|e| |]; cbn; rewrite ?Ef;
    try (split; reflexivity).
  destruct (get response "success") as [success|]; cbn; rewrite ?Ef;
    [|split; reflexivity].
  destruct (if truthy success
            then match get response "result" with
                 | Normal res => if truthy res then res else None
                 | TypeError => None
                 end
            else None);
    [|destruct (get response "error")]; cbn; rewrite ?Ef; split; reflexivity.
Qed.

Lemma handleBulkAnalyze_selection (st : State) (outcome : Api.settled json) :
  selectedFile (handleBulkAnalyze StatusToString st outcome) = selectedFile st /\
  selectedFiles (handleBulkAnalyze StatusToString st outcome)
  = selectedFiles st.
Proof.
  unfold handleBulkAnalyze. destruct (selectedFiles st) eqn:Ef;
    [rewrite Ef; split; reflexivity|].
  destruct outcome as [response|e| |]; cbn; rewrite ?Ef; split; reflexivity.
Qed.

Lemma handleExportExcel_selection (st : State) (outcome : Api.settled string) :
  selectedFile (fst (handleExportExcel st outcome)) = selectedFile st /\
  selectedFiles (fst (handleExportExcel st outcome)) = selectedFiles st.
Proof.
  unfold handleExportExcel. destruct (selectedFiles st) eqn:Ef;
    [cbn; rewrite Ef; split; reflexivity|].
  destruct outcome as [blob|e| |]; cbn; rewrite ?Ef; split; reflexivity.
Qed.

Lemma step_pptx (st : State) (ev : event) :
  only_pptx st -> only_pptx (step StatusToString st ev).
Proof.
  intro H. destruct ev as [files|files|m| | |outcome|outcome|outcome|];
    cbn [step].
  - apply drop_pptx, H.
  - apply choose_pptx, H.
  - split; [discriminate | constructor].
  - exact H.
  - exact H.
  - apply (only_pptx_same _ (proj1 (handleAnalyze_selection st outcome))
             (proj2 (handleAnalyze_selection st outcome)) H).
  - apply (only_pptx_same _ (proj1 (handleBulkAnalyze_selection st outcome))
             (proj2 (handleBulkAnalyze_selection st outcome)) H).
  - apply (only_pptx_same _ (proj1 (handleExportExcel_selection st outcome))
             (proj2 (handleExportExcel_selection st outcome)) H).
  - split; [discriminate | constructor].
Qed.

(** X21. Whatever the user does and however the calls of the back end
    settle, the files the page holds for submission, the selected file and
    the selected files, all have a name ending with ".pptx" up to letter
    case: no other file can reach [analyzePresentation], [analyzeBulk] or
    [exportExcel]. *)
Theorem only_pptx_is_submitted (events : list event) :
  only_pptx (run StatusToString events).
Proof.
  unfold run.
  assert (H : only_pptx initial) by (split; [discriminate | constructor]).
  revert H. generalize initial.
  induction events as [|ev rest IH]; intros st H; cbn [fold_left];
    [exact H|].
  apply IH, step_pptx, H.
Qed.

End PageInvariant.

(* --------------------------------------------------------------------- *)
(** *** The further properties at work on sample data                     *)
(* --------------------------------------------------------------------- *)

Section MoreAtWork.

Import Samples MoreSamples.
Local Open Scope Q_scope.
Local Open Scope string_scope.

Lemma getScoreColor_monotone_witness :
  (Labels.band (Api.getScoreColor 60 100)
   <= Labels.band (Api.getScoreColor 85 100))%nat /\
  Api.getScoreColor 100 100 = "text-green-600" /\
  Api.getScoreColor 0 100 = "text-red-600".
Proof.
  apply getScoreColor_monotone; [reflexivity | discriminate].
Defined.

Lemma getScoreColor_scale_witness :
  Api.getScoreColor (5 * 15) (5 * 20) = Api.getScoreColor 15 20 /\
  Api.getScoreBgColor (5 * 15) (5 * 20) = Api.getScoreBgColor 15 20.
Proof. apply getScoreColor_scale; reflexivity. Defined.

Lemma bar_class_matches_text_witness :
  RubricSection.bar_class (rubric Pipeline.SceneExplanation 40)
  = ScoreDisplay.bar_class 40 50.
Proof.
  exact (proj1 (bar_class_matches_text 40 50)
           (rubric Pipeline.SceneExplanation 40) eq_refl eq_refl).
Defined.

Lemma drawn_within_bounds_witness :
  (0 <= ScoreDisplay.percentage 75 100 <-> 0 <= 75) /\
  (ScoreDisplay.percentage 75 100 <= 100 <-> 75 <= 100) /\
  (0 <= ScoreDisplay.offset (22 # 7) 75 100 120 <-> 75 <= 100) /\
  (ScoreDisplay.offset (22 # 7) 75 100 120
   <= ScoreDisplay.circumference (22 # 7) 120 <-> 0 <= 75) /\
  ScoreDisplay.offset (22 # 7) 100 100 120 == 0.
Proof. apply drawn_within_bounds; reflexivity. Defined.

Lemma multiple_drop_witness :
  [odev] <> [] /\ [odev] = filter FileUpload.is_pptx [odev; notes] /\
  Forall (fun f => FileUpload.ends_with_pptx_ci (FileUpload.name f)) [odev].
Proof.
  exact (proj1 (proj2 (multiple_drop false [odev; notes])) [odev] eq_refl).
Defined.

Lemma drop_and_selection_witness :
  FileUpload.handleDrop false false false [notes; odev]
  = FileUpload.handleDrop false false false [notes].
Proof.
  exact (proj1 (proj2 (drop_and_selection false false [notes; odev])
                  eq_refl notes [odev] eq_refl)).
Defined.

Lemma formatFileSize_accuracy_witness :
  exists n,
    FileSize.formatFileSize 2048
    = (FileSize.integer_text (n / 10) ++ "."
       ++ FileSize.integer_text (n mod 10) ++ " KB")
    /\ (- 1024 <= 20 * 2048 - 2 * 1024 * n < 1024)%Z
    /\ (10 <= n <= 10240)%Z.
Proof.
  apply (proj1 (proj2 (@formatFileSize_accuracy 2048 ltac:(discriminate)))).
  split; [discriminate | reflexivity].
Defined.

Lemma formatSubScoreKey_clean_witness :
  RubricSection.formatSubScoreKey "sunum_akisi" = Labels.Text "sunum akisi"
  /\ RubricSection.formatSubScoreKey "ic_tutarlilik"
     = Labels.Text "Ic Tutarlilik".
Proof.
  destruct (@formatSubScoreKey_clean "sunum_akisi"
              (@not_a_prototype_key "sunum_akisi" eq_refl))
    as (Hknown & s & Hs & _ & _ & Hother).
  split.
  - rewrite Hs. f_equal.
    destruct Hother as (-> & _); [|reflexivity].
    simpl.
    intros [H|[H|[H|[H|[H|[H|[H|[H|[H|[H|[H|[H|[H|[H|[H|[]]]]]]]]]]]]]]]];
      discriminate H.
  - apply Hknown. simpl. tauto.
Defined.

Lemma expanded_empty_witness :
  exists b, In b (RubricSection.expanded (rubric Pipeline.VisualDesign 7))
            /\ RubricSection.visible b = true.
Proof.
  exact (proj2 (expanded_empty (rubric Pipeline.VisualDesign 7)) eq_refl).
Defined.

Lemma top_scorer_first_witness :
  BulkResultsDisplay.has_result ayse /\
  (success mehmet = true /\
   BulkResultsDisplay.score_of ayse <= BulkResultsDisplay.score_of mehmet).
Proof.
  split; [intros _; eexists; reflexivity|].
  apply (@top_scorer_first (@BulkResultsDisplay.binary_insertion_sort) report
           mehmet [ayse; broken] binary_insertion_sort_in_order
           report_has_results eq_refl ayse).
  - right. left. reflexivity.
  - reflexivity.
Defined.

Lemma handleAnalyze_settles_witness :
  Page.render (Page.handleAnalyze (fun _ => EmptyString) ready
                 (Api.Resolved answer))
  = Page.ResultsDisplay (JObj [("total_score", JNum 75)]).
Proof.
  destruct (proj2 (handleAnalyze_settles (fun _ => EmptyString) ready
                     (Api.Resolved answer)) ltac:(discriminate))
    as (_ & _ & [(_ & _ & r & Hr & _ & Hview) | (Hs & _)]).
  - cbn in Hr. injection Hr as <-. apply Hview. reflexivity.
  - discriminate Hs.
Defined.

Lemma locked_after_error_witness :
  Page.status after_failure = Page.error /\
  Page.drop after_failure [odev] = after_failure /\
  Page.upload_disabled (Page.dismissError after_failure) = true.
Proof.
  split; [reflexivity|].
  destruct (@locked_after_error after_failure [odev] eq_refl)
    as (_ & H1 & H2 & _).
  split; assumption.
Defined.

Lemma export_keeps_view_witness :
  Page.render (fst (Page.handleExportExcel bulk_shown Api.RejectedTypeError))
  = Page.BulkResultsDisplay (JObj [("total_files", JNum 1)]) false.
Proof.
  destruct (export_keeps_view bulk_shown
              (@Api.RejectedTypeError string))
    as (_ & _ & _ & _ & _ & _ & Hview & _).
  apply Hview; [reflexivity | discriminate].
Defined.

Lemma handleBulkAnalyze_settles_witness :
  Page.render (Page.handleBulkAnalyze (fun _ => EmptyString) ready_bulk
                 (Api.Resolved JNull)) = Page.UploadForm /\
  Page.error_card (Page.handleBulkAnalyze (fun _ => EmptyString) ready_bulk
                     (Api.Resolved JNull)) = false /\
  Page.upload_disabled (Page.handleBulkAnalyze (fun _ => EmptyString)
                          ready_bulk (Api.Resolved JNull)) = true.
Proof.
  destruct (proj2 (handleBulkAnalyze_settles (fun _ => EmptyString) ready_bulk
                     (Api.Resolved JNull)) ltac:(discriminate))
    as [H _].
  destruct (H JNull eq_refl) as (_ & _ & Hm).
  apply (proj2 (Hm eq_refl)). reflexivity.
Defined.

Lemma reset_gives_clean_form_witness :
  Page.switchMode after_failure Page.single = Page.initial.
Proof.
  destruct (reset_gives_clean_form after_failure Page.single Page.single)
    as (_ & _ & _ & _ & _ & _ & _ & _ & _ & H).
  apply H. reflexivity.
Defined.

End MoreAtWork.

(* --------------------------------------------------------------------- *)
(** *** Further properties: from the response to the error card           *)
(* --------------------------------------------------------------------- *)

Section ErrorsShown.

Import Api Page.
Local Open Scope string_scope.

Variable NumberToString : Q -> string.
Variable JSON_stringify : json -> string.
Variable StatusToString : Z -> string.

Local Abbreviation analyse := (analyzePresentation NumberToString JSON_stringify).
Local Abbreviation analyse_bulk := (analyzeBulk NumberToString JSON_stringify).

(** X22. What the user reads after a response with a non-ok status: the
    page ends in 'error'.  When the body of the response is the JSON value
    null, the error card carries only the general text about an unexpected
    error.  Otherwise the message of the [APIError] is the conversion to a
    string of the server's [detail], or of the call's default when that
    counts as none: if the conversion succeeds, the card reads
    "Hata (status): message", in single and in bulk mode alike; if it
    throws (a [detail] holding an object with a [toString] key of its own),
    the card again carries only the general text.  For a [detail] that is a
    string or counts as none the conversion succeeds and the message is
    that string, or the default when it is empty or there is none. *)
Theorem server_error_shown (st : State) (response : Response)
    (Hok : ok response = false) :
  (selectedFile st <> None ->
   let st1 := handleAnalyze StatusToString st (analyse response) in
   Page.status st1 = error /\
   (body response = Some JNull -> error_message st1 = Some unexpected) /\
   (body response <> Some JNull ->
    exists detail,
      get (json_or_empty response) "detail" = Normal detail /\
      (forall m,
         ToString NumberToString (or_else detail "Analysis failed") = Normal m ->
         error_message st1
         = Some (JStr ("Hata (" ++ StatusToString (Api.status response) ++ "): "
                       ++ m))) /\
      (ToString NumberToString (or_else detail "Analysis failed") = TypeError ->
       error_message st1 = Some unexpected) /\
      (text_or_falsy detail ->
       error_message st1
       = Some (JStr ("Hata (" ++ StatusToString (Api.status response) ++ "): "
                     ++ message_for "Analysis failed" detail)))))
  /\
  (selectedFiles st <> [] ->
   let st2 := handleBulkAnalyze StatusToString st (analyse_bulk response) in
   Page.status st2 = error /\
   (body response = Some JNull -> error_message st2 = Some unexpected) /\
   (body response <> Some JNull ->
    exists detail,
      get (json_or_empty response) "detail" = Normal detail /\
      (forall m,
         ToString NumberToString (or_else detail "Bulk analysis failed")
         = Normal m ->
         error_message st2
         = Some (JStr ("Hata (" ++ StatusToString (Api.status response) ++ "): "
                       ++ m))) /\
      (ToString NumberToString (or_else detail "Bulk analysis failed")
       = TypeError ->
       error_message st2 = Some unexpected) /\
      (text_or_falsy detail ->
       error_message st2
       = Some (JStr ("Hata (" ++ StatusToString (Api.status response) ++ "): "
                     ++ message_for "Bulk analysis failed" detail))))).
Proof.
  assert (Hnull : body response = Some JNull ->
                  get (json_or_empty response) "detail" = TypeError).
  { intro Hb. unfold json_or_empty. rewrite Hb. reflexivity. }
  split.
  - intro Hfile. cbv zeta. unfold handleAnalyze.
    destruct (selectedFile st) as [file|]; [clear Hfile | congruence].
    unfold analyzePresentation. rewrite Hok. cbn [negb]. cbv zeta.
    destruct (get (json_or_empty response) "detail") as [detail|] eqn:Eget.
    + assert (Htext : text_or_falsy detail ->
                ToString NumberToString (or_else detail "Analysis failed")
                = Normal (message_for "Analysis failed" detail))
        by apply or_else_message.
      destruct (ToString NumberToString (or_else detail "Analysis failed"))
        as [m|] eqn:Em;
        cbn [caught failed Page.status error_message Api.api_status
             Api.message];
        (split; [reflexivity|]); (split; [intro Hb; discriminate (Hnull Hb)|]);
        intros _; exists detail; (split; [reflexivity|]).
      * split; [intros m' Hm; rewrite Em in Hm; injection Hm as <-;
                reflexivity|].
        split; [intro Hm; rewrite Em in Hm; discriminate Hm|].
        intro Ht. specialize (Htext Ht). injection Htext as ->. reflexivity.
      * split; [intros m' Hm; rewrite Em in Hm; discriminate Hm|].
        split; [reflexivity|].
        intro Ht. discriminate (Htext Ht).
    + cbn [caught failed Page.status error_message].
      split; [reflexivity|]. split; [reflexivity|].
      intro Hb.
      destruct (@get_not_null (json_or_empty response) "detail"
                  (@json_or_empty_not_null response Hb)) as [v Hv].
      congruence.
  - intro Hfiles. cbv zeta. unfold handleBulkAnalyze.
    destruct (selectedFiles st) as [|f fs]; [congruence | clear Hfiles].
    unfold analyzeBulk. rewrite Hok. cbn [negb]. cbv zeta.
    destruct (get (json_or_empty response) "detail") as [detail|] eqn:Eget.
    + assert (Htext : text_or_falsy detail ->
                ToString NumberToString (or_else detail "Bulk analysis failed")
                = Normal (message_for "Bulk analysis failed" detail))
        by apply or_else_message.
      destruct (ToString NumberToString (or_else detail "Bulk analysis failed"))
        as [m|] eqn:Em;
        cbn [caught failed Page.status error_message Api.api_status
             Api.message];
        (split; [reflexivity|]); (split; [intro Hb; discriminate (Hnull Hb)|]);
        intros _; exists detail; (split; [reflexivity|]).
      * split; [intros m' Hm; rewrite Em in Hm; injection Hm as <-;
                reflexivity|].
        split; [intro Hm; rewrite Em in Hm; discriminate Hm|].
        intro Ht. specialize (Htext Ht). injection Htext as ->. reflexivity.
      * split; [intros m' Hm; rewrite Em in Hm; discriminate Hm|].
        split; [reflexivity|].
        intro Ht. discriminate (Htext Ht).
    + cbn [caught failed Page.status error_message].
      split; [reflexivity|]. split; [reflexivity|].
      intro Hb.
      destruct (@get_not_null (json_or_empty response) "detail"
                  (@json_or_empty_not_null response Hb)) as [v Hv].
      congruence.
Qed.

(** At a [detail] that cannot be converted the card carries the general
    text, not the status. *)
Example unconvertible_detail_shown :
  error_message
    (handleAnalyze (fun _ => "500") MoreSamples.ready
       (analyzePresentation (fun _ => EmptyString) (fun _ => EmptyString)
          {| Api.ok := false; Api.status := 500;
             Api.body := Some (JObj [("detail", JObj [("toString", JNum 1)])]);
             Api.blob := EmptyString |}))
  = Some unexpected.
Proof. reflexivity. Qed.

(** X23. What the user reads after an ok response that reports no
    result: when the body is an object whose [success] is falsy, or whose
    [result] is, the page ends in 'error' and the error card carries the
    [error] of the body if that is truthy, the fixed text otherwise; when
    the body is not JSON at all, or is null, the general text about an
    unexpected error. *)
Theorem refusal_shown (st : State) (response : Response)
    (Hfile : selectedFile st <> None) (Hok : ok response = true) :
  let st' := handleAnalyze StatusToString st (analyse response) in
  (body response = None \/ body response = Some JNull ->
   Page.status st' = error /\ error_message st' = Some unexpected) /\
  (forall fields,
     body response = Some (JObj fields) ->
     truthy (lookup "success" fields) = false
     \/ truthy (lookup "result" fields) = false ->
     Page.status st' = error /\
     error_message st'
     = Some (or_else (lookup "error" fields) "Analiz basarisiz oldu") /\
     error_card st' = true) /\
  (forall fields r,
     body response = Some (JObj fields) ->
     truthy (lookup "success" fields) = true ->
     lookup "result" fields = Some r -> truthy (Some r) = true ->
     Page.status st' = complete /\ Page.result st' = Some r).
Proof.
  cbv zeta. unfold handleAnalyze.
  destruct (selectedFile st) as [file|]; [clear Hfile | congruence].
  unfold analyzePresentation, response_json. rewrite Hok. cbn [negb].
  split; [|split].
  - intros [-> | ->]; split; reflexivity.
  - intros fields -> H. cbn [get]. cbv zeta.
    assert (E : (if truthy (lookup "success" fields)
                 then if truthy (lookup "result" fields)
                      then lookup "result" fields else None
                 else None) = None).
    { destruct H as [-> | H]; [reflexivity|].
      rewrite H. destruct (truthy (lookup "success" fields)); reflexivity. }
    rewrite E. unfold error_card.
    cbn [failed Page.status error_message].
    split; [reflexivity|]. split; [reflexivity|].
    apply or_else_truthy. discriminate.
  - intros fields r -> Hs Hr Ht. cbn [get]. cbv zeta.
    rewrite Hs, Hr, Ht. split; reflexivity.
Qed.

End ErrorsShown.

Lemma server_error_shown_witness :
  Page.error_message
    (Page.handleAnalyze (fun _ => "413"%string) MoreSamples.ready
       (Api.analyzePresentation (fun _ => EmptyString) (fun _ => EmptyString)
          {| Api.ok := false; Api.status := 413;
             Api.body := Some (JObj [("detail", JStr "File too large")]);
             Api.blob := EmptyString |}%string))
  = Some (JStr "Hata (413): File too large").
Proof.
  destruct (@server_error_shown (fun _ => EmptyString) (fun _ => EmptyString)
              (fun _ => "413"%string) MoreSamples.ready
              {| Api.ok := false; Api.status := 413;
                 Api.body := Some (JObj [("detail", JStr "File too large")]);
                 Api.blob := EmptyString |}%string eq_refl)
    as (H & _).
  destruct (H ltac:(discriminate)) as (_ & _ & H').
  destruct (H' ltac:(discriminate)) as (detail & Hget & H1 & _).
  cbn in Hget. injection Hget as <-. exact (H1 _ eq_refl).
Defined.

Lemma refusal_shown_witness :
  Page.error_message
    (Page.handleAnalyze (fun _ => EmptyString) MoreSamples.ready
       (Api.analyzePresentation (fun _ => EmptyString) (fun _ => EmptyString)
          {| Api.ok := true; Api.status := 200;
             Api.body := Some (JObj [("success", JBool false);
                                     ("error", JStr "Sunum okunamadi")]);
             Api.blob := EmptyString |}%string))
  = Some (JStr "Sunum okunamadi").
Proof.
  destruct (@refusal_shown (fun _ => EmptyString) (fun _ => EmptyString)
              (fun _ => EmptyString) MoreSamples.ready
              {| Api.ok := true; Api.status := 200;
                 Api.body := Some (JObj [("success", JBool false);
                                         ("error", JStr "Sunum okunamadi")]);
                 Api.blob := EmptyString |}%string
              ltac:(discriminate) eq_refl)
    as (_ & H & _).
  destruct (H _ eq_refl (or_introl eq_refl)) as (_ & H' & _).
  exact H'.
Defined.
